(** * builder-webpack-core: [lib/core.js]

    A shallow embedding of the entry planner ([setMultiplePage]), the
    output naming ([setOutput]), the alias table ([setAlias]), the
    offline package hooks ([setOffline]: [pathMapper], [beforeAddBuffer]),
    the module rules with their [test] patterns and replacement
    callbacks ([setImgRule] to [setTsRule]), the Babel options
    ([setHappyPack]) and the loader directories ([setResolveLoaderPath])
    of [BuilderCore], with the JavaScript primitives they rest on:
    string search and replacement, the regular expressions that occur in
    the file, Node's [path.join], and objects used as maps.

    - Text is [string] (8-bit characters); JavaScript line terminators
      are the characters 10 and 13 of that alphabet.
    - An object used as a map ([newEntry], [aliasObject]) is the finite
      map of its own properties, with [null] as a key turned into the
      name [null]; an assignment to the name [__proto__] goes to the
      accessor of [Object.prototype] and adds no own property.
    - The disk ([fs.existsSync], the directory listing) and the clock
      ([Date.now()]) are arguments of the functions that read them.
    - [projectRoot], computed once from the configuration when the
      module is loaded, is a section variable. *)

From Stdlib Require Import ZArith Ascii String List Bool Lia.
From Stdlib Require Import DecimalString DecimalZ.
From stdpp Require Import gmap strings list.

(** The double quote, written by its character code. *)
Definition DQ : ascii := "034"%char.
Definition dq : string := String DQ "".

(** ** JavaScript strings *)
Module Str.

Fixpoint drop (n : nat) (s : string) : string :=
  match n, s with
  | O, _ => s
  | S n', String _ s' => drop n' s'
  | S _, EmptyString => EmptyString
  end.

Fixpoint take (n : nat) (s : string) : string :=
  match n, s with
  | S n', String c s' => String c (take n' s')
  | _, _ => EmptyString
  end.

(** [startsWith s pat]: [pat] is an initial segment of [s]. *)
Fixpoint startsWith (s pat : string) {struct pat} : bool :=
  match pat, s with
  | EmptyString, _ => true
  | String p pat', String c s' => if Ascii.eqb p c then startsWith s' pat' else false
  | String _ _, EmptyString => false
  end.

Fixpoint endsWith (s pat : string) : bool :=
  if String.eqb s pat then true
  else match s with
       | EmptyString => false
       | String _ s' => endsWith s' pat
       end.

(** [s.indexOf(pat)] counted from position [i]; [-1] when absent. *)
Fixpoint indexOf_from (i : Z) (s pat : string) : Z :=
  if startsWith s pat then i
  else match s with
       | EmptyString => (-1)%Z
       | String _ s' => indexOf_from (i + 1)%Z s' pat
       end.

Definition indexOf (s pat : string) : Z := indexOf_from 0%Z s pat.

(** The test [s.indexOf(pat) !== -1]. *)
Definition includes (s pat : string) : bool := negb (indexOf s pat =? -1)%Z.

(** [s.replace(pat, rep)] for a string pattern: the first occurrence
    only.  The replacement is copied as it is, which is what
    JavaScript does for a replacement without [$]; the source passes
    the empty string. *)
Fixpoint replace (s pat rep : string) : string :=
  if startsWith s pat then rep +:+ drop (String.length pat) s
  else match s with
       | EmptyString => EmptyString
       | String c s' => String c (replace s' pat rep)
       end.

(** Template-literal conversion of a value that may be [null]. *)
Definition of_nullable (v : option string) : string :=
  match v with
  | Some s => s
  | None => "null"
  end.

(** Truthiness of a string: the empty string is falsy. *)
Definition truthy (s : string) : bool :=
  match s with
  | EmptyString => false
  | String _ _ => true
  end.

End Str.

(** ** Node's [path.join] (POSIX flavour) *)
Module Path.

(** Split at every slash; empty pieces stand for doubled, leading or
    trailing slashes. *)
Fixpoint split_go (cur : string) (s : string) : list string :=
  match s with
  | EmptyString => [String.rev cur]
  | String c s' =>
      if Ascii.eqb c "/" then String.rev cur :: split_go EmptyString s'
      else split_go (String c cur) s'
  end.

Definition split (s : string) : list string := split_go EmptyString s.

(** [normalizeString]: the segments kept so far are held in reverse.
    [.] and empty segments vanish, [..] removes the segment before it,
    and is kept only when there is none to remove and the path is
    relative. *)
Fixpoint resolve (allowAboveRoot : bool) (acc : list string) (segs : list string)
  : list string :=
  match segs with
  | [] => List.rev acc
  | seg :: rest =>
      if String.eqb seg "" || String.eqb seg "."
      then resolve allowAboveRoot acc rest
      else if String.eqb seg ".."
      then match acc with
           | last :: acc' =>
               if String.eqb last ".."
               then resolve allowAboveRoot
                      (if allowAboveRoot then ".." :: acc else acc) rest
               else resolve allowAboveRoot acc' rest
           | [] => resolve allowAboveRoot (if allowAboveRoot then [".."] else []) rest
           end
      else resolve allowAboveRoot (seg :: acc) rest
  end.

Definition normalizeString (path : string) (allowAboveRoot : bool) : string :=
  String.concat "/" (resolve allowAboveRoot [] (split path)).

Definition normalize (path : string) : string :=
  match path with
  | EmptyString => "."
  | String _ _ =>
      let isAbsolute := Str.startsWith path "/" in
      let trailingSeparator := Str.endsWith path "/" in
      let path' := normalizeString path (negb isAbsolute) in
      match path' with
      | EmptyString =>
          if isAbsolute then "/" else if trailingSeparator then "./" else "."
      | String _ _ =>
          let path'' := if trailingSeparator then path' +:+ "/" else path' in
          if isAbsolute then "/" +:+ path'' else path''
      end
  end.

(** [path.join(...args)]: the non-empty arguments, joined by a slash,
    then normalized. *)
Definition join (args : list string) : string :=
  match List.filter Str.truthy args with
  | [] => "."
  | parts => normalize (String.concat "/" parts)
  end.

End Path.

(** ** Regular expressions

    The fragment of JavaScript's pattern language that [core.js] uses:
    pattern characters, [.], character classes, capturing groups, and
    the quantifiers [*], [+], [*?] applied to a single-character atom.
    Matching is the backtracking search of the language definition:
    leftmost start, greedy quantifiers giving characters back one at a
    time, lazy quantifiers taking them one at a time. *)
Module RegExp.

Inductive atom :=
| Chr (c : ascii)
| Dot
| Cls (negated : bool) (members : list ascii).

Definition lineTerminator (c : ascii) : bool :=
  Ascii.eqb c "010" || Ascii.eqb c "013".

Definition accepts (a : atom) (c : ascii) : bool :=
  match a with
  | Chr x => Ascii.eqb x c
  | Dot => negb (lineTerminator c)
  | Cls negated members => xorb negated (existsb (Ascii.eqb c) members)
  end.

Inductive regex :=
| Eps
| Atom (a : atom)
| Rep (greedy : bool) (min : nat) (a : atom)
| Cat (r1 r2 : regex)
| Grp (n : nat) (r : regex).

(** A run of pattern characters. *)
Fixpoint lits (s : string) : regex :=
  match s with
  | EmptyString => Eps
  | String c s' => Cat (Atom (Chr c)) (lits s')
  end.

(** Number of capturing groups (they are numbered from 1). *)
Fixpoint groups (r : regex) : nat :=
  match r with
  | Eps | Atom _ | Rep _ _ _ => O
  | Cat r1 r2 => Nat.max (groups r1) (groups r2)
  | Grp n r1 => Nat.max n (groups r1)
  end.

(** The text between two positions of the same string, the second
    given by what remains after it. *)
Definition consumed (s rest : string) : string :=
  Str.take (String.length s - String.length rest) s.

Section Matcher.
Context {R : Type}.

(** A quantified atom: [min] more characters are owed. *)
Fixpoint rep (greedy : bool) (a : atom) (min : nat) (s : string)
    (k : string -> option R) : option R :=
  if greedy then
    match
      match s with
      | String c s' => if accepts a c then rep greedy a (Nat.pred min) s' k else None
      | EmptyString => None
      end
    with
    | Some res => Some res
    | None => match min with O => k s | S _ => None end
    end
  else
    match match min with O => k s | S _ => None end with
    | Some res => Some res
    | None =>
        match s with
        | String c s' => if accepts a c then rep greedy a (Nat.pred min) s' k else None
        | EmptyString => None
        end
    end.

Fixpoint run (r : regex) (s : string) (caps : gmap nat string)
    (k : string -> gmap nat string -> option R) : option R :=
  match r with
  | Eps => k s caps
  | Atom a =>
      match s with
      | String c s' => if accepts a c then k s' caps else None
      | EmptyString => None
      end
  | Rep greedy min a => rep greedy a min s (fun s' => k s' caps)
  | Cat r1 r2 => run r1 s caps (fun s' caps' => run r2 s' caps' k)
  | Grp n r1 => run r1 s caps (fun s' caps' => k s' (<[n := consumed s s']> caps'))
  end.
End Matcher.

(** A match that starts at the head of [s]: what is left, and the groups. *)
Definition match_here (r : regex) (s : string) : option (string * gmap nat string) :=
  run r s ∅ (fun s' caps => Some (s', caps)).

Record MatchResult := {
  before : string;
  matched : string;
  captures : gmap nat string;
  after : string
}.

(** The leftmost match in [s], which follows [pre] in the whole text. *)
Fixpoint search (r : regex) (pre : string) (s : string) : option MatchResult :=
  match match_here r s with
  | Some (rest, caps) =>
      Some {| before := pre; matched := consumed s rest; captures := caps; after := rest |}
  | None =>
      match s with
      | EmptyString => None
      | String c s' => search r (pre +:+ String c "") s'
      end
  end.

(** [GetSubstitution]: expansion of [$$], [$&], [$`], [$'], [$n] and
    [$nn] in a replacement text, for a pattern with [m] groups and no
    named group. *)
Section GetSubstitution.
Variable mr : MatchResult.
Variable m : nat.

Definition capture (n : nat) : string := default "" (captures mr !! n).

Fixpoint GetSubstitution (tmpl : string) : string :=
  match tmpl with
  | EmptyString => EmptyString
  | String c t =>
      if negb (Ascii.eqb c "$") then String c (GetSubstitution t) else
      match t with
      | EmptyString => "$"
      | String d t' =>
          if Ascii.eqb d "$" then String "$" (GetSubstitution t')
          else if Ascii.eqb d "&" then matched mr +:+ GetSubstitution t'
          else if Ascii.eqb d "`" then before mr +:+ GetSubstitution t'
          else if Ascii.eqb d "'" then after mr +:+ GetSubstitution t'
          else
            match Ascii.is_nat d with
            | None => String "$" (GetSubstitution t)
            | Some n1 =>
                let one :=
                  if (1 <=? n1)%nat && (n1 <=? m)%nat
                  then capture n1 +:+ GetSubstitution t'
                  else String "$" (String d (GetSubstitution t')) in
                match t' with
                | EmptyString => one
                | String e t'' =>
                    match Ascii.is_nat e with
                    | None => one
                    | Some n2 =>
                        let nn := (10 * n1 + n2)%nat in
                        if (m <? nn)%nat then one
                        else if (1 <=? nn)%nat
                        then capture nn +:+ GetSubstitution t''
                        else String "$" (String d (String e (GetSubstitution t'')))
                    end
                end
            end
      end
  end.
End GetSubstitution.

(** [s.replace(r, tmpl)] for a pattern without the [g] flag. *)
Definition replace (r : regex) (tmpl : string) (s : string) : string :=
  match search r "" s with
  | Some mr => before mr +:+ GetSubstitution mr (groups r) tmpl +:+ after mr
  | None => s
  end.

(** [s.replace(r, tmpl)] for a pattern with the [g] flag: match after
    match, each search resuming where the last match ended, one
    character further after an empty match.  Every round consumes a
    character, so [S (length s)] rounds are enough
    ([replace_loop_fuel]). *)
Fixpoint replace_loop (fuel : nat) (r : regex) (tmpl : string) (pre s : string)
  : string :=
  match fuel with
  | O => s
  | S fuel' =>
      match search r pre s with
      | None => s
      | Some mr =>
          let out :=
            Str.drop (String.length pre) (before mr)
            +:+ GetSubstitution mr (groups r) tmpl in
          match matched mr with
          | EmptyString =>
              match after mr with
              | EmptyString => out
              | String c rest =>
                  out +:+ String c
                    (replace_loop fuel' r tmpl (before mr +:+ String c "") rest)
              end
          | String _ _ =>
              out +:+ replace_loop fuel' r tmpl (before mr +:+ matched mr) (after mr)
          end
      end
  end.

Definition replace_all (r : regex) (tmpl : string) (s : string) : string :=
  replace_loop (S (String.length s)) r tmpl "" s.

End RegExp.

(** ** Plugin option records *)

Module HtmlWebpackPlugin.
Record MinifyOptions := {
  html5 : bool;
  collapseWhitespace : bool;
  preserveLineBreaks : bool;
  minifyCSS : bool;
  minifyJS : bool;
  removeComments : bool
}.

(** [chunks] holds the page name as computed, [null] included;
    [inlineSource] and [minify] are [undefined] and [false] when [None]. *)
Record options := {
  inlineSource : option string;
  template : string;
  filename : string;
  chunks : list (option string);
  assetsPrefix : string;
  inject : bool;
  minify : option MinifyOptions
}.
End HtmlWebpackPlugin.

Module Output.
Record t := {
  filename : string;
  path : string;
  publicPath : string;
  crossOriginLoading : string
}.
End Output.

Module OfflineWebpackPlugin.
(** [beforeAddBuffer] also receives the reading of the clock that
    [Date.now()] returns during the call; it yields [None] when the
    pattern built from the configuration is outside the modelled
    fragment of the pattern language. *)
Record options := {
  path : string;
  filename : string;
  pathMapper : string -> string;
  beforeAddBuffer : Z -> string -> string -> option string
}.
End OfflineWebpackPlugin.

(** ** Loader rules *)

(** Option values: what the loaders and the Babel presets are given. *)
Module Value.
#[warnings="-register-all"]
Inductive t :=
| VBool (b : bool)
| VNum (n : Z)
| VText (s : string)
| VArr (items : list t)
| VObj (fields : list (string * t))
| VTable (m : gmap string string).
End Value.

(** A loader and its [options] object (empty when the source gives none). *)
Module Loader.
Record t := { loader : string; options : gmap string Value.t }.
End Loader.

(** One rule of a text-replacing loader: the pattern, and the callback
    that computes the replacement from its first argument. *)
Module Replacement.
Record t := { pattern : RegExp.regex; replacement : string -> string }.
End Replacement.

(** The [test] patterns of the module rules: pattern characters, then
    an alternation, then the end of the input ([$] without the [m]
    flag).  An optional character is the alternation of the character
    and the empty pattern, in this order; a pattern without alternation
    has the empty pattern as its only alternative. *)
Module TestPattern.
Import RegExp.

Record t := { head : regex; alternatives : list regex }.

Definition at_end (s : string) (caps : gmap nat string) : option unit :=
  match s with
  | EmptyString => Some tt
  | String _ _ => None
  end.

(** The alternatives are tried from left to right. *)
Fixpoint alternation (alts : list regex) (s : string) (caps : gmap nat string)
  : option unit :=
  match alts with
  | [] => None
  | r :: alts' =>
      match run r s caps at_end with
      | Some u => Some u
      | None => alternation alts' s caps
      end
  end.

Definition test_here (p : t) (s : string) : bool :=
  match run (head p) s ∅ (alternation (alternatives p)) with
  | Some _ => true
  | None => false
  end.

(** [p.test(s)]: a match starts at some position of [s]. *)
Fixpoint test (p : t) (s : string) : bool :=
  test_here p s
  || match s with
     | EmptyString => false
     | String _ s' => test p s'
     end.

End TestPattern.

Module Rule.
(** An element of [use]: a loader given by its name, a loader with
    options, [replace-text-loader] with its rules, or what
    [StringReplaceWebpackPlugin.replace] is called with. *)
Inductive use_item :=
| Named (name : string)
| Configured (l : Loader.t)
| ReplaceText (rules : list Replacement.t)
| StringReplace (replacements : list Replacement.t).

Record t := { test : TestPattern.t; use : list use_item }.
End Rule.

Module ScriptRule.
Record t := { test : TestPattern.t; loader : string; exclude : string }.
End ScriptRule.

Module HappyPack.
Record t := { loaders : list Loader.t }.
End HappyPack.

Module ResolveLoader.
Record t := { modules : list string }.
End ResolveLoader.

(** ** Plain objects used as maps

    The own properties of an object created by [{}], as a finite map.
    [o[k] = v] adds or replaces the own property [k], except for the
    name [__proto__]: that name is the accessor that [Object.prototype]
    hands down, so the assignment runs its setter, which changes the
    prototype when [v] is an object and does nothing otherwise; no own
    property is created either way. *)
Module Obj.

Definition proto : string := "__proto__".

Definition assign {V : Type} (o : gmap string V) (k : string) (v : V) : gmap string V :=
  if String.eqb k proto then o else <[k := v]> o.

End Obj.

(** ** [lib/util.js] *)
Module Util.

Record DirEntry := { name : string; dirPath : string }.

(** Modelled from the spec: [listDir(dir, 1)] of [lib/util.js], which
    is not part of the sources at hand.  It lists the immediate
    subdirectories of [dir], each with its name and its absolute
    path; [subdirs] is the directory listing of the file system. *)
Definition listDir (subdirs : string -> list string) (dir : string) : list DirEntry :=
  List.map (fun n => {| name := n; dirPath := dir +:+ "/" +:+ n |}) (subdirs dir).

(** Modelled from the spec: [isEmpty] of [lib/util.js]; an absent
    ([None]) or entry-free override map is empty. *)
Definition isEmpty (alias : option (gmap string string)) : bool :=
  match alias with
  | None => true
  | Some m => bool_decide (m = ∅)
  end.

(** Modelled from the spec: [merge] of [lib/util.js]; the entries of
    the first map (the user's overrides) are laid over those of the
    second (the discovered ones) and win where a key is in both. *)
Definition merge (overrides discovered : gmap string string) : gmap string string :=
  overrides ∪ discovered.

End Util.

(** ** [BuilderCore] *)
Module BuilderCore.

Import RegExp.

(** [JSON.stringify] of an integer-valued number below [1e21] in
    magnitude, which covers every reading of the clock. *)
Definition Number_toString (n : Z) : string :=
  NilEmpty.string_of_int (Z.to_int n).

(** [JSON.stringify({version: now})]. *)
Definition JSON_stringify_version (now : Z) : string :=
  "{" +:+ dq +:+ "version" +:+ dq +:+ ":" +:+ Number_toString now +:+ "}".

(** The class of characters that end a reference: double quote,
    quote, closing parenthesis, backquote. *)
Definition terminators : list ascii := [DQ; "'"; ")"; "`"]%char.

(** The tail [([^"'\)\`]+)(["'\`\)])] shared by both domain patterns. *)
Definition reference_tail : regex :=
  Cat (Grp 1 (Rep true 1 (Cls true terminators)))
      (Grp 2 (Atom (Cls false [DQ; "'"; "`"; ")"]%char))).

(** [/\/\/11\.url\.cn\/now\/([^"'\)\`]+)(["'\`\)])/g] *)
Definition platform_regex : regex :=
  Cat (lits "//11.url.cn/now/") reference_tail.

Definition syntaxCharacter (c : ascii) : bool :=
  existsb (Ascii.eqb c)
    ["^"; "$"; "\"; "."; "*"; "+"; "?"; "("; ")"; "["; "]"; "{"; "}"; "|"]%char.

(** Pattern text read as a sequence of atoms: [.] is the wildcard,
    any character that is not syntax stands for itself, and other
    syntax is outside the modelled fragment. *)
Fixpoint pattern_atoms (src : string) : option (list atom) :=
  match src with
  | EmptyString => Some []
  | String c src' =>
      match pattern_atoms src' with
      | None => None
      | Some rest =>
          if Ascii.eqb c "." then Some (Dot :: rest)
          else if syntaxCharacter c then None
          else Some (Chr c :: rest)
      end
  end.

Fixpoint atoms (l : list atom) : regex :=
  match l with
  | [] => Eps
  | a :: l' => Cat (Atom a) (atoms l')
  end.

(** [new RegExp(`//${cdn}/${product}/([^"'\)\`]+)(["'\`\)])`, 'g')]:
    [cdn] and [product] are spliced in as pattern text. *)
Definition business_regex (cdn product : string) : option regex :=
  match pattern_atoms ("//" +:+ cdn +:+ "/" +:+ product +:+ "/") with
  | Some l => Some (Cat (atoms l) reference_tail)
  | None => None
  end.

(** [/crossorigin=\"anonymous\"/g] *)
Definition crossorigin_text : string := "crossorigin=" +:+ dq +:+ "anonymous" +:+ dq.
Definition crossorigin_regex : regex := lits crossorigin_text.

(** [/\?_bid=152/g] *)
Definition bid_text : string := "?_bid=152".
Definition bid_regex : regex := lits bid_text.

(** The pattern of rule 5: group 1 is [<script] followed by a greedy
    [.*]; then [integrity=], a double quote, a lazy [.*?] and a double
    quote.  No [g] flag. *)
Definition integrity_text : string := "integrity=" +:+ dq.
Definition integrity_regex : regex :=
  Cat (Grp 1 (Cat (lits "<script") (Rep true 0 Dot)))
      (Cat (lits integrity_text) (Cat (Rep false 0 Dot) (Atom (Chr DQ)))).

(** [/(<script)/] *)
Definition script_text : string := "<script".
Definition script_regex : regex := Grp 1 (lits script_text).

(** The page convention: [/pages/] followed by group 1, a greedy [.*]. *)
Definition pages_regex : regex := Cat (lits "/pages/") (Grp 1 (Rep true 0 Dot)).

(** *** Patterns with the [i] flag

    A pattern character that is a letter of the Latin alphabet matches
    itself in either case; every other pattern character of [core.js]
    matches itself only. *)
Definition other_case (c : ascii) : ascii :=
  let n := nat_of_ascii c in
  if (65 <=? n)%nat && (n <=? 90)%nat then ascii_of_nat (n + 32)
  else if (97 <=? n)%nat && (n <=? 122)%nat then ascii_of_nat (n - 32)
  else c.

Definition ci_atom (c : ascii) : atom :=
  if Ascii.eqb (other_case c) c then Chr c else Cls false [c; other_case c].

Fixpoint ci_lits (s : string) : regex :=
  match s with
  | EmptyString => Eps
  | String c s' => Cat (Atom (ci_atom c)) (ci_lits s')
  end.

(** The class [\s] within the 8-bit alphabet: tab, line feed, vertical
    tab, form feed, carriage return, space, no-break space. *)
Definition whiteSpace : list ascii :=
  ["009"; "010"; "011"; "012"; "013"; " "; "160"]%char.

(** [result && result[1]] for [result = r.exec(s)], the pattern [r]
    being a fresh object whose search starts at the head of [s]. *)
Definition exec_group1 (r : regex) (s : string) : option string :=
  match search r "" s with
  | Some mr => Some (capture mr 1)
  | None => None
  end.

(** The pattern of the first rule of [setHtmlRule]: a script tag whose
    [src] ends with [?__inline], up to its closing tag.  Every [.*?] is
    lazy; group 1 is the text between [src=], a double quote, and
    [?__inline]. *)
Definition inline_script_pattern : regex :=
  Cat (ci_lits "<script")
    (Cat (Rep false 0 Dot)
       (Cat (ci_lits ("src=" +:+ dq))
          (Cat (Grp 1 (Rep false 0 Dot))
             (Cat (ci_lits ("?__inline" +:+ dq))
                (Cat (Rep false 0 Dot)
                   (Cat (ci_lits ">")
                      (Cat (Rep false 0 Dot) (ci_lits "</script>")))))))).

(** The pattern that the callback runs: the same, up to the double
    quote after [?__inline]. *)
Definition inline_script_regex : regex :=
  Cat (ci_lits "<script")
    (Cat (Rep false 0 Dot)
       (Cat (ci_lits ("src=" +:+ dq))
          (Cat (Grp 1 (Rep false 0 Dot))
             (ci_lits ("?__inline" +:+ dq))))).

Definition inline_script_replacement (source : string) : string :=
  let pkg := exec_group1 inline_script_regex source in
  "<script>${require('raw-loader!babel-loader!" +:+ Str.of_nullable pkg +:+ "')}</script>".

(** The pattern of the second rule: an [inline] comment with a
    bracketed path; the callback runs it with the path as group 1. *)
Definition inline_html_pattern : regex :=
  Cat (ci_lits "<!--inline[") (Cat (Rep false 0 Dot) (ci_lits "]-->")).

Definition inline_html_regex : regex :=
  Cat (ci_lits "<!--inline[") (Cat (Grp 1 (Rep false 0 Dot)) (ci_lits "]-->")).

Definition inline_html_replacement (source : string) : string :=
  let path := exec_group1 inline_html_regex source in
  let path :=
    match path with
    | Some p => if Str.startsWith p "/" then Some ("../.." +:+ p) else Some p
    | None => None
    end in
  "${require('raw-loader!" +:+ Str.of_nullable path +:+ "')}".

(** The pattern of the replacement in [setScssRule]: [@import], white
    space, a double quote, group 1 (a slash and a lazy [.*?]), a double
    quote and a semicolon. *)
Definition import_regex : regex :=
  Cat (ci_lits "@import")
    (Cat (Rep true 0 (Cls false whiteSpace))
       (Cat (Atom (Chr DQ))
          (Cat (Grp 1 (Cat (Atom (Chr "/")) (Rep false 0 Dot)))
             (ci_lits (dq +:+ ";"))))).

Definition import_replacement (matched : string) : string :=
  let path := exec_group1 import_regex matched in
  let path :=
    match path with
    | Some p => if Str.startsWith p "/" then Some (Str.drop 1 p) else Some p
    | None => None
    end in
  "@import " +:+ dq +:+ Str.of_nullable path +:+ dq +:+ ";".

(** [x || d] for a number [x] that may be missing: zero is falsy. *)
Definition number_or (x : option Z) (d : Z) : Z :=
  match x with
  | Some n => if (n =? 0)%Z then d else n
  | None => d
  end.

(** [Object.assign(target, source)]: every own property of [source]
    is assigned to [target], so that the properties of [source] are
    laid over those of [target], its [__proto__] apart, which goes to
    the accessor; a missing [source] adds nothing. *)
Definition Object_assign (target : gmap string Value.t)
    (source : option (gmap string Value.t)) : gmap string Value.t :=
  match source with
  | Some m => delete Obj.proto m ∪ target
  | None => target
  end.

(** [JSON.stringify({browsers: ["last 2 version", "> 1%", "iOS 7"]})]. *)
Definition JSON_stringify_browsers : string :=
  "{" +:+ dq +:+ "browsers" +:+ dq +:+ ":["
  +:+ dq +:+ "last 2 version" +:+ dq +:+ ","
  +:+ dq +:+ "> 1%" +:+ dq +:+ ","
  +:+ dq +:+ "iOS 7" +:+ dq +:+ "]}".

Definition setHappyPack (jsLoader : option (gmap string Value.t))
    (useTreeShaking : bool) : HappyPack.t :=
  let presets := [Value.VText "env"; Value.VText "stage-0"; Value.VText "react"] in
  let presets :=
    if useTreeShaking
    then [Value.VArr [Value.VText "env"; Value.VObj [("modules", Value.VBool false)]];
          Value.VText "stage-0"; Value.VText "react"]
    else presets in
  let options :=
    Object_assign
      {[ "cacheDirectory" := Value.VBool true;
         "plugins" :=
           Value.VArr
             [Value.VText "transform-decorators-legacy";
              Value.VArr [Value.VText "import";
                          Value.VObj [("libraryName", Value.VText "antd");
                                      ("libraryDirectory", Value.VText "es");
                                      ("style", Value.VText "css")]]];
         "presets" := Value.VArr presets ]}
      jsLoader in
  {| HappyPack.loaders :=
       [ {| Loader.loader := "babel-loader"; Loader.options := options |} ] |}.

Definition setImgRule (useHash : bool) (pathPrefix : string) : Rule.t :=
  let filename := if Str.truthy pathPrefix then pathPrefix +:+ "/" else "" in
  let hash := if useHash then "_[hash:8]" else "" in
  {| Rule.test :=
       {| TestPattern.head := lits ".";
          TestPattern.alternatives := List.map lits ["png"; "svg"; "jpg"; "gif"; "blob"] |};
     Rule.use :=
       [ Rule.Configured
           {| Loader.loader := "inline-file-loader";
              Loader.options :=
                {[ "name" :=
                     Value.VText (filename +:+ "img/[name]" +:+ hash +:+ ".[ext]") ]} |} ] |}.

Definition setMediaRule (useHash : bool) (pathPrefix : string) : Rule.t :=
  let filename := if Str.truthy pathPrefix then pathPrefix +:+ "/" else "" in
  let hash := if useHash then "_[hash:8]" else "" in
  {| Rule.test :=
       {| TestPattern.head := lits ".";
          TestPattern.alternatives := List.map lits ["mp3"; "mp4"; "mov"] |};
     Rule.use :=
       [ Rule.Configured
           {| Loader.loader := "file-loader";
              Loader.options :=
                {[ "name" :=
                     Value.VText (filename +:+ "img/[name]" +:+ hash +:+ ".[ext]") ]} |} ] |}.

(** [use] is a single loader here, not an array. *)
Definition setFontRule : Rule.t :=
  {| Rule.test :=
       {| TestPattern.head := lits ".";
          TestPattern.alternatives :=
            List.map lits ["woff"; "woff2"; "eot"; "ttf"; "otf"] |};
     Rule.use :=
       [ Rule.Configured {| Loader.loader := "file-loader"; Loader.options := ∅ |} ] |}.

Definition setHtmlRule : Rule.t :=
  let htmlRuleArray := [] in
  let htmlRuleArray :=
    htmlRuleArray ++
    [ Rule.Configured
        {| Loader.loader := "html-loader";
           Loader.options :=
             {[ "interpolate" := Value.VNum 1;
                "attrs" := Value.VArr [Value.VText ":src"] ]} |} ] in
  let htmlRuleArray :=
    htmlRuleArray ++
    [ Rule.ReplaceText
        [ {| Replacement.pattern := inline_script_pattern;
             Replacement.replacement := inline_script_replacement |};
          {| Replacement.pattern := inline_html_pattern;
             Replacement.replacement := inline_html_replacement |} ] ] in
  {| Rule.test :=
       {| TestPattern.head := lits "index.html";
          TestPattern.alternatives := List.map lits [""] |};
     Rule.use := htmlRuleArray |}.

Definition setCssRule : Rule.t :=
  {| Rule.test :=
       {| TestPattern.head := lits ".css";
          TestPattern.alternatives := List.map lits [""] |};
     Rule.use := [Rule.Named "style-loader"; Rule.Named "css-loader"] |}.

(** [home] is what [osenv.home()] returns. *)
Definition setResolveLoaderPath (home packageName runtime : string) : ResolveLoader.t :=
  let jbRuntime := if Str.truthy runtime then runtime else "runtime-now-6" in
  let resolveLoaderPath := Path.join [home; "./.feflow/node_modules"] in
  let globalStyleResolveLoaderPath :=
    Path.join [home; "./.feflow/node_modules/" +:+ packageName +:+ "/node_modules"] in
  let jbLoaderPath :=
    "/data/frontend/install/AlloyDist/" +:+ jbRuntime +:+ "/node_modules" in
  {| ResolveLoader.modules :=
       [resolveLoaderPath; globalStyleResolveLoaderPath; jbLoaderPath] |}.

Section WithProjectRoot.
(** [projectRoot], found once when the module is loaded. *)
Variable projectRoot : string.

Definition setOutput (useHash : bool) (pathPrefix publicPath outDir : string)
  : Output.t :=
  let filename := if Str.truthy pathPrefix then pathPrefix +:+ "/" else "" in
  let hash := if useHash then "_[chunkhash:8]" else "" in
  let outDir := if Str.truthy outDir then outDir else "public" in
  {| Output.filename := filename +:+ "[name]" +:+ hash +:+ ".js?_bid=152";
     Output.path := Path.join [projectRoot; outDir +:+ "/"];
     Output.publicPath := publicPath;
     Output.crossOriginLoading := "anonymous" |}.

Section setMultiplePage.
(** [fs.existsSync]: the state of the disk. *)
Variable existsSync : string -> bool.
Variables minifyHtml inject inlineCSS : bool.
Variables assetsPrefix htmlPrefix : string.

Record pages := {
  newEntry : gmap string string;
  htmlWebpackPlugins : list HtmlWebpackPlugin.options
}.

(** [match] is the result of matching [entry] against the page
    convention, and [pageName = match && match[1]]: [null] when
    there is no match. *)
Definition pageName_of (entry : string) : option string :=
  match search pages_regex "" entry with
  | Some mr => Some (capture mr 1)
  | None => None
  end.

(** The body of the callback, on the two accumulators. *)
Definition addPage (acc : pages) (entry : string) : pages :=
  let entryFile := entry +:+ "/init.js" in
  let isEntryFileExists := existsSync entryFile in
  let pageName := pageName_of entry in
  let filename := if Str.truthy htmlPrefix then htmlPrefix +:+ "/" else "" in
  {| newEntry :=
       if isEntryFileExists
       then Obj.assign (newEntry acc) (Str.of_nullable pageName) entryFile
       else newEntry acc;
     htmlWebpackPlugins :=
       htmlWebpackPlugins acc ++
       [ {| HtmlWebpackPlugin.inlineSource :=
              if inlineCSS then Some "\.css$" else None;
            HtmlWebpackPlugin.template :=
              Path.join [projectRoot;
                         "src/pages/" +:+ Str.of_nullable pageName +:+ "/index.html"];
            HtmlWebpackPlugin.filename :=
              filename +:+ Str.of_nullable pageName +:+ ".html";
            HtmlWebpackPlugin.chunks := [pageName];
            HtmlWebpackPlugin.assetsPrefix := assetsPrefix +:+ "/";
            HtmlWebpackPlugin.inject := inject && isEntryFileExists;
            HtmlWebpackPlugin.minify :=
              if minifyHtml
              then Some {| HtmlWebpackPlugin.html5 := true;
                           HtmlWebpackPlugin.collapseWhitespace := true;
                           HtmlWebpackPlugin.preserveLineBreaks := false;
                           HtmlWebpackPlugin.minifyCSS := true;
                           HtmlWebpackPlugin.minifyJS := true;
                           HtmlWebpackPlugin.removeComments := false |}
              else None |} ] |}.

Definition setMultiplePage (entries : list string) : pages :=
  fold_left addPage entries {| newEntry := ∅; htmlWebpackPlugins := [] |}.
End setMultiplePage.

Section setOffline.
Variables assetsPrefix htmlPrefix cdnUrl serverUrl domain cdn product outDir : string.

Definition pathMapper (assetPath : string) : string :=
  let assetPath :=
    if negb (Str.indexOf assetPath htmlPrefix =? -1)%Z
    then Str.replace assetPath htmlPrefix ""
    else if negb (Str.indexOf assetPath assetsPrefix =? -1)%Z
    then Str.replace assetPath assetsPrefix ""
    else assetPath in
  Path.join [Str.replace serverUrl "//" ""; assetPath].

(** The replacement text [`//${domain}/$1$2`]. *)
Definition domain_template : string := "//" +:+ domain +:+ "/$1$2".

Definition substitute_platform (source : string) : string :=
  replace_all platform_regex domain_template source.

Definition substitute_business (regex : regex) (source : string) : string :=
  replace_all regex domain_template source.

Definition strip_crossorigin (source : string) : string :=
  replace_all crossorigin_regex "" source.

Definition strip_bid (source : string) : string :=
  replace_all bid_regex "" source.

Definition strip_integrity (source : string) : string :=
  replace integrity_regex "$1" source.

Definition version_script (now : Z) : string :=
  "<script>var pack = " +:+ JSON_stringify_version now +:+ "</script>".

Definition inject_version (now : Z) (source : string) : string :=
  replace script_regex (version_script now +:+ "$1") source.

Definition beforeAddBuffer (now : Z) (source assetPath : string) : option string :=
  if negb (Str.indexOf assetPath htmlPrefix =? -1)%Z then
    let source := substitute_platform source in
    match business_regex cdn product with
    | None => None
    | Some regex =>
        let source := substitute_business regex source in
        let source := strip_crossorigin source in
        let source := strip_bid source in
        let source := strip_integrity source in
        Some (inject_version now source)
    end
  else
    match business_regex cdn product with
    | None => None
    | Some regex => Some (substitute_business regex source)
    end.

Definition setOffline : OfflineWebpackPlugin.options :=
  let outDir := if Str.truthy outDir then outDir else "public" in
  {| OfflineWebpackPlugin.path := Path.join [projectRoot; "./" +:+ outDir +:+ "/offline"];
     OfflineWebpackPlugin.filename := "offline.zip";
     OfflineWebpackPlugin.pathMapper := pathMapper;
     OfflineWebpackPlugin.beforeAddBuffer := beforeAddBuffer |}.
End setOffline.

Section setAlias.
(** The first-level subdirectories that the file system lists. *)
Variable subdirs : string -> list string.

Definition addAlias (aliasObject : gmap string string) (dir : Util.DirEntry)
  : gmap string string :=
  let aliasObject :=
    Obj.assign aliasObject ("/" +:+ Util.name dir) (Util.dirPath dir) in
  Obj.assign aliasObject (Util.name dir) (Util.dirPath dir).

Definition setAlias (alias : option (gmap string string)) : gmap string string :=
  let aliasObject :=
    fold_left addAlias (Util.listDir subdirs (Path.join [projectRoot; "./src"])) ∅ in
  if Util.isEmpty alias then aliasObject
  else match alias with
       | Some overrides => Util.merge overrides aliasObject
       | None => aliasObject
       end.
End setAlias.

Section StyleRules.
(** The directory listing that [setAlias] reads, and
    [ExtractTextPlugin.extract], which turns the fallback and the
    loaders it is given into the loaders of the rule. *)
Variable subdirs : string -> list string.
Variable extract : string -> list Rule.use_item -> list Rule.use_item.

Definition setScssRule (minimize usePx2rem : bool) (remUnit remPrecision : option Z)
  : Rule.t :=
  let cssRuleArray := [] in
  let cssLoaderRule :=
    {| Loader.loader := "css-loader";
       Loader.options := {[ "alias" := Value.VTable (setAlias subdirs None) ]} |} in
  let cssLoaderRule :=
    if minimize
    then {| Loader.loader := Loader.loader cssLoaderRule;
            Loader.options := {[ "minimize" := Value.VBool true ]} |}
    else cssLoaderRule in
  let cssRuleArray := cssRuleArray ++ [Rule.Configured cssLoaderRule] in
  let cssRuleArray :=
    if usePx2rem
    then cssRuleArray ++
         [ Rule.Configured
             {| Loader.loader := "px2rem-loader";
                Loader.options :=
                  {[ "remUnit" := Value.VNum (number_or remUnit 75);
                     "remPrecision" := Value.VNum (number_or remPrecision 8) ]} |} ]
    else cssRuleArray in
  let cssRuleArray :=
    cssRuleArray ++
    [ Rule.Configured
        {| Loader.loader := "autoprefixer-loader" +:+ "?" +:+ JSON_stringify_browsers;
           Loader.options := ∅ |} ] in
  let cssRuleArray :=
    cssRuleArray ++
    [ Rule.Configured {| Loader.loader := "sprites-loader"; Loader.options := ∅ |} ] in
  let cssRuleArray :=
    cssRuleArray ++
    [ Rule.Configured
        {| Loader.loader := "sass-loader";
           Loader.options :=
             {[ "includePaths" :=
                  Value.VArr [Value.VText (Path.join [projectRoot; "./src"])] ]} |} ] in
  let cssRuleArray :=
    cssRuleArray ++
    [ Rule.StringReplace
        [ {| Replacement.pattern := import_regex;
             Replacement.replacement := import_replacement |} ] ] in
  {| Rule.test :=
       {| TestPattern.head := lits ".scss";
          TestPattern.alternatives := List.map lits [""] |};
     Rule.use := Rule.Named "css-hot-loader" :: extract "style-loader" cssRuleArray |}.

Definition setLessRule (minimize usePx2rem : bool) (remUnit remPrecision : option Z)
  : Rule.t :=
  let cssRuleArray := [] in
  let cssLoaderRule :=
    {| Loader.loader := "css-loader";
       Loader.options := {[ "alias" := Value.VTable (setAlias subdirs None) ]} |} in
  let cssLoaderRule :=
    if minimize
    then {| Loader.loader := Loader.loader cssLoaderRule;
            Loader.options := {[ "minimize" := Value.VBool true ]} |}
    else cssLoaderRule in
  let cssRuleArray := cssRuleArray ++ [Rule.Configured cssLoaderRule] in
  let cssRuleArray :=
    if usePx2rem
    then cssRuleArray ++
         [ Rule.Configured
             {| Loader.loader := "px2rem-loader";
                Loader.options :=
                  {[ "remUnit" := Value.VNum (number_or remUnit 75);
                     "remPrecision" := Value.VNum (number_or remPrecision 8) ]} |} ]
    else cssRuleArray in
  let cssRuleArray :=
    cssRuleArray ++
    [ Rule.Configured
        {| Loader.loader := "autoprefixer-loader" +:+ "?" +:+ JSON_stringify_browsers;
           Loader.options := ∅ |} ] in
  let cssRuleArray :=
    cssRuleArray ++
    [ Rule.Configured {| Loader.loader := "sprites-loader"; Loader.options := ∅ |} ] in
  let cssRuleArray :=
    cssRuleArray ++
    [ Rule.Configured
        {| Loader.loader := "less-loader";
           Loader.options :=
             {[ "includePaths" :=
                  Value.VArr [Value.VText (Path.join [projectRoot; "./src"])] ]} |} ] in
  {| Rule.test :=
       {| TestPattern.head := lits ".less";
          TestPattern.alternatives := List.map lits [""] |};
     Rule.use := Rule.Named "css-hot-loader" :: extract "style-loader" cssRuleArray |}.
End StyleRules.

Definition setJsRule : ScriptRule.t :=
  {| ScriptRule.test :=
       {| TestPattern.head := lits ".js";
          TestPattern.alternatives := List.map lits [""] |};
     ScriptRule.loader := "happypack/loader";
     ScriptRule.exclude := Path.join [projectRoot; "node_modules"] |}.

Definition setTsRule : ScriptRule.t :=
  {| ScriptRule.test :=
       {| TestPattern.head := lits ".ts";
          TestPattern.alternatives := List.map lits ["x"; ""] |};
     ScriptRule.loader := "happypack/loader";
     ScriptRule.exclude := Path.join [projectRoot; "node_modules"] |}.
End WithProjectRoot.

End BuilderCore.

(** * Vocabulary of the statements *)

(** [pat] occurs in [s]. *)
Definition occurs (pat s : string) : Prop := exists a b, s = a +:+ pat +:+ b.

(** [a] is what precedes the first occurrence of [pat] in [s], [b]
    what follows it. *)
Definition first_occurrence (pat s a b : string) : Prop :=
  s = a +:+ pat +:+ b /\
  forall a' b', s = a' +:+ pat +:+ b' -> (String.length a <= String.length a')%nat.

(** Every character of [w] is accepted by the atom. *)
Fixpoint all_accept (a : RegExp.atom) (w : string) : bool :=
  match w with
  | EmptyString => true
  | String c w' => RegExp.accepts a c && all_accept a w'
  end.

(** The texts a pattern can consume, whatever the order in which the
    matcher tries them. *)
Inductive lang : RegExp.regex -> string -> Prop :=
| lang_Eps : lang RegExp.Eps ""
| lang_Atom a c : RegExp.accepts a c = true -> lang (RegExp.Atom a) (String c "")
| lang_Rep greedy min a w :
    all_accept a w = true -> (min <= String.length w)%nat ->
    lang (RegExp.Rep greedy min a) w
| lang_Cat r1 r2 w1 w2 : lang r1 w1 -> lang r2 w2 -> lang (RegExp.Cat r1 r2) (w1 +:+ w2)
| lang_Grp n r w : lang r w -> lang (RegExp.Grp n r) w.

(** No [$] in a replacement text: it is copied as it is. *)
Fixpoint no_dollar (s : string) : bool :=
  match s with
  | EmptyString => true
  | String c s' => negb (Ascii.eqb c "$") && no_dollar s'
  end.

(** The keys that an object cannot take: one when a directory is
    called [__proto__], none otherwise. *)
Definition lost_keys (names : list string) : nat :=
  if bool_decide ("__proto__" ∈ names) then 1%nat else 0%nat.

(** [m] is the alias table of the directories [names] under [src]: two
    keys for each, the bare name and the name after a slash, both bound
    to the directory's path; the bare name [__proto__] is no key. *)
Definition alias_table (src : string) (names : list string) (m : gmap string string)
  : Prop :=
  (size m + lost_keys names = 2 * List.length names)%nat /\
  forall k v, m !! k = Some v <->
              k <> "__proto__" /\
              exists n, n ∈ names /\ (k = n \/ k = "/" +:+ n) /\ v = src +:+ "/" +:+ n.

(** [p] is the template instantiation that the planner builds for the
    page directory [entry]: the chunk is the page name as computed, the
    output file and the template are named after it, and injection is
    on only if it is asked for and the entry script exists. *)
Definition instantiates (projectRoot : string) (existsSync : string -> bool)
    (inject : bool) (assetsPrefix htmlPrefix : string)
    (entry : string) (p : HtmlWebpackPlugin.options) : Prop :=
  let pageName := BuilderCore.pageName_of entry in
  HtmlWebpackPlugin.chunks p = [pageName]
  /\ HtmlWebpackPlugin.inject p = inject && existsSync (entry +:+ "/init.js")
  /\ HtmlWebpackPlugin.filename p
     = (if Str.truthy htmlPrefix then htmlPrefix +:+ "/" else "")
       +:+ Str.of_nullable pageName +:+ ".html"
  /\ HtmlWebpackPlugin.template p
     = Path.join [projectRoot; "src/pages/" +:+ Str.of_nullable pageName +:+ "/index.html"]
  /\ HtmlWebpackPlugin.assetsPrefix p = assetsPrefix +:+ "/".

(** The markup as it reaches the version-injection rule: rules 1 to 5
    of the markup branch of [beforeAddBuffer], in order. *)
Definition before_injection (domain : string) (regex : RegExp.regex) (source : string)
  : string :=
  BuilderCore.strip_integrity
    (BuilderCore.strip_bid
       (BuilderCore.strip_crossorigin
          (BuilderCore.substitute_business domain regex
             (BuilderCore.substitute_platform domain source)))).

(** A necessary condition for a business reference to start at the
    head of a text that begins with two slashes: further on there are,
    in this order, a slash, another slash and a terminator. *)
Fixpoint slash_slash_terminator (stage : nat) (s : string) : bool :=
  match s with
  | EmptyString => false
  | String c s' =>
      match stage with
      | O => slash_slash_terminator (if Ascii.eqb c "/" then 1%nat else 0%nat) s'
      | S O => slash_slash_terminator (if Ascii.eqb c "/" then 2%nat else 1%nat) s'
      | _ => existsb (Ascii.eqb c) BuilderCore.terminators
             || slash_slash_terminator stage s'
      end
  end.

(** No position of [s] passes that condition. *)
Fixpoint no_business_reference (s : string) : bool :=
  negb (Str.startsWith s "//" && slash_slash_terminator 0 (Str.drop 2 s))
  && match s with
     | EmptyString => true
     | String _ s' => no_business_reference s'
     end.

(** Script tags as the build writes them, for the scenarios. *)
Definition script_tag (src attributes : string) : string :=
  "<script src=" +:+ dq +:+ src +:+ dq +:+ attributes +:+ "></script>".

Definition integrity_attribute (hash : string) : string :=
  " integrity=" +:+ dq +:+ hash +:+ dq.

Definition crossorigin_attribute : string :=
  " crossorigin=" +:+ dq +:+ "anonymous" +:+ dq.

(** The markup of the scenario: one script tag served from the
    platform base, with [integrity] and [crossorigin]. *)
Definition scenario_markup : string :=
  script_tag "//11.url.cn/now/x.js"
    (integrity_attribute "sha256-abc" +:+ crossorigin_attribute).

(** The same tag once rewritten for [example.com]. *)
Definition scenario_tag_rewritten : string :=
  script_tag "//example.com/x.js" "  ".


(** Content of a file that is not markup: a script tag that refers to a
    business asset and carries every marker that the markup rules
    remove. *)
Definition other_content_with_markers (host : string) : string :=
  script_tag ("//" +:+ host +:+ "/a.js?_bid=152")
    (integrity_attribute "sha256-abc" +:+ crossorigin_attribute).

(** Patterns that match exactly the text [p], with fixed groups. *)
Definition literal_like (r : RegExp.regex) (p : string) (caps : gmap nat string) : Prop :=
  forall s, RegExp.match_here r s =
            if Str.startsWith s p then Some (Str.drop (String.length p) s, caps) else None.

(** Pattern text within the modelled fragment: pattern characters and
    the wildcard [.]. *)
Fixpoint plain_pattern (src : string) : bool :=
  match src with
  | EmptyString => true
  | String c src' =>
      (Ascii.eqb c "." || negb (BuilderCore.syntaxCharacter c)) && plain_pattern src'
  end.

(** A pattern without capturing group. *)
Fixpoint group_free (r : RegExp.regex) : bool :=
  match r with
  | RegExp.Eps | RegExp.Atom _ | RegExp.Rep _ _ _ => true
  | RegExp.Cat r1 r2 => group_free r1 && group_free r2
  | RegExp.Grp _ _ => false
  end.

(** The atoms of [l] and the characters of [w] agree as far as both go. *)
Fixpoint compatible (l : list RegExp.atom) (w : string) : bool :=
  match l, w with
  | a :: l', String c w' => RegExp.accepts a c && compatible l' w'
  | _, _ => true
  end.

(** No text matched by the atoms [l] can share a position with an
    occurrence of [t]: [t] can neither run into such a text from the
    left nor start inside it. *)
Fixpoint starts_inside (l : list RegExp.atom) (t : string) : bool :=
  match l with
  | [] => false
  | _ :: l' => compatible l t || starts_inside l' t
  end.

Fixpoint runs_into (l : list RegExp.atom) (t : string) : bool :=
  match t with
  | EmptyString => false
  | String _ t' =>
      match t' with
      | EmptyString => false
      | String _ _ => compatible l t' || runs_into l t'
      end
  end.

Definition apart (l : list RegExp.atom) (t : string) : bool :=
  negb (starts_inside l t) && negb (runs_into l t).

(** The character [c] is one of those of [s]. *)
Fixpoint has_char (c : ascii) (s : string) : bool :=
  match s with
  | EmptyString => false
  | String x s' => Ascii.eqb c x || has_char c s'
  end.

(** The pattern characters of a text, one atom each. *)
Fixpoint chr_atoms (p : string) : list RegExp.atom :=
  match p with
  | EmptyString => []
  | String c p' => RegExp.Chr c :: chr_atoms p'
  end.

(** The business pattern of [cdn] and [product] cannot take part of a
    [<script] away. *)
Definition script_safe (cdn product : string) : bool :=
  match BuilderCore.pattern_atoms ("//" +:+ cdn +:+ "/" +:+ product +:+ "/") with
  | Some l => apart l BuilderCore.script_text
  | None => false
  end.

(** *** Two passes of the markup rules *)

(** The number of places of [s] where [t] starts. *)
Fixpoint occurrences (t s : string) : nat :=
  match s with
  | EmptyString => 0%nat
  | String _ s' => ((if Str.startsWith s t then 1 else 0) + occurrences t s')%nat
  end.









(** [pat], read without regard to the case of its letters, is an
    initial segment of [s]. *)
Fixpoint startsWith_ci (s pat : string) {struct pat} : bool :=
  match pat, s with
  | EmptyString, _ => true
  | String p pat', String c s' =>
      RegExp.accepts (BuilderCore.ci_atom p) c && startsWith_ci s' pat'
  | String _ _, EmptyString => false
  end.

(** Every text of the pattern holds the character [q]. *)
Fixpoint requires (q : ascii) (r : RegExp.regex) : bool :=
  match r with
  | RegExp.Atom (RegExp.Chr c) => Ascii.eqb q c
  | RegExp.Cat r1 r2 => requires q r1 || requires q r2
  | RegExp.Grp _ r1 => requires q r1
  | _ => false
  end.

(** No letter of the Latin alphabet in [s]: under the [i] flag the
    pattern characters of [s] match themselves only. *)
Fixpoint caseless (s : string) : bool :=
  match s with
  | EmptyString => true
  | String c s' => Ascii.eqb (BuilderCore.other_case c) c && caseless s'
  end.

(** The [test] patterns of the nine module rules, in the order of the
    source. *)
Definition module_rule_tests (projectRoot : string)
    (subdirs : string -> list string)
    (extract : string -> list Rule.use_item -> list Rule.use_item)
    (useHash : bool) (pathPrefix : string)
    (minimize usePx2rem : bool) (remUnit remPrecision : option Z)
  : list TestPattern.t :=
  [ Rule.test (BuilderCore.setImgRule useHash pathPrefix);
    Rule.test (BuilderCore.setMediaRule useHash pathPrefix);
    Rule.test BuilderCore.setFontRule;
    Rule.test BuilderCore.setHtmlRule;
    Rule.test BuilderCore.setCssRule;
    Rule.test (BuilderCore.setScssRule projectRoot subdirs extract
                 minimize usePx2rem remUnit remPrecision);
    Rule.test (BuilderCore.setLessRule projectRoot subdirs extract
                 minimize usePx2rem remUnit remPrecision);
    ScriptRule.test (BuilderCore.setJsRule projectRoot);
    ScriptRule.test (BuilderCore.setTsRule projectRoot) ].

(** Segments that [path.join] keeps as they are, and paths made of
    such segments only: no empty segment (so no leading, trailing or
    doubled slash), no [.] and no [..]. *)
Definition plain_segment (s : string) : bool :=
  negb (String.eqb s "") && negb (String.eqb s ".") && negb (String.eqb s "..").

Definition clean_path (p : string) : bool := forallb plain_segment (Path.split p).

(** Segments that normalization does not drop, and segments other
    than [..]. *)
Definition kept_segment (s : string) : bool :=
  negb (String.eqb s "" || String.eqb s ".").

Definition not_dotdot (s : string) : bool := negb (String.eqb s "..").

(** A segment other than [pages]. *)
Definition not_pages (s : string) : bool := negb (String.eqb s "pages").

(** * Properties *)

#[local] Arguments String.append !s1 s2 / : simpl nomatch.

(** ** Text *)
Section StringFacts.

Lemma append_nil_r (s : string) : s +:+ "" = s.
Proof. induction s as [|c s IH]; simpl; [reflexivity | now rewrite IH]. Qed.

Lemma append_assoc (a b c : string) : (a +:+ b) +:+ c = a +:+ (b +:+ c).
Proof. induction a as [|x a IH]; simpl; [reflexivity | now rewrite IH]. Qed.

Lemma length_append (a b : string) :
  String.length (a +:+ b) = (String.length a + String.length b)%nat.
Proof. induction a as [|x a IH]; simpl; [reflexivity | now rewrite IH]. Qed.

Lemma append_inv_head (a b c : string) : a +:+ b = a +:+ c -> b = c.
Proof. induction a as [|x a IH]; simpl; [easy | intros [= H]; auto]. Qed.

Lemma append_inv_tail (a b c : string) : a +:+ c = b +:+ c -> a = b.
Proof.
  revert b. induction a as [|x a IH]; intros [|y b] H; simpl in H.
  - reflexivity.
  - apply (f_equal String.length) in H. simpl in H. rewrite length_append in H. lia.
  - apply (f_equal String.length) in H. simpl in H. rewrite length_append in H. lia.
  - injection H as -> H. f_equal. now apply IH.
Qed.

Lemma drop_append (a b : string) : Str.drop (String.length a) (a +:+ b) = b.
Proof. induction a as [|x a IH]; simpl; [now destruct b | exact IH]. Qed.

Lemma take_append (a b : string) : Str.take (String.length a) (a +:+ b) = a.
Proof. induction a as [|x a IH]; simpl; [now destruct b | now rewrite IH]. Qed.

Lemma consumed_append (w rest : string) : RegExp.consumed (w +:+ rest) rest = w.
Proof.
  unfold RegExp.consumed. rewrite length_append.
  replace (String.length w + String.length rest - String.length rest)%nat
    with (String.length w) by lia.
  apply take_append.
Qed.

Lemma startsWith_spec (s p : string) :
  Str.startsWith s p = true <-> exists t, s = p +:+ t.
Proof.
  revert s. induction p as [|x p IH]; intros s; simpl.
  - split; [intros _; now exists s | reflexivity].
  - destruct s as [|c s].
    + split; [discriminate | intros [t [=]]].
    + destruct (Ascii.eqb_spec x c) as [->|Hne].
      * rewrite IH. split; intros [t Ht]; exists t.
        -- now rewrite Ht.
        -- now injection Ht.
      * split; [discriminate | intros [t [= ? _]]; congruence].
Qed.

Lemma startsWith_app (p t : string) : Str.startsWith (p +:+ t) p = true.
Proof. apply startsWith_spec. now exists t. Qed.

Lemma startsWith_drop (s p : string) :
  Str.startsWith s p = true -> s = p +:+ Str.drop (String.length p) s.
Proof. intros [t ->]%startsWith_spec. now rewrite drop_append. Qed.

Lemma endsWith_app (a b : string) : Str.endsWith (a +:+ b) b = true.
Proof.
  induction a as [|x a IH].
  - destruct b; simpl; [reflexivity | now rewrite Ascii.eqb_refl, String.eqb_refl].
  - change (Str.endsWith (String x a +:+ b) b)
      with (if String.eqb (String x (a +:+ b)) b then true else Str.endsWith (a +:+ b) b).
    destruct (String.eqb (String x (a +:+ b)) b); [reflexivity | exact IH].
Qed.

Lemma indexOf_from_range (i : Z) (s pat : string) :
  (0 <= i)%Z ->
  Str.indexOf_from i s pat = (-1)%Z \/ (i <= Str.indexOf_from i s pat)%Z.
Proof.
  revert i. induction s as [|c s IH]; intros i Hi; simpl.
  - destruct pat; simpl; [right; lia | now left].
  - destruct (Str.startsWith (String c s) pat); [right; lia|].
    destruct (IH (i + 1)%Z ltac:(lia)) as [H|H]; [now left | right; lia].
Qed.

Lemma occurs_here (s pat : string) : Str.startsWith s pat = true -> occurs pat s.
Proof. intros [t Ht]%startsWith_spec. exists "", t. exact Ht. Qed.

Lemma occurs_later (c : ascii) (s pat : string) :
  occurs pat s -> occurs pat (String c s).
Proof. intros (a & b & ->). now exists (String c a), b. Qed.

Lemma occurs_inv (c : ascii) (s pat : string) :
  occurs pat (String c s) ->
  Str.startsWith (String c s) pat = true \/ occurs pat s.
Proof.
  intros ([|x a] & b & H); simpl in H.
  - left. apply startsWith_spec. eauto.
  - right. injection H as _ ->. now exists a, b.
Qed.

Lemma occurs_empty_inv (pat : string) :
  occurs pat "" -> Str.startsWith "" pat = true.
Proof.
  intros ([|x a] & b & H); simpl in H; [|discriminate].
  apply startsWith_spec. eauto.
Qed.

Lemma indexOf_from_absent (i : Z) (s pat : string) :
  (0 <= i)%Z ->
  Str.indexOf_from i s pat = (-1)%Z <-> ~ occurs pat s.
Proof.
  revert i. induction s as [|c s IH]; intros i Hi; simpl.
  - destruct (Str.startsWith "" pat) eqn:E.
    + split; [lia|]. intros H. exfalso. now apply H, occurs_here.
    + split; [|reflexivity]. intros _ H%occurs_empty_inv. congruence.
  - destruct (Str.startsWith (String c s) pat) eqn:E.
    + split; [lia|]. intros H. exfalso. now apply H, occurs_here.
    + rewrite IH by lia. split; intros H Ho; apply H.
      * apply occurs_inv in Ho as [Ho|Ho]; [congruence | exact Ho].
      * now apply occurs_later.
Qed.

Lemma indexOf_from_present (i : Z) (s pat : string) :
  Str.indexOf_from i s pat <> (-1)%Z -> occurs pat s.
Proof.
  revert i. induction s as [|c s IH]; intros i; simpl.
  - destruct (Str.startsWith "" pat) eqn:E; [intros _; now apply occurs_here | easy].
  - destruct (Str.startsWith (String c s) pat) eqn:E.
    + intros _. now apply occurs_here.
    + intros H. apply occurs_later. now apply (IH (i + 1)%Z).
Qed.

Lemma includes_spec (s pat : string) : Str.includes s pat = true <-> occurs pat s.
Proof.
  unfold Str.includes, Str.indexOf.
  destruct (Z.eqb_spec (Str.indexOf_from 0 s pat) (-1)) as [E|E]; simpl.
  - split; [discriminate|]. intros Ho.
    now apply (indexOf_from_absent 0 s pat ltac:(lia)) in E.
  - split; [intros _|reflexivity]. now apply (indexOf_from_present 0).
Qed.

Lemma includes_false (s pat : string) : Str.includes s pat = false <-> ~ occurs pat s.
Proof.
  rewrite <- includes_spec. destruct (Str.includes s pat); split; congruence.
Qed.

Lemma first_occurrence_here (pat s b : string) :
  first_occurrence pat s "" b <-> s = pat +:+ b.
Proof.
  unfold first_occurrence. simpl. split; [now intros [H _] | intros H].
  split; [exact H | intros; lia].
Qed.

Lemma first_occurrence_later (pat : string) (c : ascii) (s a b : string) :
  first_occurrence pat (String c s) (String c a) b <->
  Str.startsWith (String c s) pat = false /\ first_occurrence pat s a b.
Proof.
  unfold first_occurrence. split.
  - intros [H Hmin]. simpl in H. injection H as H. split; [|split; [exact H|]].
    + destruct (Str.startsWith (String c s) pat) eqn:E; [|reflexivity].
      apply startsWith_spec in E as [t Ht].
      specialize (Hmin "" t Ht). simpl in Hmin. lia.
    + intros a' b' H'. specialize (Hmin (String c a') b').
      simpl in Hmin. rewrite H' in Hmin. specialize (Hmin eq_refl). lia.
  - intros [E [H Hmin]]. split; [simpl; now rewrite H|].
    intros [|x a'] b' H'; simpl in H'.
    + assert (Str.startsWith (String c s) pat = true)
        by (apply startsWith_spec; eauto).
      congruence.
    + injection H' as _ H'. specialize (Hmin a' b' H'). simpl. lia.
Qed.

Lemma first_occurrence_head (pat s a b : string) (c : ascii) :
  first_occurrence pat (String c s) a b ->
  (a = "" /\ Str.startsWith (String c s) pat = true) \/
  (exists a', a = String c a' /\ Str.startsWith (String c s) pat = false
              /\ first_occurrence pat s a' b).
Proof.
  intros H. destruct a as [|x a'].
  - left. split; [reflexivity|]. apply first_occurrence_here in H.
    apply startsWith_spec. eauto.
  - right. exists a'. assert (x = c) as -> by (destruct H as [[= <- _] _]; reflexivity).
    split; [reflexivity|]. now apply first_occurrence_later.
Qed.

Lemma first_occurrence_exists (pat s : string) :
  occurs pat s -> exists a b, first_occurrence pat s a b.
Proof.
  induction s as [|c s IH]; intros Ho.
  - apply occurs_empty_inv, startsWith_spec in Ho as [t Ht].
    exists "", t. now apply first_occurrence_here.
  - destruct (Str.startsWith (String c s) pat) eqn:E.
    + apply startsWith_spec in E as [t Ht]. exists "", t.
      now apply first_occurrence_here.
    + apply occurs_inv in Ho as [Ho|Ho]; [congruence|].
      destruct (IH Ho) as (a & b & Hab). exists (String c a), b.
      now apply first_occurrence_later.
Qed.

Lemma first_occurrence_occurs (pat s a b : string) :
  first_occurrence pat s a b -> occurs pat s.
Proof. intros [H _]. now exists a, b. Qed.

Lemma first_occurrence_unique (pat s a b a' b' : string) :
  first_occurrence pat s a b -> first_occurrence pat s a' b' -> a = a' /\ b = b'.
Proof.
  intros [H Hmin] [H' Hmin'].
  pose proof (Hmin _ _ H') as L1. pose proof (Hmin' _ _ H) as L2.
  assert (String.length a = String.length a') as L by lia. clear L1 L2 Hmin Hmin'.
  subst s. revert a' L H'. induction a as [|x a IH]; intros [|y a'] L H'; simpl in *;
    try discriminate.
  - split; [reflexivity|]. now apply append_inv_head in H'.
  - injection H' as -> H'. injection L as L.
    destruct (IH a' L H') as [-> ->]. easy.
Qed.

(** The string form of [replace] rewrites the first occurrence. *)
Lemma replace_first (pat rep s a b : string) :
  first_occurrence pat s a b -> Str.replace s pat rep = a +:+ rep +:+ b.
Proof.
  revert a. induction s as [|c s IH]; intros a H.
  - destruct H as [H _]. destruct a; [|discriminate]. simpl in H.
    destruct pat; [|discriminate]. simpl in H. now subst b.
  - unfold Str.replace; fold Str.replace.
    pose proof H as H0.
    apply first_occurrence_head in H as [[-> E]|(a' & -> & E & H)]; rewrite E.
    + apply first_occurrence_here in H0. rewrite H0. now rewrite drop_append.
    + simpl. now rewrite (IH a').
Qed.

Lemma replace_absent (pat rep s : string) :
  ~ occurs pat s -> Str.replace s pat rep = s.
Proof.
  induction s as [|c s IH]; intros H.
  - unfold Str.replace. destruct (Str.startsWith "" pat) eqn:E; [|reflexivity].
    exfalso. now apply H, occurs_here.
  - unfold Str.replace; fold Str.replace.
    destruct (Str.startsWith (String c s) pat) eqn:E.
    + exfalso. now apply H, occurs_here.
    + rewrite IH; [reflexivity|]. intros Ho. now apply H, occurs_later.
Qed.

Lemma has_char_app (q : ascii) (a b : string) :
  has_char q (a +:+ b) = has_char q a || has_char q b.
Proof.
  induction a as [|c a IH]; [reflexivity|].
  change (String c a +:+ b) with (String c (a +:+ b)).
  cbn [has_char]. now rewrite IH, orb_assoc.
Qed.

End StringFacts.

(** ** The matcher *)
Section RegExpFacts.
Import RegExp.

Lemma rep_sound {R : Type} (greedy : bool) (a : atom) (s : string) :
  forall (min : nat) (k : string -> option R) (res : R),
    rep greedy a min s k = Some res ->
    exists w s', s = w +:+ s' /\ all_accept a w = true
                 /\ (min <= String.length w)%nat /\ k s' = Some res.
Proof.
  induction s as [|c s IH]; intros min k res H.
  - exists "", "".
    destruct greedy, min; simpl in H; try discriminate;
      destruct (k "") eqn:Ek; try discriminate;
      injection H as <-; repeat split; auto.
  - assert (Hstop : forall r0, match min with O => k (String c s) | S _ => None end = Some r0 ->
              exists w s', String c s = w +:+ s' /\ all_accept a w = true
                           /\ (min <= String.length w)%nat /\ k s' = Some r0).
    { intros r0 Hk. destruct min; [|discriminate]. exists "", (String c s). auto. }
    assert (Hmore : forall r0,
              (if accepts a c then rep greedy a (Nat.pred min) s k else None) = Some r0 ->
              exists w s', String c s = w +:+ s' /\ all_accept a w = true
                           /\ (min <= String.length w)%nat /\ k s' = Some r0).
    { intros r0 Hk. destruct (accepts a c) eqn:Ea; [|discriminate].
      apply IH in Hk as (w & s' & -> & Hw & Hlen & Hk).
      exists (String c w), s'. simpl. rewrite Ea, Hw. repeat split; auto. lia. }
    destruct greedy; simpl in H.
    + destruct (if accepts a c then rep true a (Nat.pred min) s k else None) eqn:E.
      * injection H as <-. now apply Hmore.
      * now apply Hstop.
    + destruct (match min with O => k (String c s) | S _ => None end) eqn:E.
      * injection H as <-. now apply Hstop.
      * now apply Hmore.
Qed.

Lemma run_sound {R : Type} (r : regex) :
  forall (s : string) (caps : gmap nat string)
         (k : string -> gmap nat string -> option R) (res : R),
    run r s caps k = Some res ->
    exists w s' caps', s = w +:+ s' /\ lang r w /\ k s' caps' = Some res.
Proof.
  induction r as [|a|greedy min a|r1 IH1 r2 IH2|n r IH]; intros s caps k res H; simpl in H.
  - exists "", s, caps. repeat split; auto. constructor.
  - destruct s as [|c s]; [discriminate|].
    destruct (accepts a c) eqn:Ea; [|discriminate].
    exists (String c ""), s, caps. repeat split; auto. now constructor.
  - apply rep_sound in H as (w & s' & -> & Hw & Hlen & Hk).
    exists w, s', caps. repeat split; auto. now constructor.
  - apply IH1 in H as (w1 & s1 & c1 & -> & L1 & H).
    apply IH2 in H as (w2 & s2 & c2 & -> & L2 & H).
    exists (w1 +:+ w2), s2, c2. rewrite append_assoc. repeat split; auto. now constructor.
  - apply IH in H as (w & s' & c' & -> & L & H).
    exists w, s', (<[n := consumed (w +:+ s') s']> c'). repeat split; auto. now constructor.
Qed.

Lemma match_here_sound (r : regex) (s rest : string) (caps : gmap nat string) :
  match_here r s = Some (rest, caps) -> exists w, s = w +:+ rest /\ lang r w.
Proof.
  unfold match_here. intros H.
  apply run_sound in H as (w & s' & c' & -> & L & [= -> _]). eauto.
Qed.

Lemma lang_lits (p w : string) : lang (lits p) w -> w = p.
Proof.
  revert w. induction p as [|c p IH]; intros w H; simpl in H.
  - now inversion H.
  - inversion H as [| | |r1 r2 w1 w2 L1 L2|]; subst.
    inversion L1 as [|a x Hx| | |]; subst. simpl in Hx.
    apply Ascii.eqb_eq in Hx as <-. simpl. f_equal. now apply IH.
Qed.

Lemma run_lits {R : Type} (p s : string) (caps : gmap nat string)
    (k : string -> gmap nat string -> option R) :
  run (lits p) s caps k =
  if Str.startsWith s p then k (Str.drop (String.length p) s) caps else None.
Proof.
  revert s. induction p as [|c p IH]; intros s; simpl.
  - reflexivity.
  - destruct s as [|x s]; [reflexivity|].
    destruct (Ascii.eqb c x); [apply IH | reflexivity].
Qed.

Lemma match_here_found (r : regex) (s rest pre : string) (caps : gmap nat string) :
  match_here r s = Some (rest, caps) ->
  exists gap, s = gap +:+ consumed s rest +:+ rest
              /\ pre = pre +:+ gap
              /\ lang r (consumed s rest)
              /\ match_here r (consumed s rest +:+ rest) = Some (rest, caps).
Proof.
  intros E. pose proof E as (w & -> & L)%match_here_sound.
  rewrite consumed_append. exists "". rewrite append_nil_r. auto.
Qed.

(** What a successful search returns. *)
Lemma search_sound (r : regex) (s : string) :
  forall (pre : string) (mr : MatchResult),
    search r pre s = Some mr ->
    exists gap, s = gap +:+ matched mr +:+ after mr
                /\ before mr = pre +:+ gap
                /\ lang r (matched mr)
                /\ match_here r (matched mr +:+ after mr) = Some (after mr, captures mr).
Proof.
  induction s as [|c s IH]; intros pre mr H.
  - unfold search in H.
    destruct (match_here r "") as [[rest caps]|] eqn:E; [|discriminate].
    injection H as <-. now apply match_here_found.
  - unfold search in H; fold search in H.
    destruct (match_here r (String c s)) as [[rest caps]|] eqn:E.
    + injection H as <-. now apply match_here_found.
    + apply IH in H as (gap & Hs & Hb & L & Hm).
      exists (String c gap). simpl. rewrite <- Hs. repeat split; auto.
      rewrite Hb, append_assoc. reflexivity.
Qed.

(** A search fails exactly when no position starts a match. *)
Lemma search_none (r : regex) (s : string) :
  forall pre, (forall a b, s = a +:+ b -> match_here r b = None) -> search r pre s = None.
Proof.
  induction s as [|c s IH]; intros pre H; simpl.
  - now rewrite (H "" "").
  - rewrite (H "" (String c s)) by reflexivity.
    apply IH. intros a b ->. now apply (H (String c a) b).
Qed.


Lemma lits_literal_like (p : string) : literal_like (lits p) p ∅.
Proof. intros s. unfold match_here. now rewrite run_lits. Qed.

Lemma group_literal_like (n : nat) (p : string) :
  literal_like (Grp n (lits p)) p {[n := p]}.
Proof.
  intros s. unfold match_here. simpl. rewrite run_lits.
  destruct (Str.startsWith s p) eqn:E; [|reflexivity].
  apply startsWith_spec in E as [t ->].
  now rewrite drop_append, consumed_append, insert_empty.
Qed.

Lemma search_literal_absent (r : regex) (p : string) (caps : gmap nat string) :
  literal_like r p caps ->
  forall pre s, ~ occurs p s -> search r pre s = None.
Proof.
  intros Hr pre s Hn. apply search_none. intros a b ->. rewrite Hr.
  destruct (Str.startsWith b p) eqn:E; [|reflexivity].
  exfalso. apply Hn. apply startsWith_spec in E as [t ->]. now exists a, t.
Qed.

Lemma search_literal_first (r : regex) (p : string) (caps : gmap nat string) :
  literal_like r p caps ->
  forall s a b pre,
    first_occurrence p s a b ->
    search r pre s =
    Some {| before := pre +:+ a; matched := p; captures := caps; after := b |}.
Proof.
  intros Hr s. induction s as [|c s IH]; intros a b pre H.
  - destruct H as [H _]. destruct a; [|discriminate]. simpl in H.
    destruct p; [|discriminate]. simpl in H. subst b.
    unfold search. rewrite Hr. simpl. now rewrite append_nil_r.
  - unfold search; fold search. rewrite Hr. pose proof H as H0.
    apply first_occurrence_head in H as [[-> E]|(a' & -> & E & H)]; rewrite E.
    + apply first_occurrence_here in H0. rewrite H0.
      now rewrite drop_append, consumed_append, append_nil_r.
    + rewrite (IH a' b _ H), append_assoc. reflexivity.
Qed.

(** *** Replacement *)

Lemma replace_loop_none (fuel : nat) (r : regex) (tmpl pre s : string) :
  search r pre s = None -> replace_loop fuel r tmpl pre s = s.
Proof. intros H. destruct fuel; simpl; [reflexivity | now rewrite H]. Qed.

Lemma replace_all_none (r : regex) (tmpl s : string) :
  search r "" s = None -> replace_all r tmpl s = s.
Proof. apply replace_loop_none. Qed.

(** Fuel beyond the length of the text changes nothing: the bound in
    [replace_all] is never what stops the loop. *)
Lemma replace_loop_fuel (r : regex) (tmpl : string) :
  forall (f1 f2 : nat) (pre s : string),
    (String.length s < f1)%nat -> (String.length s < f2)%nat ->
    replace_loop f1 r tmpl pre s = replace_loop f2 r tmpl pre s.
Proof.
  induction f1 as [|f1 IH]; intros [|f2] pre s H1 H2; try lia.
  simpl. destruct (search r pre s) as [mr|] eqn:E; [|reflexivity].
  apply search_sound in E as (gap & Hs & _ & _ & _).
  apply (f_equal String.length) in Hs. rewrite !length_append in Hs.
  destruct (matched mr) as [|x m] eqn:Em.
  - destruct (after mr) as [|c rest] eqn:Ea; [reflexivity|].
    simpl in Hs. f_equal. f_equal. apply IH; lia.
  - simpl in Hs. f_equal. apply IH; lia.
Qed.

Lemma no_dollar_app (a b : string) : no_dollar (a +:+ b) = no_dollar a && no_dollar b.
Proof. induction a as [|c a IH]; simpl; [reflexivity | now rewrite IH, andb_assoc]. Qed.

Lemma GetSubstitution_plain (mr : MatchResult) (m : nat) (a t : string) :
  no_dollar a = true ->
  GetSubstitution mr m (a +:+ t) = a +:+ GetSubstitution mr m t.
Proof.
  induction a as [|c a IH]; intros H; [reflexivity|].
  simpl in H. apply andb_prop in H as [Hc Ha].
  change (String c a +:+ t) with (String c (a +:+ t)).
  unfold GetSubstitution; fold (GetSubstitution mr m).
  rewrite Hc. simpl. now rewrite IH.
Qed.

End RegExpFacts.

(** ** [setOutput] *)
Section OutputFacts.
Import BuilderCore.

(** C9. Whatever [useHash], [pathPrefix], [publicPath] and [outDir]
    are, the script filename template of [setOutput] ends with the
    token [?_bid=152]; with no hash and no prefix it is
    [[name].js?_bid=152], from which the offline rule [strip_bid], whose
    pattern is that same token, removes it. *)
Theorem C9_setOutput_filename_ends_with_bid :
  forall (projectRoot : string) (useHash : bool) (pathPrefix publicPath outDir : string),
    Str.endsWith
      (Output.filename (setOutput projectRoot useHash pathPrefix publicPath outDir))
      bid_text = true
    /\ Output.filename (setOutput projectRoot false "" publicPath outDir)
       = "[name].js" +:+ bid_text
    /\ strip_bid (Output.filename (setOutput projectRoot false "" publicPath outDir))
       = "[name].js".
Proof.
  intros root useHash pathPrefix publicPath outDir. split; [|split].
  - unfold setOutput. cbn [Output.filename].
    replace ".js?_bid=152" with (".js" +:+ bid_text) by reflexivity.
    rewrite <- !append_assoc. apply endsWith_app.
  - reflexivity.
  - vm_compute. reflexivity.
Qed.

End OutputFacts.

(** ** [pathMapper] *)
Section PathMapperFacts.
Import BuilderCore.

Lemma indexOf_test (s pat : string) :
  negb (Str.indexOf s pat =? -1)%Z = Str.includes s pat.
Proof. reflexivity. Qed.

(** C3, as the code has it.  A path containing the markup prefix loses
    its first occurrence; otherwise a path containing the static-asset
    prefix loses the first occurrence of that one; and in all three
    cases, the one where neither prefix occurs included, the result is
    joined under the server base ([serverUrl] without its first [//]). *)
Theorem C3_pathMapper_cases :
  forall (assetsPrefix htmlPrefix serverUrl assetPath : string),
    let base := Str.replace serverUrl "//" "" in
    (forall a b, first_occurrence htmlPrefix assetPath a b ->
       pathMapper assetsPrefix htmlPrefix serverUrl assetPath
       = Path.join [base; a +:+ b])
    /\ (~ occurs htmlPrefix assetPath ->
        forall a b, first_occurrence assetsPrefix assetPath a b ->
          pathMapper assetsPrefix htmlPrefix serverUrl assetPath
          = Path.join [base; a +:+ b])
    /\ (~ occurs htmlPrefix assetPath -> ~ occurs assetsPrefix assetPath ->
        pathMapper assetsPrefix htmlPrefix serverUrl assetPath
        = Path.join [base; assetPath]).
Proof.
  intros assetsPrefix htmlPrefix serverUrl assetPath base.
  unfold pathMapper. rewrite !indexOf_test. fold base. repeat split.
  - intros a b H.
    rewrite (proj2 (includes_spec _ _) (first_occurrence_occurs _ _ _ _ H)).
    now rewrite (replace_first _ "" _ _ _ H).
  - intros Hn a b H. rewrite (proj2 (includes_false _ _) Hn).
    rewrite (proj2 (includes_spec _ _) (first_occurrence_occurs _ _ _ _ H)).
    now rewrite (replace_first _ "" _ _ _ H).
  - intros Hn1 Hn2.
    now rewrite (proj2 (includes_false _ _) Hn1), (proj2 (includes_false _ _) Hn2).
Qed.

(** C3 at [cdn/js/app.js]: no markup prefix, the static-asset prefix
    in front. *)
Lemma C3_pathMapper_cases_witness :
  pathMapper "cdn" "html" "//now.qq.com/h5" "cdn/js/app.js"
  = Path.join [Str.replace "//now.qq.com/h5" "//" ""; "" +:+ "/js/app.js"].
Proof.
  apply (C3_pathMapper_cases "cdn" "html" "//now.qq.com/h5" "cdn/js/app.js").
  - apply includes_false. vm_compute. reflexivity.
  - apply first_occurrence_here. reflexivity.
Defined.

(** C3 as the claim words it fails: a path with neither prefix does not
    come back unmodified, it is placed under the server base too. *)
Lemma C3_neither_prefix_counterexample :
  Str.includes "img/a.png" "html" = false
  /\ Str.includes "img/a.png" "cdn" = false
  /\ pathMapper "cdn" "html" "//now.qq.com/h5" "img/a.png" = "now.qq.com/h5/img/a.png"
  /\ pathMapper "cdn" "html" "//now.qq.com/h5" "img/a.png" <> "img/a.png".
Proof. repeat split; try (vm_compute; reflexivity). vm_compute. discriminate. Qed.

End PathMapperFacts.

(** ** Objects *)
Section ObjectFacts.

Lemma assign_lookup {V : Type} (o : gmap string V) (k k' : string) (v : V) :
  Obj.assign o k v !! k'
  = if String.eqb k Obj.proto then o !! k'
    else if String.eqb k k' then Some v else o !! k'.
Proof.
  unfold Obj.assign. destruct (String.eqb k Obj.proto); [reflexivity|].
  destruct (String.eqb k k') eqn:E.
  - apply String.eqb_eq in E as ->. apply lookup_insert_eq.
  - apply String.eqb_neq in E. now apply lookup_insert_ne.
Qed.

(** No assignment gives an object the own property [__proto__]. *)
Lemma assign_proto {V : Type} (o : gmap string V) (k : string) (v : V) :
  o !! Obj.proto = None -> Obj.assign o k v !! Obj.proto = None.
Proof.
  intros H. rewrite assign_lookup. destruct (String.eqb k Obj.proto) eqn:E; [exact H|].
  destruct (String.eqb k Obj.proto); [discriminate E | exact H].
Qed.

End ObjectFacts.

(** ** [setAlias] *)
Section AliasFacts.
Import BuilderCore.

Lemma slash_name_includes (n : string) : Str.includes ("/" +:+ n) "/" = true.
Proof. apply includes_spec. exists "", n. reflexivity. Qed.

Lemma slash_name_proto (n : string) : String.eqb ("/" +:+ n) Obj.proto = false.
Proof. reflexivity. Qed.

Lemma lost_keys_snoc (done : list string) (n : string) :
  n ∉ done ->
  lost_keys (done ++ [n])
  = (lost_keys done + if String.eqb n Obj.proto then 1 else 0)%nat.
Proof.
  intros Hfresh. unfold lost_keys.
  destruct (String.eqb n Obj.proto) eqn:E.
  - apply String.eqb_eq in E. subst n.
    rewrite bool_decide_eq_true_2 by (apply elem_of_app; right; now left).
    now rewrite bool_decide_eq_false_2.
  - apply String.eqb_neq in E.
    destruct (bool_decide ("__proto__" ∈ done)) eqn:D.
    + apply bool_decide_eq_true_1 in D.
      rewrite bool_decide_eq_true_2 by (apply elem_of_app; now left). lia.
    + apply bool_decide_eq_false_1 in D. rewrite bool_decide_eq_false_2; [lia|].
      intros [H|H%list_elem_of_singleton]%elem_of_app; [contradiction|].
      now apply E.
Qed.

Lemma alias_table_step (src n : string) (done : list string) (acc : gmap string string) :
  alias_table src done acc ->
  n ∉ done -> Str.includes n "/" = false ->
  Forall (fun x => Str.includes x "/" = false) done ->
  alias_table src (done ++ [n])
    (addAlias acc {| Util.name := n; Util.dirPath := src +:+ "/" +:+ n |}).
Proof.
  intros [Hsize Hlook] Hfresh Hn Hdone. unfold addAlias. cbn [Util.name Util.dirPath].
  assert (Hne : n <> "/" +:+ n).
  { intros E. rewrite E, slash_name_includes in Hn. discriminate. }
  assert (Hslash : acc !! ("/" +:+ n) = None).
  { destruct (acc !! ("/" +:+ n)) as [v|] eqn:E; [|reflexivity].
    apply Hlook in E as (_ & n' & Hin & [E|E] & _).
    - rewrite Forall_forall in Hdone. apply Hdone in Hin.
      rewrite <- E, slash_name_includes in Hin. discriminate.
    - apply append_inv_head in E. now subst n'. }
  assert (Hbare : acc !! n = None).
  { destruct (acc !! n) as [v|] eqn:E; [|reflexivity].
    apply Hlook in E as (_ & n' & Hin & [E|E] & _).
    - now subst n'.
    - rewrite E, slash_name_includes in Hn. discriminate. }
  assert (Hfirst : Obj.assign acc ("/" +:+ n) (src +:+ "/" +:+ n)
                   = <["/" +:+ n := src +:+ "/" +:+ n]> acc).
  { unfold Obj.assign. now rewrite slash_name_proto. }
  rewrite Hfirst. split.
  - rewrite (lost_keys_snoc done n Hfresh), length_app. unfold Obj.assign.
    destruct (String.eqb n Obj.proto).
    + rewrite map_size_insert_None by exact Hslash. simpl. lia.
    + rewrite map_size_insert_None by (now rewrite lookup_insert_ne).
      rewrite map_size_insert_None by exact Hslash. simpl. lia.
  - intros k v. rewrite assign_lookup.
    destruct (String.eqb n Obj.proto) eqn:Ep.
    + apply String.eqb_eq in Ep. rewrite lookup_insert. case_decide as Hk'.
      * subst k. split.
        -- intros [= <-]. split; [discriminate|].
           exists n. split; [apply elem_of_app; right; now left | auto].
        -- intros (_ & n' & Hin & [E|E] & ->).
           ++ exfalso. apply elem_of_app in Hin as [Hin|Hin%list_elem_of_singleton].
              ** rewrite Forall_forall in Hdone. apply Hdone in Hin.
                 rewrite <- E, slash_name_includes in Hin. discriminate.
              ** subst n'. now apply Hne.
           ++ apply append_inv_head in E. now subst n'.
      * rewrite Hlook. split.
        -- intros (Hk & n' & Hin & Hkey & ->). split; [exact Hk|]. exists n'.
           split; [apply elem_of_app; now left | auto].
        -- intros (Hk & n' & Hin & Hkey & ->). split; [exact Hk|]. exists n'.
           apply elem_of_app in Hin as [Hin|Hin%list_elem_of_singleton]; [auto|].
           subst n'. destruct Hkey as [E|E]; [|congruence].
           exfalso. apply Hk. now rewrite E, Ep.
    + apply String.eqb_neq in Ep. destruct (String.eqb n k) eqn:Hk.
      * apply String.eqb_eq in Hk. subst k. split.
        -- intros [= <-]. split; [exact Ep|].
           exists n. split; [apply elem_of_app; right; now left | auto].
        -- intros (_ & n' & Hin & [E|E] & ->).
           ++ now subst n'.
           ++ exfalso. apply elem_of_app in Hin as [Hin|Hin%list_elem_of_singleton].
              ** rewrite Forall_forall in Hdone. apply Hdone in Hin.
                 rewrite E, slash_name_includes in Hn. discriminate.
              ** subst n'. contradiction.
      * apply String.eqb_neq in Hk. rewrite lookup_insert. case_decide as Hk'.
        -- subst k. split.
           ++ intros [= <-]. split; [discriminate|].
              exists n. split; [apply elem_of_app; right; now left | auto].
           ++ intros (_ & n' & Hin & [E|E] & ->).
              ** exfalso. apply elem_of_app in Hin as [Hin|Hin%list_elem_of_singleton].
                 --- rewrite Forall_forall in Hdone. apply Hdone in Hin.
                     rewrite <- E, slash_name_includes in Hin. discriminate.
                 --- subst n'. now apply Hk.
              ** apply append_inv_head in E. now subst n'.
        -- rewrite Hlook. split.
           ++ intros (Hp & n' & Hin & Hkey & ->). split; [exact Hp|]. exists n'.
              split; [apply elem_of_app; now left | auto].
           ++ intros (Hp & n' & Hin & Hkey & ->). split; [exact Hp|]. exists n'.
              apply elem_of_app in Hin as [Hin|Hin%list_elem_of_singleton]; [auto|].
              subst n'. destruct Hkey; congruence.
Qed.

Lemma alias_table_fold (src : string) :
  forall (rest done : list string) (acc : gmap string string),
    NoDup (done ++ rest) ->
    Forall (fun x => Str.includes x "/" = false) (done ++ rest) ->
    alias_table src done acc ->
    alias_table src (done ++ rest)
      (fold_left addAlias
         (List.map (fun n => {| Util.name := n; Util.dirPath := src +:+ "/" +:+ n |}) rest)
         acc).
Proof.
  induction rest as [|n rest IH]; intros done acc Hnd Hns Hacc.
  - now rewrite app_nil_r.
  - simpl. replace (done ++ n :: rest) with ((done ++ [n]) ++ rest) in *
      by (now rewrite <- app_assoc).
    apply IH; auto.
    apply NoDup_app in Hnd as (Hnd & _ & _). apply NoDup_app in Hnd as (_ & Hd & _).
    apply Forall_app in Hns as [Hns _]. apply Forall_app in Hns as [Hns Hn].
    apply alias_table_step; auto.
    + intros Hin. apply (Hd n Hin). now left.
    + now inversion Hn.
Qed.

Lemma alias_table_empty (src : string) : alias_table src [] ∅.
Proof.
  split; [reflexivity|]. intros k v. rewrite lookup_empty. split; [discriminate|].
  intros (_ & n & Hin & _). now apply elem_of_nil in Hin.
Qed.

Lemma join_absolute (root rel : string) :
  Str.startsWith root "/" = true -> Str.startsWith (Path.join [root; rel]) "/" = true.
Proof.
  intros H. destruct root as [|c root]; [discriminate|].
  unfold Path.join. cbn [List.filter Str.truthy].
  assert (E : exists t, String.concat "/"
                          (String c root :: (if Str.truthy rel then [rel] else []))
                        = String c t).
  { destruct (Str.truthy rel); simpl; eauto. }
  destruct E as [t ->]. unfold Path.normalize.
  assert (Ec : Str.startsWith (String c t) "/" = true) by exact H.
  rewrite Ec.
  destruct (Path.normalizeString (String c t) (negb true)); reflexivity.
Qed.

(** C6, as the code has it.  With no overrides, [N] first-level
    subdirectories of the source directory (distinct names without a
    slash, as a directory lists them), none of them called
    [__proto__], give exactly [2 * N] alias keys: for every
    subdirectory its name and its name after a slash, both bound to the
    same path, which lies under the source directory and is absolute
    when the project root is. *)
Theorem C6_setAlias_two_keys_per_directory :
  forall (projectRoot : string) (subdirs : string -> list string),
    let src := Path.join [projectRoot; "./src"] in
    NoDup (subdirs src) ->
    Forall (fun n => Str.includes n "/" = false) (subdirs src) ->
    "__proto__" ∉ subdirs src ->
    let aliases := setAlias projectRoot subdirs None in
    size aliases = (2 * List.length (subdirs src))%nat
    /\ (forall n, n ∈ subdirs src ->
          aliases !! n = Some (src +:+ "/" +:+ n)
          /\ aliases !! ("/" +:+ n) = Some (src +:+ "/" +:+ n)
          /\ Str.startsWith (src +:+ "/" +:+ n) (src +:+ "/") = true)
    /\ (forall k, is_Some (aliases !! k) ->
          exists n, n ∈ subdirs src /\ (k = n \/ k = "/" +:+ n))
    /\ (Str.startsWith projectRoot "/" = true -> Str.startsWith src "/" = true).
Proof.
  intros root subdirs src Hnd Hns Hproto aliases.
  assert (Htab : alias_table src (subdirs src) aliases).
  { unfold aliases, setAlias. cbn [Util.isEmpty]. fold src. unfold Util.listDir.
    apply (alias_table_fold src (subdirs src) [] ∅); auto. apply alias_table_empty. }
  destruct Htab as [Hsize Hlook]. unfold lost_keys in Hsize.
  rewrite bool_decide_eq_false_2 in Hsize by exact Hproto.
  split; [lia|]. split; [|split].
  - intros n Hin.
    assert (Hn : n <> "__proto__") by (intros ->; contradiction).
    repeat split.
    + apply Hlook. split; [exact Hn|]. exists n. auto.
    + apply Hlook. split; [discriminate|]. exists n. auto.
    + rewrite <- append_assoc. apply startsWith_app.
  - intros k [v Hv]. apply Hlook in Hv as (_ & n & Hin & Hk & _). eauto.
  - apply join_absolute.
Qed.

(** C6 on a source tree with the directories [modules] and [pages]. *)
Lemma C6_setAlias_two_keys_per_directory_witness :
  let aliases := setAlias "/proj" (fun _ => ["modules"; "pages"]) None in
  size aliases = 4%nat
  /\ aliases !! "modules" = Some "/proj/src/modules"
  /\ aliases !! "/modules" = Some "/proj/src/modules".
Proof.
  assert (Hnd : NoDup ["modules"; "pages"]).
  { repeat constructor; rewrite ?elem_of_cons, ?elem_of_nil; intuition discriminate. }
  assert (Hns : Forall (fun n => Str.includes n "/" = false) ["modules"; "pages"]).
  { repeat constructor. }
  assert (Hproto : "__proto__" ∉ ["modules"; "pages"]).
  { rewrite !elem_of_cons, elem_of_nil. intuition discriminate. }
  destruct (C6_setAlias_two_keys_per_directory "/proj" (fun _ => ["modules"; "pages"])
              Hnd Hns Hproto) as (Hsize & Hkeys & _).
  split; [exact Hsize|].
  destruct (Hkeys "modules" ltac:(now left)) as (H1 & H2 & _).
  split; [exact H1 | exact H2].
Defined.

(** C6 as the claim words it fails: of the two subdirectories
    [__proto__] and [pages] the first gets its key after a slash only,
    the assignment of its bare name adding no property to the object,
    and the table has three keys, not four. *)
Lemma C6_proto_directory_counterexample :
  let names := ["__proto__"; "pages"] in
  let aliases := setAlias "/proj" (fun _ => names) None in
  List.length names = 2%nat
  /\ size aliases = 3%nat
  /\ aliases !! "__proto__" = None
  /\ aliases !! "/__proto__" = Some "/proj/src/__proto__"
  /\ aliases !! "pages" = Some "/proj/src/pages"
  /\ aliases !! "/pages" = Some "/proj/src/pages"
  /\ size aliases <> (2 * List.length names)%nat.
Proof. vm_compute. repeat split; discriminate. Qed.

(** C5.  A non-empty override map wins on every key it binds, the keys
    it shares with the discovered map included, and the other keys keep
    their discovered value; an empty or absent override map gives back
    the discovered map. *)
Theorem C5_setAlias_overrides_win :
  forall (projectRoot : string) (subdirs : string -> list string)
         (alias : option (gmap string string)),
    let discovered := setAlias projectRoot subdirs None in
    (Util.isEmpty alias = true -> setAlias projectRoot subdirs alias = discovered)
    /\ (forall overrides, alias = Some overrides -> overrides <> ∅ ->
          (forall k v, overrides !! k = Some v ->
                       setAlias projectRoot subdirs alias !! k = Some v)
          /\ (forall k, overrides !! k = None ->
                        setAlias projectRoot subdirs alias !! k = discovered !! k)).
Proof.
  intros root subdirs alias discovered. split.
  - intros H. unfold discovered, setAlias. rewrite H. reflexivity.
  - intros overrides -> Hne.
    assert (E : setAlias root subdirs (Some overrides) = Util.merge overrides discovered).
    { unfold discovered, setAlias. cbn [Util.isEmpty].
      now rewrite bool_decide_eq_false_2. }
    rewrite E. unfold Util.merge. split.
    + intros k v Hk. now apply lookup_union_Some_l.
    + intros k Hk. now apply lookup_union_r.
Qed.

(** C5 with the override [modules := /x] over the discovered
    [modules] and [pages]. *)
Lemma C5_setAlias_overrides_win_witness :
  setAlias "/proj" (fun _ => ["modules"; "pages"]) (Some {[ "modules" := "/x" ]})
    !! "modules" = Some "/x"
  /\ setAlias "/proj" (fun _ => ["modules"; "pages"]) (Some {[ "modules" := "/x" ]})
       !! "pages" = Some "/proj/src/pages"
  /\ setAlias "/proj" (fun _ => ["modules"; "pages"]) (Some ∅)
     = setAlias "/proj" (fun _ => ["modules"; "pages"]) None.
Proof.
  destruct (C5_setAlias_overrides_win "/proj" (fun _ => ["modules"; "pages"])
              (Some {[ "modules" := "/x" ]})) as [_ H].
  destruct (H {[ "modules" := "/x" ]} eq_refl) as [Hwin Hkeep].
  { intros E. apply (f_equal (fun m : gmap string string => m !! "modules")) in E.
    rewrite lookup_singleton_eq, lookup_empty in E. discriminate. }
  split; [apply Hwin, lookup_singleton_eq|].
  split.
  - rewrite Hkeep by (now apply lookup_singleton_ne). vm_compute. reflexivity.
  - apply (C5_setAlias_overrides_win "/proj" (fun _ => ["modules"; "pages"]) (Some ∅)).
    reflexivity.
Defined.

End AliasFacts.

(** ** [setMultiplePage] *)
Section PageFacts.
Import BuilderCore RegExp.

Lemma rep_total {R : Type} (greedy : bool) (a : atom) (s : string)
    (k : string -> option R) :
  (forall s', is_Some (k s')) -> is_Some (rep greedy a 0 s k).
Proof.
  intros Hk. induction s as [|c s IH].
  - destruct greedy; simpl; destruct (Hk "") as [x ->]; eauto.
  - destruct greedy; simpl.
    + destruct (accepts a c); [destruct IH as [x ->]; eauto|].
      destruct (Hk (String c s)) as [x ->]; eauto.
    + destruct (Hk (String c s)) as [x ->]; eauto.
Qed.

Lemma pages_regex_here (s : string) :
  is_Some (match_here pages_regex s) <-> Str.startsWith s "/pages/" = true.
Proof.
  unfold match_here, pages_regex.
  change (run (Cat (lits "/pages/") (Grp 1 (Rep true 0 Dot))) s ∅
            (fun s' caps => Some (s', caps)))
    with (run (lits "/pages/") s ∅
            (fun s' caps' => run (Grp 1 (Rep true 0 Dot)) s' caps'
                               (fun s'' caps => Some (s'', caps)))).
  rewrite run_lits. destruct (Str.startsWith s "/pages/").
  - split; [reflexivity | intros _]. simpl. apply rep_total. eauto.
  - split; [intros [x Hx]; discriminate | discriminate].
Qed.

Lemma search_none_inv (r : regex) (s : string) :
  forall pre, search r pre s = None ->
              forall a b, s = a +:+ b -> match_here r b = None.
Proof.
  induction s as [|c s IH]; intros pre H a b Hs.
  - destruct a; [|discriminate]. simpl in Hs. subst b.
    unfold search in H. now destruct (match_here r "") as [[? ?]|].
  - unfold search in H; fold search in H.
    destruct (match_here r (String c s)) as [[? ?]|] eqn:E; [discriminate|].
    destruct a as [|x a]; simpl in Hs; [now subst b|].
    injection Hs as _ ->. now apply (IH _ H a b).
Qed.

(** The page convention is the presence of [/pages/] in the path. *)
Lemma pageName_of_convention (entry : string) :
  is_Some (pageName_of entry) <-> Str.includes entry "/pages/" = true.
Proof.
  unfold pageName_of. split.
  - destruct (search pages_regex "" entry) as [mr|] eqn:E; [intros _ | intros [x Hx]; discriminate].
    apply search_sound in E as (gap & Hs & _ & _ & Hm).
    assert (Hi : is_Some (match_here pages_regex (matched mr +:+ after mr))) by eauto.
    apply pages_regex_here, startsWith_spec in Hi as [t Ht].
    apply includes_spec. exists gap, t. now rewrite Hs, Ht.
  - intros (a & b & Hs)%includes_spec.
    destruct (search pages_regex "" entry) as [mr|] eqn:E; [eauto|].
    pose proof (search_none_inv _ _ _ E a _ Hs) as Hn.
    assert (Hi : is_Some (match_here pages_regex ("/pages/" +:+ b)))
      by (apply pages_regex_here, startsWith_app).
    rewrite Hn in Hi. now destruct Hi.
Qed.

Lemma pageName_of_null (entry : string) :
  Str.includes entry "/pages/" = false -> pageName_of entry = None.
Proof.
  intros H. destruct (pageName_of entry) as [n|] eqn:E; [|reflexivity].
  assert (Hi : is_Some (pageName_of entry)) by eauto.
  apply pageName_of_convention in Hi. congruence.
Qed.

Lemma rep_greedy_all {R : Type} (a : atom) (w : string) (k : string -> option R) (res : R) :
  all_accept a w = true -> k "" = Some res ->
  forall min, (min <= String.length w)%nat -> rep true a min w k = Some res.
Proof.
  intros Hw Hk. induction w as [|c w IH]; intros min Hmin.
  - simpl in Hmin. assert (min = 0%nat) as -> by lia. simpl. exact Hk.
  - simpl in Hw. apply andb_prop in Hw as [Hc Hw]. simpl. rewrite Hc.
    rewrite (IH Hw) by (simpl in Hmin; lia). reflexivity.
Qed.

(** A search for a pattern that can only match where [p] starts finds
    its match at the first occurrence of [p], when there is one there. *)
Lemma search_anchored (r : regex) (p : string) :
  (forall s, is_Some (match_here r s) -> Str.startsWith s p = true) ->
  forall s a b pre rest caps,
    first_occurrence p s a b ->
    match_here r (p +:+ b) = Some (rest, caps) ->
    search r pre s =
    Some {| before := pre +:+ a; matched := consumed (p +:+ b) rest;
            captures := caps; after := rest |}.
Proof.
  intros Hr s. induction s as [|c s IH]; intros a b pre rest caps H Hm.
  - destruct H as [H _]. destruct a; [|discriminate]. simpl in H.
    rewrite <- H in Hm |- *. unfold search. rewrite Hm. now rewrite append_nil_r.
  - pose proof H as H0.
    apply first_occurrence_head in H as [[-> E]|(a' & -> & E & H)];
      unfold search; fold search.
    + apply first_occurrence_here in H0. rewrite <- H0 in Hm |- *.
      rewrite Hm. now rewrite append_nil_r.
    + destruct (match_here r (String c s)) as [[rest' caps']|] eqn:E'.
      * assert (Hi : is_Some (match_here r (String c s))) by (rewrite E'; eauto).
        apply Hr in Hi. congruence.
      * rewrite (IH a' b _ rest caps H Hm), append_assoc. reflexivity.
Qed.

(** The page name is what follows the first [/pages/], when no line
    terminator is in it. *)
Lemma pageName_of_name (dir name : string) :
  first_occurrence "/pages/" (dir +:+ "/pages/" +:+ name) dir name ->
  all_accept Dot name = true ->
  pageName_of (dir +:+ "/pages/" +:+ name) = Some name.
Proof.
  intros Hfirst Hname. unfold pageName_of.
  assert (Hm : match_here pages_regex ("/pages/" +:+ name) = Some ("", {[1%nat := name]})).
  { unfold match_here, pages_regex.
    change (run (Cat (lits "/pages/") (Grp 1 (Rep true 0 Dot))) ("/pages/" +:+ name) ∅
              (fun s' caps => Some (s', caps)))
      with (run (lits "/pages/") ("/pages/" +:+ name) ∅
              (fun s' caps' => run (Grp 1 (Rep true 0 Dot)) s' caps'
                                 (fun s'' caps => Some (s'', caps)))).
    rewrite run_lits, startsWith_app, drop_append.
    cbn [run]. rewrite (rep_greedy_all Dot name _ ("", {[1%nat := name]}) Hname).
    - reflexivity.
    - unfold consumed. simpl. rewrite Nat.sub_0_r.
      rewrite <- (append_nil_r name) at 2. rewrite take_append.
      now rewrite insert_empty.
    - lia. }
  rewrite (search_anchored pages_regex "/pages/"
             (fun s Hs => proj1 (pages_regex_here s) Hs) _ _ _ "" _ _ Hfirst Hm).
  unfold capture. cbn [captures]. now rewrite lookup_singleton_eq.
Qed.

Section Planner.
Variable projectRoot : string.
Variable existsSync : string -> bool.
Variables minifyHtml inject inlineCSS : bool.
Variables assetsPrefix htmlPrefix : string.

Let addPage' := addPage projectRoot existsSync minifyHtml inject inlineCSS
                  assetsPrefix htmlPrefix.
Let plan := setMultiplePage projectRoot existsSync minifyHtml inject inlineCSS
              assetsPrefix htmlPrefix.

Lemma addPage_plugins (acc : pages) (entry : string) :
  exists p, htmlWebpackPlugins (addPage' acc entry) = htmlWebpackPlugins acc ++ [p]
            /\ instantiates projectRoot existsSync inject assetsPrefix htmlPrefix entry p.
Proof. eexists. split; [reflexivity|]. repeat split. Qed.

Lemma fold_plugins (entries : list string) :
  forall acc, exists ps,
    htmlWebpackPlugins (fold_left addPage' entries acc) = htmlWebpackPlugins acc ++ ps
    /\ Forall2 (instantiates projectRoot existsSync inject assetsPrefix htmlPrefix)
               entries ps.
Proof.
  induction entries as [|e entries IH]; intros acc.
  - exists []. split; [now rewrite app_nil_r | constructor].
  - simpl. destruct (IH (addPage' acc e)) as (ps & Hps & Hall).
    destruct (addPage_plugins acc e) as (p & Hp & Hinst).
    exists (p :: ps). split; [|now constructor].
    rewrite Hps, Hp, <- app_assoc. reflexivity.
Qed.

Lemma fold_newEntry_origin (entries : list string) :
  forall acc k v,
    newEntry (fold_left addPage' entries acc) !! k = Some v ->
    newEntry acc !! k = Some v
    \/ exists e, e ∈ entries /\ Str.of_nullable (pageName_of e) = k
                 /\ v = e +:+ "/init.js" /\ existsSync (e +:+ "/init.js") = true.
Proof.
  induction entries as [|e entries IH]; intros acc k v H; [now left|].
  simpl in H. apply IH in H as [H|(e' & Hin & Hk)].
  - unfold addPage', addPage in H. cbn [newEntry] in H.
    destruct (existsSync (e +:+ "/init.js")) eqn:Ex; [|now left].
    rewrite assign_lookup in H.
    destruct (String.eqb (Str.of_nullable (pageName_of e)) Obj.proto); [now left|].
    destruct (String.eqb (Str.of_nullable (pageName_of e)) k) eqn:Hk; [|now left].
    apply String.eqb_eq in Hk. injection H as <-.
    right. exists e. split; [now left | auto].
  - right. exists e'. split; [now right | exact Hk].
Qed.

Lemma fold_newEntry_keeps (entries : list string) :
  forall acc k, is_Some (newEntry acc !! k) ->
                is_Some (newEntry (fold_left addPage' entries acc) !! k).
Proof.
  induction entries as [|e entries IH]; intros acc k H; [exact H|].
  simpl. apply IH. unfold addPage', addPage. cbn [newEntry].
  destruct (existsSync (e +:+ "/init.js")); [|exact H].
  rewrite assign_lookup.
  destruct (String.eqb (Str.of_nullable (pageName_of e)) Obj.proto); [exact H|].
  destruct (String.eqb (Str.of_nullable (pageName_of e)) k); eauto.
Qed.

Lemma fold_newEntry_present (entries : list string) :
  forall acc e,
    e ∈ entries -> existsSync (e +:+ "/init.js") = true ->
    Str.of_nullable (pageName_of e) <> "__proto__" ->
    is_Some (newEntry (fold_left addPage' entries acc) !! Str.of_nullable (pageName_of e)).
Proof.
  induction entries as [|e0 entries IH]; intros acc e Hin Hex Hp.
  - now apply elem_of_nil in Hin.
  - simpl. apply elem_of_cons in Hin as [->|Hin]; [|now apply IH].
    apply fold_newEntry_keeps. unfold addPage', addPage. cbn [newEntry].
    rewrite Hex, assign_lookup.
    apply String.eqb_neq in Hp. unfold Obj.proto. rewrite Hp, String.eqb_refl. eauto.
Qed.

(** The entry map never has the own property [__proto__]. *)
Lemma fold_newEntry_proto (entries : list string) :
  forall acc, newEntry acc !! "__proto__" = None ->
              newEntry (fold_left addPage' entries acc) !! "__proto__" = None.
Proof.
  induction entries as [|e entries IH]; intros acc H; [exact H|].
  simpl. apply IH. unfold addPage', addPage. cbn [newEntry].
  destruct (existsSync (e +:+ "/init.js")); [|exact H].
  now apply assign_proto.
Qed.

(** What the planner computes for any list of directories. *)
Lemma plan_spec (entries : list string) :
  Forall2 (instantiates projectRoot existsSync inject assetsPrefix htmlPrefix)
    entries (htmlWebpackPlugins (plan entries))
  /\ (forall k v, newEntry (plan entries) !! k = Some v ->
        exists e, e ∈ entries /\ Str.of_nullable (pageName_of e) = k
                  /\ v = e +:+ "/init.js" /\ existsSync (e +:+ "/init.js") = true)
  /\ (forall e, e ∈ entries -> existsSync (e +:+ "/init.js") = true ->
        Str.of_nullable (pageName_of e) <> "__proto__" ->
        is_Some (newEntry (plan entries) !! Str.of_nullable (pageName_of e)))
  /\ newEntry (plan entries) !! "__proto__" = None.
Proof.
  unfold plan, setMultiplePage. fold addPage'. repeat split.
  - destruct (fold_plugins entries {| newEntry := ∅; htmlWebpackPlugins := [] |})
      as (ps & -> & Hall). exact Hall.
  - intros k v H. apply fold_newEntry_origin in H as [H|H]; [|exact H].
    cbn [newEntry] in H. now rewrite lookup_empty in H.
  - intros e. apply fold_newEntry_present.
  - apply fold_newEntry_proto. apply lookup_empty.
Qed.

End Planner.

Lemma Forall2_impl_elem {A B : Type} (P Q : A -> B -> Prop) (l : list A) (k : list B) :
  Forall2 P l k -> (forall x y, x ∈ l -> P x y -> Q x y) -> Forall2 Q l k.
Proof.
  induction 1 as [|x y l k Hxy Hlk IH]; intros H; constructor.
  - apply H; [now left | exact Hxy].
  - apply IH. intros x' y' Hin. apply H. now right.
Qed.

Lemma pages_general (projectRoot : string) (existsSync : string -> bool)
    (minifyHtml inject inlineCSS : bool) (assetsPrefix htmlPrefix : string)
    (entries : list string) :
  Forall (fun e => Str.includes e "/pages/" = true) entries ->
  let plan := setMultiplePage projectRoot existsSync minifyHtml inject inlineCSS
                assetsPrefix htmlPrefix entries in
  List.length (htmlWebpackPlugins plan) = List.length entries
  /\ Forall2
       (fun e p =>
          exists name, pageName_of e = Some name
                       /\ HtmlWebpackPlugin.chunks p = [Some name]
                       /\ HtmlWebpackPlugin.inject p
                          = inject && existsSync (e +:+ "/init.js")
                       /\ HtmlWebpackPlugin.filename p
                          = (if Str.truthy htmlPrefix then htmlPrefix +:+ "/" else "")
                            +:+ name +:+ ".html")
       entries (htmlWebpackPlugins plan)
  /\ (forall name,
        name <> "__proto__" ->
        (is_Some (newEntry plan !! name) <->
         exists e, e ∈ entries /\ pageName_of e = Some name
                   /\ existsSync (e +:+ "/init.js") = true))
  /\ (forall name file,
        newEntry plan !! name = Some file ->
        exists e, e ∈ entries /\ pageName_of e = Some name
                  /\ file = e +:+ "/init.js").
Proof.
  intros Hconv plan.
  destruct (plan_spec projectRoot existsSync minifyHtml inject inlineCSS assetsPrefix
              htmlPrefix entries) as (Hall & Horigin & Hpresent & _).
  fold plan in Hall, Horigin, Hpresent.
  assert (Hname : forall e, e ∈ entries -> exists name, pageName_of e = Some name).
  { intros e Hin. rewrite Forall_forall in Hconv.
    apply Hconv, pageName_of_convention in Hin as [name Hn]. eauto. }
  split; [symmetry; exact (Forall2_length _ _ _ Hall)|]. split; [|split].
  - apply (Forall2_impl_elem _ _ _ _ Hall).
    intros e p Hin (Hc & Hi & Hf & _).
    destruct (Hname e Hin) as [name Hn]. exists name.
    rewrite Hn in Hc, Hf. auto.
  - intros name Hp. split.
    + intros [file Hfile].
      apply Horigin in Hfile as (e & Hin & Hk & _ & Hex).
      exists e. destruct (Hname e Hin) as [n Hn]. rewrite Hn in Hk. simpl in Hk.
      subst n. auto.
    + intros (e & Hin & Hn & Hex). specialize (Hpresent e Hin Hex).
      rewrite Hn in Hpresent. now apply Hpresent.
  - intros name file Hfile. apply Horigin in Hfile as (e & Hin & Hk & Hv & _).
    exists e. destruct (Hname e Hin) as [n Hn]. rewrite Hn in Hk. simpl in Hk.
    subst n. auto.
Qed.

(** The scenario: [pages/a] without entry script, [pages/b] with one. *)
Lemma pages_scenario (existsSync : string -> bool)
    (minifyHtml inject inlineCSS : bool) (assetsPrefix htmlPrefix : string) :
  existsSync "/proj/src/pages/a/init.js" = false ->
  existsSync "/proj/src/pages/b/init.js" = true ->
  let plan := setMultiplePage "/proj" existsSync minifyHtml inject inlineCSS
                assetsPrefix htmlPrefix ["/proj/src/pages/a"; "/proj/src/pages/b"] in
  newEntry plan = {[ "b" := "/proj/src/pages/b/init.js" ]}
  /\ List.map HtmlWebpackPlugin.chunks (htmlWebpackPlugins plan) = [[Some "a"]; [Some "b"]]
  /\ List.map HtmlWebpackPlugin.inject (htmlWebpackPlugins plan) = [false; inject].
Proof.
  intros Ha Hb plan. unfold plan, setMultiplePage. cbn [fold_left]. unfold addPage.
  cbn [newEntry htmlWebpackPlugins].
  change ("/proj/src/pages/a" +:+ "/init.js") with "/proj/src/pages/a/init.js".
  change ("/proj/src/pages/b" +:+ "/init.js") with "/proj/src/pages/b/init.js".
  rewrite Ha, Hb.
  replace (pageName_of "/proj/src/pages/a") with (Some "a") by (vm_compute; reflexivity).
  replace (pageName_of "/proj/src/pages/b") with (Some "b") by (vm_compute; reflexivity).
  cbn [Str.of_nullable List.app List.map HtmlWebpackPlugin.chunks HtmlWebpackPlugin.inject].
  rewrite andb_false_r, andb_true_r.
  change (Obj.assign ∅ "b" "/proj/src/pages/b/init.js")
    with (<["b" := "/proj/src/pages/b/init.js"]> (∅ : gmap string string)).
  rewrite insert_empty. auto.
Qed.

(** C1, as the code has it.  When every page directory follows the
    page convention (its path holds [/pages/], and the page name is
    what follows the first [/pages/]), the planner yields one template
    instantiation per directory, in the order of the input, whose chunk
    is the directory's page name and whose [inject] flag is the
    conjunction of the [inject] option and the presence of
    [<directory>/init.js]; and a name other than [__proto__] is a key of
    the entry map exactly when some directory of that page name has its
    [init.js] on disk, every key being bound to such a script.  In
    particular, for [pages/a] without entry script and [pages/b] with
    one, the entry map holds [b] only, there are two instantiations,
    the first with [inject] off and the second with [inject] as the
    option says. *)
Theorem C1_setMultiplePage_one_instantiation_per_page :
  (forall (projectRoot : string) (existsSync : string -> bool)
          (minifyHtml inject inlineCSS : bool) (assetsPrefix htmlPrefix : string)
          (entries : list string),
      Forall (fun e => Str.includes e "/pages/" = true) entries ->
      let plan := setMultiplePage projectRoot existsSync minifyHtml inject inlineCSS
                    assetsPrefix htmlPrefix entries in
      List.length (htmlWebpackPlugins plan) = List.length entries
      /\ Forall2
           (fun e p =>
              exists name, pageName_of e = Some name
                           /\ HtmlWebpackPlugin.chunks p = [Some name]
                           /\ HtmlWebpackPlugin.inject p
                              = inject && existsSync (e +:+ "/init.js")
                           /\ HtmlWebpackPlugin.filename p
                              = (if Str.truthy htmlPrefix then htmlPrefix +:+ "/" else "")
                                +:+ name +:+ ".html")
           entries (htmlWebpackPlugins plan)
      /\ (forall name,
            name <> "__proto__" ->
            (is_Some (newEntry plan !! name) <->
             exists e, e ∈ entries /\ pageName_of e = Some name
                       /\ existsSync (e +:+ "/init.js") = true))
      /\ (forall name file,
            newEntry plan !! name = Some file ->
            exists e, e ∈ entries /\ pageName_of e = Some name
                      /\ file = e +:+ "/init.js"))
  /\ (forall dir name,
        first_occurrence "/pages/" (dir +:+ "/pages/" +:+ name) dir name ->
        all_accept RegExp.Dot name = true ->
        pageName_of (dir +:+ "/pages/" +:+ name) = Some name)
  /\ (forall (existsSync : string -> bool) (minifyHtml inject inlineCSS : bool)
             (assetsPrefix htmlPrefix : string),
        existsSync "/proj/src/pages/a/init.js" = false ->
        existsSync "/proj/src/pages/b/init.js" = true ->
        let plan := setMultiplePage "/proj" existsSync minifyHtml inject inlineCSS
                      assetsPrefix htmlPrefix
                      ["/proj/src/pages/a"; "/proj/src/pages/b"] in
        newEntry plan = {[ "b" := "/proj/src/pages/b/init.js" ]}
        /\ List.map HtmlWebpackPlugin.chunks (htmlWebpackPlugins plan)
           = [[Some "a"]; [Some "b"]]
        /\ List.map HtmlWebpackPlugin.inject (htmlWebpackPlugins plan)
           = [false; inject]).
Proof.
  split; [exact pages_general|]. split; [exact pageName_of_name | exact pages_scenario].
Qed.

(** C1 on the scenario, with a disk that holds [init.js] for page [b]
    only. *)
Lemma C1_setMultiplePage_one_instantiation_per_page_witness :
  let disk := fun f => String.eqb f "/proj/src/pages/b/init.js" in
  let plan := setMultiplePage "/proj" disk false true false "assets" ""
                ["/proj/src/pages/a"; "/proj/src/pages/b"] in
  List.length (htmlWebpackPlugins plan) = 2%nat
  /\ is_Some (newEntry plan !! "b")
  /\ ~ is_Some (newEntry plan !! "a")
  /\ List.map HtmlWebpackPlugin.inject (htmlWebpackPlugins plan) = [false; true].
Proof.
  intros disk plan.
  assert (Hconv : Forall (fun e => Str.includes e "/pages/" = true)
                    ["/proj/src/pages/a"; "/proj/src/pages/b"])
    by (repeat constructor).
  destruct C1_setMultiplePage_one_instantiation_per_page as (Hgen & _ & Hscen).
  destruct (Hgen "/proj" disk false true false "assets" "" _ Hconv)
    as (Hlen & _ & Hkeys & _).
  destruct (Hscen disk false true false "assets" "" eq_refl eq_refl) as (_ & _ & Hinj).
  fold plan in Hlen, Hkeys, Hinj. split; [exact Hlen|]. split; [|split; [|exact Hinj]].
  - apply Hkeys; [discriminate|]. exists "/proj/src/pages/b".
    split; [right; now left | split; reflexivity].
  - intros (e & Hin & Hn & Hex)%Hkeys; [|discriminate].
    apply elem_of_cons in Hin as [->|Hin]; [discriminate Hex|].
    apply elem_of_cons in Hin as [->|Hin]; [discriminate Hn|].
    now apply elem_of_nil in Hin.
Defined.

(** C1 as the claim words it fails: the directory [pages/__proto__]
    follows the page convention and has its entry script, its template
    instantiation has [inject] on and the chunk [__proto__], but the
    assignment of that name adds no property to the object, and the
    page is not in the entry map. *)
Lemma C1_proto_page_counterexample :
  let entries := ["/proj/src/pages/__proto__"] in
  let disk := fun _ : string => true in
  let plan := setMultiplePage "/proj" disk false true false "assets" "" entries in
  forallb (fun e => Str.includes e "/pages/") entries = true
  /\ pageName_of "/proj/src/pages/__proto__" = Some "__proto__"
  /\ disk "/proj/src/pages/__proto__/init.js" = true
  /\ newEntry plan = ∅
  /\ newEntry plan !! "__proto__" = None
  /\ List.map HtmlWebpackPlugin.chunks (htmlWebpackPlugins plan) = [[Some "__proto__"]]
  /\ List.map HtmlWebpackPlugin.inject (htmlWebpackPlugins plan) = [true]
  /\ ~ (is_Some (newEntry plan !! "__proto__") <->
        exists e, e ∈ entries /\ pageName_of e = Some "__proto__"
                  /\ disk (e +:+ "/init.js") = true).
Proof.
  intros entries disk plan.
  assert (Hn : pageName_of "/proj/src/pages/__proto__" = Some "__proto__")
    by (vm_compute; reflexivity).
  assert (He : newEntry plan = ∅) by (vm_compute; reflexivity).
  repeat split; try exact Hn; try exact He; try (vm_compute; reflexivity).
  intros [_ H].
  destruct H as [v Hv].
  - exists "/proj/src/pages/__proto__". split; [now left | split; [exact Hn | reflexivity]].
  - rewrite He, lookup_empty in Hv. discriminate Hv.
Qed.

(** C2, as the code has it.  A directory outside the page convention
    is not skipped: every directory of the input, matching or not,
    yields one template instantiation, in input order; for a directory
    whose path lacks [/pages/] the page name is [null], so that the
    chunk is [null], the output file is [null.html], the template is
    [src/pages/null/index.html] under the project root and, when its
    [init.js] exists, the entry map receives the key [null].  No error
    is raised. *)
Theorem C2_setMultiplePage_unmatched_directory_kept :
  forall (projectRoot : string) (existsSync : string -> bool)
         (minifyHtml inject inlineCSS : bool) (assetsPrefix htmlPrefix : string)
         (entries : list string),
    let plan := setMultiplePage projectRoot existsSync minifyHtml inject inlineCSS
                  assetsPrefix htmlPrefix entries in
    List.length (htmlWebpackPlugins plan) = List.length entries
    /\ (forall i e,
          entries !! i = Some e -> Str.includes e "/pages/" = false ->
          pageName_of e = None
          /\ (exists p, htmlWebpackPlugins plan !! i = Some p
                        /\ HtmlWebpackPlugin.chunks p = [None]
                        /\ HtmlWebpackPlugin.filename p
                           = (if Str.truthy htmlPrefix then htmlPrefix +:+ "/" else "")
                             +:+ "null.html"
                        /\ HtmlWebpackPlugin.template p
                           = Path.join [projectRoot; "src/pages/null/index.html"]
                        /\ HtmlWebpackPlugin.inject p
                           = inject && existsSync (e +:+ "/init.js"))
          /\ (existsSync (e +:+ "/init.js") = true -> is_Some (newEntry plan !! "null"))).
Proof.
  intros root existsSync minifyHtml inject inlineCSS assetsPrefix htmlPrefix entries plan.
  destruct (plan_spec root existsSync minifyHtml inject inlineCSS assetsPrefix htmlPrefix
              entries) as (Hall & _ & Hpresent & _).
  fold plan in Hall, Hpresent.
  split; [symmetry; exact (Forall2_length _ _ _ Hall)|].
  intros i e Hi Hno. pose proof (pageName_of_null e Hno) as Hnull.
  split; [exact Hnull|]. split.
  - destruct (Forall2_lookup_l _ _ _ _ _ Hall Hi) as (p & Hp & Hc & Hinj & Hf & Ht & _).
    exists p. rewrite Hnull in Hc, Hf, Ht. auto.
  - intros Hex. assert (Hin : e ∈ entries) by (apply list_elem_of_lookup; eauto).
    specialize (Hpresent e Hin Hex). rewrite Hnull in Hpresent.
    apply Hpresent. discriminate.
Qed.

(** C2 on a single directory outside the convention, with an
    [init.js]. *)
Lemma C2_setMultiplePage_unmatched_directory_kept_witness :
  let plan := setMultiplePage "/proj" (fun _ => true) false true false "assets" ""
                ["/proj/src/other"] in
  pageName_of "/proj/src/other" = None
  /\ is_Some (newEntry plan !! "null")
  /\ List.map HtmlWebpackPlugin.template (htmlWebpackPlugins plan)
     = ["/proj/src/pages/null/index.html"].
Proof.
  intros plan.
  destruct (C2_setMultiplePage_unmatched_directory_kept
              "/proj" (fun _ => true) false true false "assets" "" ["/proj/src/other"])
    as (_ & H).
  destruct (H 0%nat "/proj/src/other" eq_refl eq_refl) as (Hnull & Hp & Hkey).
  split; [exact Hnull|]. split; [exact (Hkey eq_refl)|].
  destruct Hp as (p & Hp & _ & _ & Ht & _). fold plan in Hp.
  destruct (htmlWebpackPlugins plan) as [|p0 [|p1 ps]] eqn:E;
    [discriminate Hp | | vm_compute in E; discriminate E].
  injection Hp as ->. cbn [List.map]. rewrite Ht. reflexivity.
Defined.

(** C2 as the claim words it fails: a directory outside the convention
    contributes a template instantiation, with the template
    [src/pages/null/index.html], and an entry all the same. *)
Lemma C2_unmatched_directory_counterexample :
  let entries := ["/proj/src/other"] in
  let plan := setMultiplePage "/proj" (fun _ => true) false true false "assets" ""
                entries in
  List.filter (fun e => Str.includes e "/pages/") entries = []
  /\ List.length (htmlWebpackPlugins plan) = 1%nat
  /\ newEntry plan = {[ "null" := "/proj/src/other/init.js" ]}
  /\ List.map HtmlWebpackPlugin.filename (htmlWebpackPlugins plan) = ["null.html"]
  /\ List.map HtmlWebpackPlugin.template (htmlWebpackPlugins plan)
     = ["/proj/src/pages/null/index.html"]
  /\ List.map HtmlWebpackPlugin.chunks (htmlWebpackPlugins plan) = [[None]]
  /\ List.length (htmlWebpackPlugins plan)
     <> List.length (List.filter (fun e => Str.includes e "/pages/") entries)
  /\ size (newEntry plan)
     <> List.length (List.filter (fun e => Str.includes e "/pages/") entries).
Proof. vm_compute. repeat split; discriminate. Qed.

End PageFacts.

(** ** [beforeAddBuffer] *)
Section RewriteFacts.
Import BuilderCore RegExp.

(** *** The version marker *)

Lemma no_dollar_uint (d : Decimal.uint) : no_dollar (NilEmpty.string_of_uint d) = true.
Proof. induction d; simpl; auto. Qed.

Lemma no_dollar_Number (n : Z) : no_dollar (Number_toString n) = true.
Proof.
  unfold Number_toString, NilEmpty.string_of_int.
  destruct (Z.to_int n); simpl; apply no_dollar_uint.
Qed.

Lemma Number_toString_inj (n m : Z) : Number_toString n = Number_toString m -> n = m.
Proof.
  unfold Number_toString. intros H.
  apply (f_equal NilEmpty.int_of_string) in H. rewrite !NilEmpty.isi in H.
  injection H as H. now apply DecimalZ.to_int_inj.
Qed.

Lemma no_dollar_version_script (now : Z) : no_dollar (version_script now) = true.
Proof.
  unfold version_script, JSON_stringify_version.
  rewrite !no_dollar_app, no_dollar_Number. reflexivity.
Qed.

Lemma version_script_shape (now : Z) :
  version_script now
  = ("<script>var pack = {" +:+ dq +:+ "version" +:+ dq +:+ ":")
    +:+ Number_toString now +:+ "}</script>".
Proof.
  unfold version_script, JSON_stringify_version.
  rewrite !append_assoc. reflexivity.
Qed.

Lemma version_script_inj (t1 t2 : Z) (x : string) :
  version_script t1 +:+ x = version_script t2 +:+ x -> t1 = t2.
Proof.
  intros H. apply append_inv_tail in H. rewrite !version_script_shape in H.
  apply append_inv_head, append_inv_tail in H.
  now apply Number_toString_inj.
Qed.

(** Rule 6 puts one version script right before the first [<script]. *)
Lemma inject_version_first (now : Z) (x a b : string) :
  first_occurrence script_text x a b ->
  inject_version now x = a +:+ version_script now +:+ script_text +:+ b.
Proof.
  intros H. unfold inject_version, replace, script_regex.
  rewrite (search_literal_first _ _ _ (group_literal_like 1 script_text) _ _ _ "" H).
  cbn [before after]. rewrite GetSubstitution_plain by apply no_dollar_version_script.
  vm_compute (groups _).
  change (GetSubstitution _ 1 "$1") with script_text.
  now rewrite !append_assoc.
Qed.

Lemma inject_version_absent (now : Z) (x : string) :
  Str.includes x script_text = false -> inject_version now x = x.
Proof.
  intros H%includes_false. unfold inject_version, replace, script_regex.
  now rewrite (search_literal_absent _ _ _ (group_literal_like 1 script_text)).
Qed.

(** *** Rules 3 to 5 on text that lacks what they remove *)

Lemma strip_crossorigin_absent (x : string) :
  Str.includes x crossorigin_text = false -> strip_crossorigin x = x.
Proof.
  intros H%includes_false. apply replace_all_none.
  now apply (search_literal_absent _ _ _ (lits_literal_like crossorigin_text)).
Qed.

Lemma strip_bid_absent (x : string) :
  Str.includes x bid_text = false -> strip_bid x = x.
Proof.
  intros H%includes_false. apply replace_all_none.
  now apply (search_literal_absent _ _ _ (lits_literal_like bid_text)).
Qed.



(** *** The business pattern *)

Lemma pattern_atoms_app (a b : string) :
  forall l, pattern_atoms (a +:+ b) = Some l ->
            exists la lb, pattern_atoms a = Some la /\ pattern_atoms b = Some lb
                          /\ l = la ++ lb.
Proof.
  induction a as [|c a IH]; intros l H.
  - exists [], l. auto.
  - simpl in H. destruct (pattern_atoms (a +:+ b)) as [l'|] eqn:E; [|discriminate].
    destruct (IH l' eq_refl) as (la & lb & Ha & Hb & ->). simpl. rewrite Ha.
    destruct (Ascii.eqb c "."); [injection H as <-; exists (Dot :: la), lb; auto|].
    destruct (syntaxCharacter c); [discriminate|].
    injection H as <-. exists (Chr c :: la), lb. auto.
Qed.

Lemma lang_atoms_app (la lb : list atom) :
  forall w, lang (atoms (la ++ lb)) w ->
            exists wa wb, w = wa +:+ wb /\ lang (atoms la) wa /\ lang (atoms lb) wb.
Proof.
  induction la as [|a la IH]; intros w H.
  - exists "", w. repeat split; auto. constructor.
  - simpl in H. inversion H as [| | |r1 r2 w1 w2 L1 L2|]; subst.
    destruct (IH _ L2) as (wa & wb & -> & La & Lb).
    exists (w1 +:+ wa), wb. rewrite append_assoc. repeat split; auto.
    simpl. now constructor.
Qed.

Lemma lang_atoms_slash (w : string) : lang (atoms [Chr "/"]) w -> w = "/".
Proof.
  intros H. simpl in H. inversion H as [| | |r1 r2 w1 w2 L1 L2|]; subst.
  inversion L1 as [|a x Hx| | |]; subst. inversion L2; subst.
  cbn [accepts] in Hx. now apply Ascii.eqb_eq in Hx as <-.
Qed.

Lemma lang_reference_tail (w : string) :
  lang reference_tail w ->
  exists g q, w = g +:+ String q "" /\ existsb (Ascii.eqb q) terminators = true.
Proof.
  intros H. unfold reference_tail in H.
  inversion H as [| | |r1 r2 w1 w2 L1 L2|]; subst.
  inversion L2 as [| | | |n r w L]; subst. inversion L as [|a q Hq| | |]; subst.
  exists w1, q. split; [reflexivity|].
  unfold terminators. cbn [accepts xorb existsb] in Hq |- *.
  destruct (Ascii.eqb q DQ), (Ascii.eqb q "'"), (Ascii.eqb q "`"), (Ascii.eqb q ")");
    simpl in Hq |- *; congruence.
Qed.

(** Where a business reference matches, the text reads [//], a host
    part, a slash, a product part, a slash, and further on a terminator. *)
Lemma business_regex_here (cdn product : string) (regex : regex)
    (s rest : string) (caps : gmap nat string) :
  business_regex cdn product = Some regex ->
  match_here regex s = Some (rest, caps) ->
  exists u v g q,
    s = "//" +:+ u +:+ "/" +:+ v +:+ "/" +:+ g +:+ String q rest
    /\ existsb (Ascii.eqb q) terminators = true.
Proof.
  unfold business_regex. intros Hr Hm.
  destruct (pattern_atoms _) as [l|] eqn:El; [|discriminate]. injection Hr as <-.
  apply match_here_sound in Hm as (w & -> & L).
  inversion L as [| | |r1 r2 w1 w2 L1 L2|]; subst.
  change ("//" +:+ cdn +:+ "/" +:+ product +:+ "/")
    with ("/" +:+ "/" +:+ cdn +:+ "/" +:+ product +:+ "/") in El.
  apply pattern_atoms_app in El as (l1 & k1 & H1 & El & ->).
  apply pattern_atoms_app in El as (l2 & k2 & H2 & El & ->).
  apply pattern_atoms_app in El as (lc & k3 & Hc & El & ->).
  apply pattern_atoms_app in El as (l3 & k4 & H3 & El & ->).
  apply pattern_atoms_app in El as (lp & l4 & Hp & H4 & ->).
  injection H1 as <-. injection H2 as <-. injection H3 as <-. injection H4 as <-.
  apply lang_atoms_app in L1 as (x1 & y1 & -> & ->%lang_atoms_slash & L1).
  apply lang_atoms_app in L1 as (x2 & y2 & -> & ->%lang_atoms_slash & L1).
  apply lang_atoms_app in L1 as (u & y3 & -> & _ & L1).
  apply lang_atoms_app in L1 as (x3 & y4 & -> & ->%lang_atoms_slash & L1).
  apply lang_atoms_app in L1 as (v & x4 & -> & _ & ->%lang_atoms_slash).
  apply lang_reference_tail in L2 as (g & q & -> & Hq).
  exists u, v, g, q. split; [|exact Hq].
  rewrite !append_assoc. reflexivity.
Qed.

Lemma pattern_atoms_plain (src : string) :
  plain_pattern src = true -> is_Some (pattern_atoms src).
Proof.
  induction src as [|c src IH]; intros H; [simpl; eauto|].
  cbn [plain_pattern] in H. apply andb_prop in H as [Hc Hs].
  cbn [pattern_atoms]. destruct (IH Hs) as [l ->].
  destruct (Ascii.eqb c "."); [eauto|].
  simpl in Hc. apply negb_true_iff in Hc. rewrite Hc. eauto.
Qed.

Lemma plain_pattern_app (a b : string) :
  plain_pattern (a +:+ b) = plain_pattern a && plain_pattern b.
Proof.
  induction a as [|c a IH]; [reflexivity|].
  change (String c a +:+ b) with (String c (a +:+ b)).
  cbn [plain_pattern]. now rewrite IH, andb_assoc.
Qed.

(** The business pattern is within the fragment whenever [cdn] and
    [product] are. *)
Lemma business_regex_defined (cdn product : string) :
  plain_pattern cdn = true -> plain_pattern product = true ->
  is_Some (business_regex cdn product).
Proof.
  intros Hc Hp. unfold business_regex.
  destruct (pattern_atoms_plain ("//" +:+ cdn +:+ "/" +:+ product +:+ "/")) as [l ->];
    [|eauto].
  change ("//" +:+ cdn +:+ "/" +:+ product +:+ "/")
    with ("//" +:+ (cdn +:+ ("/" +:+ (product +:+ "/")))).
  rewrite !plain_pattern_app, Hc, Hp. reflexivity.
Qed.

Lemma slash_slash_terminator_stage (s : string) :
  forall stage, slash_slash_terminator stage s = true ->
                slash_slash_terminator (S stage) s = true.
Proof.
  induction s as [|c s IH]; intros stage H; [discriminate|].
  destruct stage as [|[|stage]]; cbn [slash_slash_terminator] in H |- *.
  - destruct (Ascii.eqb c "/"); now apply IH.
  - destruct (Ascii.eqb c "/"); [now rewrite H, orb_true_r|].
    apply IH in H. now rewrite H, orb_true_r.
  - apply orb_true_iff in H as [H|H]; [now rewrite H|].
    apply IH in H. now rewrite H, orb_true_r.
Qed.

Lemma slash_slash_terminator_later (x s : string) :
  forall stage, slash_slash_terminator stage s = true ->
                slash_slash_terminator stage (x +:+ s) = true.
Proof.
  induction x as [|c x IH]; intros stage H; [exact H|].
  change (String c x +:+ s) with (String c (x +:+ s)).
  destruct stage as [|[|stage]]; cbn [slash_slash_terminator].
  - destruct (Ascii.eqb c "/"); [apply IH; now apply slash_slash_terminator_stage|now apply IH].
  - destruct (Ascii.eqb c "/"); [apply IH; now apply slash_slash_terminator_stage|now apply IH].
  - rewrite (IH _ H). apply orb_true_r.
Qed.

Lemma business_shape_condition (u v g rest : string) (q : ascii) :
  existsb (Ascii.eqb q) terminators = true ->
  slash_slash_terminator 0 (u +:+ "/" +:+ v +:+ "/" +:+ g +:+ String q rest) = true.
Proof.
  intros Hq. apply slash_slash_terminator_later.
  change (slash_slash_terminator 1 (v +:+ "/" +:+ g +:+ String q rest) = true).
  apply slash_slash_terminator_later.
  change (slash_slash_terminator 2 (g +:+ String q rest) = true).
  apply slash_slash_terminator_later.
  cbn [slash_slash_terminator]. now rewrite Hq.
Qed.

Lemma no_business_reference_at (a b : string) :
  no_business_reference (a +:+ b) = true ->
  Str.startsWith b "//" && slash_slash_terminator 0 (Str.drop 2 b) = false.
Proof.
  induction a as [|c a IH]; intros H.
  - change ("" +:+ b) with b in H.
    destruct b; cbn [no_business_reference] in H;
      apply andb_prop in H as [H _]; now apply negb_true_iff in H.
  - change (String c a +:+ b) with (String c (a +:+ b)) in H.
    cbn [no_business_reference] in H. apply andb_prop in H as [_ H]. now apply IH.
Qed.

(** Text in which no position passes the necessary condition is left
    alone by the business rule, whatever [cdn] and [product] are. *)
Lemma substitute_business_no_reference (domain cdn product : string) (regex : regex)
    (s : string) :
  business_regex cdn product = Some regex ->
  no_business_reference s = true ->
  substitute_business domain regex s = s.
Proof.
  intros Hr Hs. apply replace_all_none, search_none. intros a b ->.
  destruct (match_here regex b) as [[rest caps]|] eqn:E; [|reflexivity].
  exfalso. apply no_business_reference_at in Hs.
  destruct (business_regex_here _ _ _ _ _ _ Hr E) as (u & v & g & q & -> & Hq).
  change (Str.drop 2 ("//" +:+ u +:+ "/" +:+ v +:+ "/" +:+ g +:+ String q rest))
    with (u +:+ "/" +:+ v +:+ "/" +:+ g +:+ String q rest) in Hs.
  rewrite business_shape_condition in Hs by exact Hq. discriminate.
Qed.

(** In particular text without [//] is left alone. *)
Lemma substitute_business_no_slashes (domain cdn product : string) (regex : regex)
    (s : string) :
  business_regex cdn product = Some regex ->
  Str.includes s "//" = false ->
  substitute_business domain regex s = s.
Proof.
  intros Hr Hs%includes_false. apply replace_all_none, search_none. intros a b ->.
  destruct (match_here regex b) as [[rest caps]|] eqn:E; [|reflexivity].
  exfalso. apply Hs.
  destruct (business_regex_here _ _ _ _ _ _ Hr E) as (u & v & g & q & -> & Hq).
  now exists a, (u +:+ "/" +:+ v +:+ "/" +:+ g +:+ String q rest).
Qed.

(** *** The markup branch on the scenario *)

Lemma scenario_first_pass (htmlPrefix cdn product assetPath : string) (regex : regex)
    (now : Z) :
  Str.includes assetPath htmlPrefix = true ->
  business_regex cdn product = Some regex ->
  beforeAddBuffer htmlPrefix "example.com" cdn product now scenario_markup assetPath
  = Some (version_script now +:+ scenario_tag_rewritten).
Proof.
  intros Hpath Hr. unfold beforeAddBuffer. rewrite indexOf_test, Hpath, Hr.
  rewrite (substitute_business_no_reference _ cdn product) by
    (try exact Hr; vm_compute; reflexivity).
  assert (E : strip_integrity
                (strip_bid
                   (strip_crossorigin (substitute_platform "example.com" scenario_markup)))
              = scenario_tag_rewritten) by (vm_compute; reflexivity).
  rewrite E.
  rewrite (inject_version_first now scenario_tag_rewritten ""
             (Str.drop 7 scenario_tag_rewritten))
    by (apply first_occurrence_here; reflexivity).
  reflexivity.
Qed.

(** C4.  For a markup file (its path holds the markup prefix), the
    tag [<script src="//11.url.cn/now/x.js" integrity="sha256-abc"
    crossorigin="anonymous"></script>] rewritten for the domain
    [example.com] becomes a script tag whose source is
    [//example.com/x.js], without [integrity] and without
    [crossorigin], preceded by the inline script that defines [pack]
    with the reading of the clock as [version], placed right before the
    first [<script].  This holds for every [cdn] and [product] made of
    pattern characters and [.]. *)
Theorem C4_beforeAddBuffer_markup_scenario :
  forall (htmlPrefix cdn product assetPath : string) (now : Z),
    Str.includes assetPath htmlPrefix = true ->
    plain_pattern cdn = true ->
    plain_pattern product = true ->
    beforeAddBuffer htmlPrefix "example.com" cdn product now scenario_markup assetPath
    = Some (version_script now +:+ scenario_tag_rewritten)
    /\ version_script now
       = "<script>var pack = {" +:+ dq +:+ "version" +:+ dq +:+ ":"
         +:+ Number_toString now +:+ "}</script>"
    /\ scenario_tag_rewritten
       = "<script src=" +:+ dq +:+ "//example.com/x.js" +:+ dq +:+ "  ></script>"
    /\ Str.includes scenario_tag_rewritten "integrity" = false
    /\ Str.includes scenario_tag_rewritten "crossorigin" = false.
Proof.
  intros htmlPrefix cdn product assetPath now Hpath Hc Hp.
  destruct (business_regex_defined cdn product Hc Hp) as [regex Hr].
  split; [now apply (scenario_first_pass _ cdn product _ regex)|].
  split; [rewrite version_script_shape, !append_assoc; reflexivity|].
  repeat split; vm_compute; reflexivity.
Qed.

(** C4 with the markup prefix [html] and the business pattern of
    [cdn.example.com] and [productX], at the clock reading 1234. *)
Lemma C4_beforeAddBuffer_markup_scenario_witness :
  beforeAddBuffer "html" "example.com" "cdn.example.com" "productX" 1234
    scenario_markup "html/index.html"
  = Some ("<script>var pack = {" +:+ dq +:+ "version" +:+ dq +:+ ":1234}</script>"
          +:+ scenario_tag_rewritten).
Proof.
  destruct (C4_beforeAddBuffer_markup_scenario
              "html" "cdn.example.com" "productX" "html/index.html" 1234
              eq_refl eq_refl eq_refl) as [H _].
  rewrite H. reflexivity.
Defined.

(** *** Files that are not markup *)

(** C7, as the code has it.  For a file whose path lacks the markup
    prefix, the content is rewritten by the business-asset rule alone:
    the result does not depend on the clock, content without [//] comes
    back as it is, and [crossorigin], [?_bid=152], [integrity] and
    [<script] are left in place.  A business reference is rewritten when
    a quote, a backquote or a closing parenthesis ends it:
    [url(//cdn.example.com/productX/a.png?foo=1)] becomes
    [url(//static.example.com/a.png?foo=1)]. *)
Theorem C7_beforeAddBuffer_other_files :
  forall (now : Z),
    (forall (htmlPrefix domain cdn product assetPath source : string) (regex : regex),
        Str.includes assetPath htmlPrefix = false ->
        business_regex cdn product = Some regex ->
        beforeAddBuffer htmlPrefix domain cdn product now source assetPath
        = Some (substitute_business domain regex source)
        /\ (Str.includes source "//" = false ->
            beforeAddBuffer htmlPrefix domain cdn product now source assetPath
            = Some source))
    /\ beforeAddBuffer "html" "static.example.com" "cdn.example.com" "productX" now
         "url(//cdn.example.com/productX/a.png?foo=1)" "cdn/css/a.css"
       = Some "url(//static.example.com/a.png?foo=1)"
    /\ beforeAddBuffer "html" "static.example.com" "cdn.example.com" "productX" now
         (other_content_with_markers "cdn.example.com/productX") "cdn/js/a.js"
       = Some (other_content_with_markers "static.example.com").
Proof.
  intros now. split; [|split; vm_compute; reflexivity].
  intros htmlPrefix domain cdn product assetPath source regex Hpath Hr.
  unfold beforeAddBuffer. rewrite indexOf_test, Hpath, Hr. split; [reflexivity|].
  intros Hs. now rewrite (substitute_business_no_slashes _ cdn product).
Qed.

(** C7 on a style sheet without any reference. *)
Lemma C7_beforeAddBuffer_other_files_witness :
  beforeAddBuffer "html" "static.example.com" "cdn.example.com" "productX" 0
    "body { margin: 0 }" "cdn/css/a.css"
  = Some "body { margin: 0 }".
Proof.
  destruct (business_regex "cdn.example.com" "productX") as [regex|] eqn:Hr;
    [|discriminate Hr].
  destruct (C7_beforeAddBuffer_other_files 0) as [H _].
  destruct (H "html" "static.example.com" "cdn.example.com" "productX"
              "cdn/css/a.css" "body { margin: 0 }" regex eq_refl Hr) as [_ Hsame].
  exact (Hsame eq_refl).
Defined.

(** C7 as the claim words it fails on its own example: the bare
    content, with nothing after the reference, is not rewritten, since
    the pattern asks for the character that ends the reference. *)
Lemma C7_bare_reference_counterexample :
  Str.includes "cdn/img/a.png" "html" = false
  /\ beforeAddBuffer "html" "static.example.com" "cdn.example.com" "productX" 0
       "//cdn.example.com/productX/a.png?foo=1" "cdn/img/a.png"
     = Some "//cdn.example.com/productX/a.png?foo=1"
  /\ beforeAddBuffer "html" "static.example.com" "cdn.example.com" "productX" 0
       "//cdn.example.com/productX/a.png?foo=1" "cdn/img/a.png"
     <> Some "//static.example.com/a.png?foo=1".
Proof. vm_compute. repeat split. discriminate. Qed.

(** *** What the rules leave of a text they do not touch *)

Lemma occurs_app_l (t a b : string) : occurs t a -> occurs t (a +:+ b).
Proof. intros (x & y & ->). exists x, (y +:+ b). now rewrite !append_assoc. Qed.

Lemma occurs_app_r (t a b : string) : occurs t b -> occurs t (a +:+ b).
Proof. intros (x & y & ->). exists (a +:+ x), y. now rewrite !append_assoc. Qed.

Lemma split_after (a b x c : string) :
  a +:+ b = x +:+ c -> (String.length a <= String.length x)%nat ->
  exists x', x = a +:+ x' /\ b = x' +:+ c.
Proof.
  revert x. induction a as [|h a IH]; intros x H Hlen.
  - exists x. auto.
  - destruct x as [|h' x]; [simpl in Hlen; lia|].
    simpl in H. injection H as -> H. simpl in Hlen.
    destruct (IH x H ltac:(lia)) as (x' & -> & ->). exists x'. auto.
Qed.

Lemma split_before (a b x c : string) :
  a +:+ b = x +:+ c -> (String.length x <= String.length a)%nat ->
  exists z, a = x +:+ z /\ c = z +:+ b.
Proof.
  intros H Hlen. symmetry in H. destruct (split_after _ _ _ _ H Hlen) as (z & -> & ->).
  exists z. auto.
Qed.

Lemma occurs_within (t a b x y : string) :
  a +:+ b = x +:+ t +:+ y ->
  (String.length x + String.length t <= String.length a)%nat ->
  occurs t a.
Proof.
  intros H Hlen. rewrite <- append_assoc in H.
  destruct (split_before a b (x +:+ t) y H) as (z & -> & _).
  - rewrite length_append. lia.
  - exists x, z. now rewrite append_assoc.
Qed.

Lemma occurs_beyond (t a b x y : string) :
  a +:+ b = x +:+ t +:+ y ->
  (String.length a <= String.length x)%nat ->
  exists x', b = x' +:+ t +:+ y
             /\ String.length x = (String.length a + String.length x')%nat.
Proof.
  intros H Hlen. destruct (split_after a b x _ H Hlen) as (x' & -> & ->).
  exists x'. split; [reflexivity | apply length_append].
Qed.

(** An occurrence of [t] does not contain a character that [t] lacks. *)
Lemma occurs_around_char (t g rest x y : string) (q : ascii) :
  has_char q t = false ->
  g +:+ String q rest = x +:+ t +:+ y ->
  (String.length x + String.length t <= String.length g)%nat
  \/ (String.length g + 1 <= String.length x)%nat.
Proof.
  intros Hq. revert x. induction g as [|c g IH]; intros x H.
  - destruct x as [|c x]; [|right; simpl; lia].
    simpl in H. destruct t as [|c t]; [left; simpl; lia|].
    simpl in H. injection H as <- _. simpl in Hq. now rewrite Ascii.eqb_refl in Hq.
  - destruct x as [|c' x].
    + simpl in H. destruct t as [|c' t]; [left; simpl; lia|].
      simpl in H. injection H as <- H. simpl in Hq. apply orb_false_iff in Hq as [_ Hq].
      clear IH. left. simpl. revert t Hq H. induction g as [|c' g IHg]; intros t Hq H.
      * destruct t as [|c' t]; [simpl; lia|].
        simpl in H. injection H as <- _. simpl in Hq.
        now rewrite Ascii.eqb_refl in Hq.
      * destruct t as [|c'' t]; [simpl; lia|].
        simpl in H. injection H as <- H. simpl in Hq.
        apply orb_false_iff in Hq as [_ Hq]. specialize (IHg t Hq H). simpl in *. lia.
    + simpl in H. injection H as <- H. destruct (IH x H) as [L|L]; simpl; [left|right]; lia.
Qed.

Lemma lang_atoms_cons (a : atom) (l : list atom) (w : string) :
  lang (atoms (a :: l)) w ->
  exists c w', w = String c w' /\ accepts a c = true /\ lang (atoms l) w'.
Proof.
  intros H. simpl in H. inversion H as [| | |r1 r2 w1 w2 L1 L2|]; subst.
  inversion L1 as [|a' c Hc| | |]; subst. exists c, w2. auto.
Qed.

Lemma lang_atoms_nil (w : string) : lang (atoms []) w -> w = "".
Proof. intros H. now inversion H. Qed.

Lemma lang_atoms_compatible (l : list atom) :
  forall w rest t y,
    lang (atoms l) w -> w +:+ rest = t +:+ y -> compatible l t = true.
Proof.
  induction l as [|a l IH]; intros w rest t y L H; [reflexivity|].
  apply lang_atoms_cons in L as (c & w' & -> & Hc & L).
  destruct t as [|c' t]; [reflexivity|].
  simpl in H. injection H as <- H. simpl. rewrite Hc. now apply (IH w' rest t y).
Qed.

Lemma starts_inside_false (l : list atom) :
  forall w rest x t y,
    lang (atoms l) w -> w +:+ rest = x +:+ t +:+ y ->
    starts_inside l t = false ->
    (String.length w <= String.length x)%nat.
Proof.
  induction l as [|a l IH]; intros w rest x t y L H Hs.
  - apply lang_atoms_nil in L as ->. simpl. lia.
  - cbn [starts_inside] in Hs. apply orb_false_iff in Hs as [Hc Hs].
    destruct x as [|c' x].
    + rewrite (lang_atoms_compatible (a :: l) w rest t y L H) in Hc. discriminate.
    + apply lang_atoms_cons in L as (c & w' & -> & _ & L).
      simpl in H. injection H as _ H. simpl.
      specialize (IH w' rest x t y L H Hs). lia.
Qed.

Lemma runs_into_false (l : list atom) (w rest : string) :
  lang (atoms l) w ->
  forall gap t y,
    gap <> "" -> gap +:+ w +:+ rest = t +:+ y ->
    runs_into l t = false ->
    (String.length t <= String.length gap)%nat.
Proof.
  intros L gap. induction gap as [|c gap IH]; intros t y Hne H Hr; [contradiction|].
  destruct t as [|c' t]; [simpl; lia|].
  simpl in H. injection H as _ H.
  destruct t as [|c'' t]; [simpl; lia|].
  cbn [runs_into] in Hr. apply orb_false_iff in Hr as [Hc Hr].
  destruct gap as [|d gap].
  - rewrite (lang_atoms_compatible l w rest (String c'' t) y L H) in Hc. discriminate.
  - specialize (IH (String c'' t) y ltac:(discriminate) H Hr). simpl in *. lia.
Qed.

(** Where the atoms [l] are apart from [t], an occurrence of [t] lies
    wholly before or wholly after any text that [l] matches. *)
Lemma apart_spec (l : list atom) (t w rest : string) :
  apart l t = true -> lang (atoms l) w ->
  forall gap x y,
    gap +:+ w +:+ rest = x +:+ t +:+ y ->
    (String.length x + String.length t <= String.length gap)%nat
    \/ (String.length gap + String.length w <= String.length x)%nat.
Proof.
  intros Ha L. apply andb_prop in Ha as [Hs Hr].
  apply negb_true_iff in Hs. apply negb_true_iff in Hr.
  intros gap. induction gap as [|c gap IH]; intros x y H.
  - right. simpl in H |- *. now apply (starts_inside_false l w rest x t y).
  - destruct x as [|c' x].
    + left. simpl in H |- *.
      apply (runs_into_false l w rest L (String c gap) t y); [discriminate|exact H|exact Hr].
    + simpl in H. injection H as _ H. destruct (IH x y H); simpl; [left|right]; lia.
Qed.

(** A pattern without group hands the groups on as it found them. *)
Lemma run_group_free_sound {R : Type} (r : regex) :
  group_free r = true ->
  forall (s : string) (caps : gmap nat string)
         (k : string -> gmap nat string -> option R) (res : R),
    run r s caps k = Some res ->
    exists w s', s = w +:+ s' /\ lang r w /\ k s' caps = Some res.
Proof.
  induction r as [|a|greedy min a|r1 IH1 r2 IH2|n r IH]; intros Hg s caps k res H;
    simpl in H, Hg.
  - exists "", s. repeat split; auto. constructor.
  - destruct s as [|c s]; [discriminate|].
    destruct (accepts a c) eqn:Ea; [|discriminate].
    exists (String c ""), s. repeat split; auto. now constructor.
  - apply rep_sound in H as (w & s' & -> & Hw & Hlen & Hk).
    exists w, s'. repeat split; auto. now constructor.
  - apply andb_prop in Hg as [Hg1 Hg2].
    apply (IH1 Hg1) in H as (w1 & s1 & -> & L1 & H).
    apply (IH2 Hg2) in H as (w2 & s2 & -> & L2 & H).
    exists (w1 +:+ w2), s2. rewrite append_assoc. repeat split; auto. now constructor.
  - discriminate.
Qed.

Lemma group_free_atoms (l : list atom) : group_free (atoms l) = true.
Proof. induction l as [|a l IH]; [reflexivity | exact IH]. Qed.

Lemma group_free_lits (p : string) : group_free (lits p) = true.
Proof. induction p as [|c p IH]; [reflexivity | exact IH]. Qed.

Lemma groups_group_free (r : regex) : group_free r = true -> groups r = 0%nat.
Proof.
  induction r as [|a|greedy min a|r1 IH1 r2 IH2|n r IH]; intros H; simpl in *;
    try reflexivity; try discriminate.
  apply andb_prop in H as [H1 H2]. now rewrite IH1, IH2.
Qed.

Lemma lits_atoms (p : string) : lits p = atoms (chr_atoms p).
Proof. induction p as [|c p IH]; simpl; [reflexivity | now rewrite IH]. Qed.

(** The groups that the tail of a reference pattern sets. *)
Lemma run_reference_tail {R : Type} (s : string) (caps : gmap nat string)
    (k : string -> gmap nat string -> option R) (res : R) :
  run reference_tail s caps k = Some res ->
  exists g q s',
    s = g +:+ String q s'
    /\ existsb (Ascii.eqb q) terminators = true
    /\ k s' (<[2%nat := String q ""]> (<[1%nat := g]> caps)) = Some res.
Proof.
  unfold reference_tail. cbn [run]. intros H.
  apply rep_sound in H as (g & s1 & -> & _ & _ & H).
  destruct s1 as [|q s']; [discriminate|].
  destruct (accepts (Cls false [DQ; "'"; "`"; ")"]%char) q) eqn:Hq; [|discriminate].
  exists g, q, s'. split; [reflexivity|]. split.
  - unfold terminators. cbn [accepts xorb existsb] in Hq |- *.
    destruct (Ascii.eqb q DQ), (Ascii.eqb q "'"), (Ascii.eqb q "`"), (Ascii.eqb q ")");
      simpl in Hq |- *; congruence.
  - rewrite consumed_append in H.
    change (String q s') with (String q "" +:+ s') in H.
    now rewrite consumed_append in H.
Qed.

(** A match of a reference pattern: the head, group 1, group 2. *)
Lemma reference_match (l : list atom) (s rest : string) (caps : gmap nat string) :
  match_here (Cat (atoms l) reference_tail) s = Some (rest, caps) ->
  exists h g q,
    s = h +:+ g +:+ String q rest
    /\ lang (atoms l) h
    /\ existsb (Ascii.eqb q) terminators = true
    /\ caps = <[2%nat := String q ""]> (<[1%nat := g]> ∅).
Proof.
  unfold match_here. cbn [run]. intros H.
  apply (run_group_free_sound _ (group_free_atoms l)) in H as (h & s1 & -> & L & H).
  apply run_reference_tail in H as (g & q & s' & -> & Hq & [= <- <-]).
  exists h, g, q. auto.
Qed.

(** The replacement text of the domain rules ends with a slash and
    both groups, whatever the domain is. *)
Lemma GetSubstitution_reference (mr : MatchResult) (n : nat) :
  forall x, (String.length x <= n)%nat ->
            exists y, GetSubstitution mr 2 (x +:+ "/$1$2")
                      = y +:+ "/" +:+ capture mr 1 +:+ capture mr 2.
Proof.
  assert (Hbase : GetSubstitution mr 2 "/$1$2" = "" +:+ "/" +:+ capture mr 1 +:+ capture mr 2).
  { simpl. now rewrite append_nil_r. }
  induction n as [|n IH]; intros x Hlen.
  - destruct x; [|simpl in Hlen; lia]. exists "". exact Hbase.
  - destruct x as [|c t]; [exists ""; exact Hbase|].
    simpl in Hlen.
    change (String c t +:+ "/$1$2") with (String c (t +:+ "/$1$2")).
    cbn [GetSubstitution]. destruct (Ascii.eqb c "$") eqn:Ec; cbn [negb].
    + destruct t as [|d t'].
      * exists "$". simpl. now rewrite append_nil_r.
      * change (String d t' +:+ "/$1$2") with (String d (t' +:+ "/$1$2")).
        simpl in Hlen.
        destruct (IH t' ltac:(lia)) as [y1 E1].
        destruct (IH (String d t') ltac:(simpl; lia)) as [y2 E2].
        change (String d t' +:+ "/$1$2") with (String d (t' +:+ "/$1$2")) in E2.
        destruct (Ascii.eqb d "$"); [exists (String "$" y1); now rewrite E1|].
        destruct (Ascii.eqb d "&");
          [exists (matched mr +:+ y1); now rewrite E1, !append_assoc|].
        destruct (Ascii.eqb d "`");
          [exists (before mr +:+ y1); now rewrite E1, !append_assoc|].
        destruct (Ascii.eqb d "'");
          [exists (after mr +:+ y1); now rewrite E1, !append_assoc|].
        destruct (Ascii.is_nat d) as [n1|]; [|exists (String "$" y2); now rewrite E2].
        assert (Hone : exists y,
                   (if (1 <=? n1)%nat && (n1 <=? 2)%nat
                    then capture mr n1 +:+ GetSubstitution mr 2 (t' +:+ "/$1$2")
                    else String "$" (String d (GetSubstitution mr 2 (t' +:+ "/$1$2"))))
                   = y +:+ "/" +:+ capture mr 1 +:+ capture mr 2).
        { rewrite E1. destruct ((1 <=? n1)%nat && (n1 <=? 2)%nat).
          - exists (capture mr n1 +:+ y1). now rewrite !append_assoc.
          - exists (String "$" (String d y1)). reflexivity. }
        destruct t' as [|e t''].
        -- exact Hone.
        -- change (String e t'' +:+ "/$1$2") with (String e (t'' +:+ "/$1$2")) in *.
           lazy beta iota.
           destruct (Ascii.is_nat e) as [n2|]; [|exact Hone].
           destruct (2 <? 10 * n1 + n2)%nat; [exact Hone|].
           simpl in Hlen. destruct (IH t'' ltac:(lia)) as [y3 E3]. rewrite E3.
           destruct (1 <=? 10 * n1 + n2)%nat.
           ++ exists (capture mr (10 * n1 + n2) +:+ y3). now rewrite !append_assoc.
           ++ exists (String "$" (String d (String e y3))). reflexivity.
    + destruct (IH t ltac:(lia)) as [y E]. exists (String c y). now rewrite E.
Qed.

(** A global replacement keeps an occurrence of [t] when every single
    replacement keeps it before the match or leaves it after. *)
Lemma replace_all_preserves (r : regex) (tmpl t : string) :
  (forall w, lang r w -> w <> "") ->
  (forall pre s mr gap,
      search r pre s = Some mr -> before mr = pre +:+ gap -> occurs t s ->
      occurs t (gap +:+ GetSubstitution mr (groups r) tmpl) \/ occurs t (after mr)) ->
  forall s, occurs t s -> occurs t (replace_all r tmpl s).
Proof.
  intros Hne Hstep s. unfold replace_all.
  assert (Hfuel : (String.length s < S (String.length s))%nat) by lia.
  revert Hfuel. generalize (S (String.length s)) as fuel. generalize "" as pre.
  intros pre fuel. revert pre s.
  induction fuel as [|fuel IH]; intros pre s Hfuel Ho; [lia|].
  simpl. destruct (search r pre s) as [mr|] eqn:E; [|exact Ho].
  pose proof (search_sound _ _ _ _ E) as (gap & Hs & Hb & L & _).
  rewrite Hb, drop_append.
  apply Hne in L. destruct (matched mr) as [|c m] eqn:Em; [contradiction|].
  destruct (Hstep pre s mr gap E Hb Ho) as [H|H].
  - now apply occurs_app_l.
  - apply occurs_app_r. apply IH; [|exact H].
    apply (f_equal String.length) in Hs. rewrite !length_append in Hs. simpl in Hs. lia.
Qed.

(** Removing every occurrence of a text that is apart from [t]. *)
Lemma remove_literal_preserves (p t : string) :
  p <> "" -> apart (chr_atoms p) t = true ->
  forall s, occurs t s -> occurs t (replace_all (lits p) "" s).
Proof.
  intros Hp Ha. apply replace_all_preserves.
  - intros w ->%lang_lits. exact Hp.
  - intros pre s mr gap E Hb (x & y & Hs).
    apply search_sound in E as (gap' & Hs' & Hb' & L & _).
    rewrite Hb in Hb'. apply append_inv_head in Hb'. subst gap'.
    assert (Heq : gap +:+ matched mr +:+ after mr = x +:+ t +:+ y) by congruence.
    rewrite lits_atoms in L.
    destruct (apart_spec _ t _ (after mr) Ha L gap x y Heq) as [Hlen|Hlen].
    + left. apply occurs_app_l. exact (occurs_within _ _ _ _ _ Heq Hlen).
    + right.
      assert (Heq' : (gap +:+ matched mr) +:+ after mr = x +:+ t +:+ y)
        by (now rewrite append_assoc).
      destruct (occurs_beyond t (gap +:+ matched mr) (after mr) x y Heq')
        as (x' & -> & _); [rewrite length_append; lia|].
      now exists x', y.
Qed.

(** Rewriting every reference whose head is apart from [t], when [t]
    holds no terminator. *)
Lemma substitute_reference_preserves (l : list atom) (domain t : string) :
  apart l t = true ->
  forallb (fun q => negb (has_char q t)) terminators = true ->
  forall s, occurs t s ->
            occurs t (replace_all (Cat (atoms l) reference_tail)
                        (domain_template domain) s).
Proof.
  intros Ha Hq. apply replace_all_preserves.
  - intros w L. inversion L as [| | |r1 r2 w1 w2 L1 L2|]; subst.
    apply lang_reference_tail in L2 as (g & q & -> & _).
    intros E. apply (f_equal String.length) in E. rewrite !length_append in E.
    simpl in E. lia.
  - intros pre s mr gap E Hb (x & y & Hs).
    apply search_sound in E as (gap' & Hs' & Hb' & _ & Hm).
    rewrite Hb in Hb'. apply append_inv_head in Hb'. subst gap'.
    apply reference_match in Hm as (h & g & q & Hmatch & L & Hterm & Hcaps).
    assert (Heq : gap +:+ h +:+ g +:+ String q (after mr) = x +:+ t +:+ y)
      by congruence.
    assert (Hqt : has_char q t = false).
    { unfold terminators in Hq, Hterm. cbn [forallb existsb] in Hq, Hterm.
      repeat (apply andb_prop in Hq as [?%negb_true_iff Hq]).
      repeat (apply orb_true_iff in Hterm as [->%Ascii.eqb_eq|Hterm]); try assumption.
      discriminate. }
    assert (Hsub : exists z, GetSubstitution mr
                               (groups (Cat (atoms l) reference_tail))
                               (domain_template domain)
                             = z +:+ g +:+ String q "").
    { cbn [groups]. rewrite (groups_group_free _ (group_free_atoms l)).
      change (Nat.max 0 (groups reference_tail)) with 2%nat.
      unfold domain_template.
      change ("//" +:+ domain +:+ "/$1$2") with (("//" +:+ domain) +:+ "/$1$2").
      destruct (GetSubstitution_reference mr _ ("//" +:+ domain) (le_n _)) as [z ->].
      unfold capture. rewrite Hcaps.
      rewrite lookup_insert_ne, !lookup_insert_eq by lia. cbn [default from_option id].
      exists (z +:+ "/"). now rewrite !append_assoc. }
    destruct Hsub as [z ->].
    destruct (apart_spec _ t _ (g +:+ String q (after mr)) Ha L gap x y Heq)
      as [Hlen|Hlen].
    + left. apply occurs_app_l. exact (occurs_within _ _ _ _ _ Heq Hlen).
    + assert (Heq' : (gap +:+ h) +:+ g +:+ String q (after mr) = x +:+ t +:+ y)
        by (now rewrite append_assoc).
      destruct (occurs_beyond t (gap +:+ h) _ x y Heq')
        as (x' & Hrest & _); [rewrite length_append; lia|].
      destruct (occurs_around_char t g (after mr) x' y q Hqt Hrest) as [Hin|Hout].
      * left. apply occurs_app_r, occurs_app_r, occurs_app_l.
        exact (occurs_within _ _ _ _ _ Hrest Hin).
      * right.
        assert (Hrest' : (g +:+ String q "") +:+ after mr = x' +:+ t +:+ y)
          by (now rewrite append_assoc).
        destruct (occurs_beyond t (g +:+ String q "") (after mr) x' y Hrest')
          as (x'' & -> & _); [rewrite length_append; simpl; lia|].
        now exists x'', y.
Qed.

Lemma substitute_platform_preserves (domain s : string) :
  occurs script_text s -> occurs script_text (substitute_platform domain s).
Proof.
  unfold substitute_platform, platform_regex. rewrite lits_atoms.
  apply substitute_reference_preserves; vm_compute; reflexivity.
Qed.

Lemma substitute_business_preserves (domain cdn product : string) (regex : regex)
    (s : string) :
  business_regex cdn product = Some regex ->
  script_safe cdn product = true ->
  occurs script_text s -> occurs script_text (substitute_business domain regex s).
Proof.
  unfold business_regex, script_safe, substitute_business.
  destruct (pattern_atoms _) as [l|]; [|discriminate].
  intros [= <-] Ha. apply substitute_reference_preserves; [exact Ha|].
  vm_compute. reflexivity.
Qed.

Lemma strip_crossorigin_preserves (s : string) :
  occurs script_text s -> occurs script_text (strip_crossorigin s).
Proof.
  apply remove_literal_preserves; [discriminate | vm_compute; reflexivity].
Qed.

Lemma strip_bid_preserves (s : string) :
  occurs script_text s -> occurs script_text (strip_bid s).
Proof.
  apply remove_literal_preserves; [discriminate | vm_compute; reflexivity].
Qed.

(** Rule 5 keeps the [<script] that opens its match. *)
Lemma strip_integrity_preserves (s : string) :
  occurs script_text s -> occurs script_text (strip_integrity s).
Proof.
  intros Ho. unfold strip_integrity, replace.
  destruct (search integrity_regex "" s) as [mr|] eqn:E; [|exact Ho].
  apply search_sound in E as (gap & _ & _ & _ & Hm).
  unfold match_here, integrity_regex in Hm. cbn [run] in Hm.
  apply (run_group_free_sound (lits "<script") (group_free_lits _)) in Hm
    as (w1 & s1 & Hs1 & L1 & Hm).
  apply (lang_lits "<script") in L1 as ->.
  apply rep_sound in Hm as (w2 & s2 & -> & _ & _ & Hm).
  apply (run_group_free_sound (lits integrity_text) (group_free_lits _)) in Hm
    as (w3 & s3 & -> & _ & Hm).
  apply rep_sound in Hm as (w4 & s4 & -> & _ & _ & Hm).
  destruct s4 as [|q s5]; [discriminate|].
  destruct (accepts (Chr DQ) q); [|discriminate]. injection Hm as _ Hcaps.
  apply occurs_app_r, occurs_app_l.
  change (groups _) with 1%nat.
  change (GetSubstitution mr 1 "$1") with (capture mr 1 +:+ "").
  unfold capture. rewrite <- Hcaps, lookup_insert_eq. cbn [default from_option id].
  rewrite Hs1, <- (append_assoc "<script" w2), consumed_append.
  exists "", (w2 +:+ ""). now rewrite append_assoc.
Qed.

(** With a business pattern that cannot take part of a [<script] away,
    a [<script] of the input is still there when rule 6 runs. *)
Lemma script_survives (domain cdn product : string) (regex : regex) (source : string) :
  business_regex cdn product = Some regex ->
  script_safe cdn product = true ->
  Str.includes source script_text = true ->
  Str.includes (before_injection domain regex source) script_text = true.
Proof.
  intros Hr Hsafe H%includes_spec. apply includes_spec. unfold before_injection.
  apply strip_integrity_preserves, strip_bid_preserves, strip_crossorigin_preserves.
  apply (substitute_business_preserves domain cdn product regex _ Hr Hsafe).
  now apply substitute_platform_preserves.
Qed.

(** *** Counting occurrences *)

Lemma startsWith_app_l (a b t : string) :
  Str.startsWith a t = true -> Str.startsWith (a +:+ b) t = true.
Proof.
  intros [x ->]%startsWith_spec. rewrite append_assoc. apply startsWith_app.
Qed.

Lemma occurrences_app_ge (t a b : string) :
  (occurrences t a + occurrences t b <= occurrences t (a +:+ b))%nat.
Proof.
  induction a as [|c a IH]; [simpl; lia|].
  change (String c a +:+ b) with (String c (a +:+ b)).
  cbn [occurrences].
  destruct (Str.startsWith (String c a) t) eqn:E.
  - change (String c (a +:+ b)) with (String c a +:+ b).
    rewrite (startsWith_app_l _ b _ E). lia.
  - destruct (Str.startsWith (String c (a +:+ b)) t); lia.
Qed.


Lemma occurrences_prefix (t a b : string) :
  (occurrences t a <= occurrences t (a +:+ b))%nat.
Proof. pose proof (occurrences_app_ge t a b). lia. Qed.










(** *** Seams *)







(** *** Global replacement, step by step *)


Lemma GetSubstitution_groups (mr : MatchResult) :
  GetSubstitution mr 2 "$1$2" = capture mr 1 +:+ capture mr 2.
Proof. simpl. now rewrite append_nil_r. Qed.




(** *** Removing a literal everywhere *)








(** *** Rules 5 and 6 *)





(** *** The first pass over a clean markup *)



















(** *** A second pass, and the clock *)

Lemma Some_eq_inv {A : Type} (x y : A) : Some x = Some y -> x = y.
Proof. congruence. Qed.

Lemma beforeAddBuffer_markup (htmlPrefix domain cdn product assetPath : string)
    (regex : regex) (now : Z) (source : string) :
  Str.includes assetPath htmlPrefix = true ->
  business_regex cdn product = Some regex ->
  beforeAddBuffer htmlPrefix domain cdn product now source assetPath
  = Some (inject_version now (before_injection domain regex source)).
Proof.
  intros Hpath Hr. unfold beforeAddBuffer. now rewrite indexOf_test, Hpath, Hr.
Qed.





(** C10, as the code has it.  For a markup file, two runs over the
    same text and configuration at different readings of the clock give
    different outputs exactly when the text that reaches rule 6 holds
    [<script]; when rules 1 to 5 leave none, the output does not depend
    on the clock.  When the business pattern cannot take part of a
    [<script] away, as with [cdn.example.com] and [productX], every
    input that holds [<script] gives different outputs at different
    readings. *)
Theorem C10_beforeAddBuffer_depends_on_clock :
  forall (htmlPrefix domain cdn product assetPath : string) (regex : regex)
         (source : string) (t1 t2 : Z),
    Str.includes assetPath htmlPrefix = true ->
    business_regex cdn product = Some regex ->
    t1 <> t2 ->
    ((beforeAddBuffer htmlPrefix domain cdn product t1 source assetPath
      <> beforeAddBuffer htmlPrefix domain cdn product t2 source assetPath)
     <-> Str.includes (before_injection domain regex source) script_text = true)
    /\ (script_safe cdn product = true ->
        Str.includes source script_text = true ->
        beforeAddBuffer htmlPrefix domain cdn product t1 source assetPath
        <> beforeAddBuffer htmlPrefix domain cdn product t2 source assetPath)
    /\ script_safe "cdn.example.com" "productX" = true.
Proof.
  intros htmlPrefix domain cdn product assetPath regex source t1 t2 Hpath Hr Ht.
  assert (Hiff : beforeAddBuffer htmlPrefix domain cdn product t1 source assetPath
                 <> beforeAddBuffer htmlPrefix domain cdn product t2 source assetPath
                 <-> Str.includes (before_injection domain regex source) script_text
                     = true).
  { rewrite !(beforeAddBuffer_markup _ _ _ _ _ _ _ source Hpath Hr).
    destruct (Str.includes (before_injection domain regex source) script_text) eqn:E.
    - split; [reflexivity | intros _].
      apply includes_spec, first_occurrence_exists in E as (a & b & H).
      rewrite !(inject_version_first _ _ _ _ H). intros Heq.
      apply Some_eq_inv, append_inv_head, version_script_inj in Heq. contradiction.
    - split; [|intros Hf; discriminate Hf]. intros H. exfalso. apply H.
      rewrite !inject_version_absent by exact E. reflexivity. }
  split; [exact Hiff|]. split; [|vm_compute; reflexivity].
  intros Hsafe Hs. apply Hiff. now apply (script_survives domain cdn product).
Qed.

(** C10 on the scenario markup at the clock readings 1 and 2. *)
Lemma C10_beforeAddBuffer_depends_on_clock_witness :
  beforeAddBuffer "html" "example.com" "cdn.example.com" "productX" 1
    scenario_markup "html/index.html"
  <> beforeAddBuffer "html" "example.com" "cdn.example.com" "productX" 2
       scenario_markup "html/index.html".
Proof.
  destruct (business_regex "cdn.example.com" "productX") as [regex|] eqn:Hr;
    [|discriminate Hr].
  destruct (C10_beforeAddBuffer_depends_on_clock
              "html" "example.com" "cdn.example.com" "productX" "html/index.html" regex
              scenario_markup 1 2 eq_refl Hr) as (_ & H & _); [discriminate|].
  apply H; reflexivity.
Defined.

(** C10 as the claim words it fails: with the host pattern [.script]
    the business rule consumes the only [<script] of the input, nothing
    is injected, and the output is the same at every clock reading. *)
Lemma C10_script_consumed_counterexample :
  let source := "//<script/p/x" +:+ dq in
  Str.includes source script_text = true
  /\ beforeAddBuffer "html" "d" ".script" "p" 1 source "html/index.html"
     = Some ("//d/x" +:+ dq)
  /\ beforeAddBuffer "html" "d" ".script" "p" 2 source "html/index.html"
     = Some ("//d/x" +:+ dq).
Proof. vm_compute. repeat split. Qed.

End RewriteFacts.

(** ** Flags and lazy quantifiers *)
Section FlagFacts.
Import BuilderCore RegExp.

Lemma ci_atom_self (c : ascii) : accepts (ci_atom c) c = true.
Proof.
  unfold ci_atom. destruct (Ascii.eqb (other_case c) c); cbn [accepts existsb xorb].
  - apply Ascii.eqb_refl.
  - now rewrite Ascii.eqb_refl.
Qed.

Lemma ci_atom_exact (q c : ascii) :
  other_case q = q -> accepts (ci_atom q) c = Ascii.eqb q c.
Proof. intros H. unfold ci_atom. now rewrite H, Ascii.eqb_refl. Qed.

Lemma run_ci_lits {R : Type} (p s : string) (caps : gmap nat string)
    (k : string -> gmap nat string -> option R) :
  run (ci_lits p) s caps k =
  if startsWith_ci s p then k (Str.drop (String.length p) s) caps else None.
Proof.
  revert s. induction p as [|c p IH]; intros s.
  - reflexivity.
  - cbn [ci_lits run startsWith_ci String.length Str.drop].
    destruct s as [|x s]; [reflexivity|].
    destruct (accepts (ci_atom c) x); cbn [andb]; [apply IH | reflexivity].
Qed.

Lemma startsWith_ci_app (p t : string) : startsWith_ci (p +:+ t) p = true.
Proof.
  induction p as [|c p IH]; [reflexivity|].
  change (String c p +:+ t) with (String c (p +:+ t)).
  cbn [startsWith_ci]. now rewrite ci_atom_self, IH.
Qed.

(** Where a pattern that ends with a character without case matches,
    that character stands at the pattern's distance from the start. *)
Lemma startsWith_ci_mark (t0 : string) (q : ascii) :
  other_case q = q ->
  forall s, startsWith_ci s (t0 +:+ String q "") = true ->
            exists pre rest, s = pre +:+ String q rest
                             /\ String.length pre = String.length t0.
Proof.
  intros Hq. induction t0 as [|c t0 IH]; intros s H.
  - change ("" +:+ String q "") with (String q "") in H.
    destruct s as [|x s]; [discriminate|].
    cbn [startsWith_ci] in H. apply andb_prop in H as [H _].
    rewrite ci_atom_exact in H by exact Hq. apply Ascii.eqb_eq in H as <-.
    exists "", s. auto.
  - change (String c t0 +:+ String q "") with (String c (t0 +:+ String q "")) in H.
    destruct s as [|x s]; [discriminate|].
    cbn [startsWith_ci] in H. apply andb_prop in H as [_ H].
    destruct (IH s H) as (pre & rest & -> & Hlen).
    exists (String x pre), rest. simpl. auto.
Qed.

(** Such a pattern cannot match before its own text, in a stretch that
    lacks the closing character. *)
Lemma ci_tail_guard (t0 : string) (q : ascii) (y more : string) :
  other_case q = q -> has_char q (y +:+ t0) = false -> y <> "" ->
  startsWith_ci (y +:+ t0 +:+ String q more) (t0 +:+ String q "") = false.
Proof.
  intros Hq Hn Hy. destruct (startsWith_ci _ _) eqn:E; [|reflexivity]. exfalso.
  apply (startsWith_ci_mark t0 q Hq) in E as (pre & rest & E & Hlen).
  rewrite <- append_assoc in E.
  destruct (split_before (y +:+ t0) (String q more) pre (String q rest) E) as (z & Hz & Hz').
  - rewrite length_append. lia.
  - destruct z as [|c z].
    + rewrite append_nil_r in Hz. apply (f_equal String.length) in Hz.
      rewrite length_append in Hz. destruct y; [contradiction|]. simpl in Hz. lia.
    + simpl in Hz'. injection Hz' as Hc _. subst c.
      rewrite Hz, has_char_app in Hn. cbn [has_char] in Hn.
      rewrite Ascii.eqb_refl, orb_true_r in Hn. discriminate.
Qed.

(** A lazy quantifier stops at the first position from which the rest
    of the pattern matches. *)
Lemma rep_lazy_first {R : Type} (a : atom) (w rest : string)
    (k : string -> option R) (res : R) :
  all_accept a w = true ->
  (forall x y, w = x +:+ y -> y <> "" -> k (y +:+ rest) = None) ->
  k rest = Some res ->
  rep false a 0 (w +:+ rest) k = Some res.
Proof.
  intros Hw Hn Hk. induction w as [|c w IH].
  - change ("" +:+ rest) with rest. destruct rest; cbn [rep]; now rewrite Hk.
  - change (String c w +:+ rest) with (String c (w +:+ rest)).
    cbn [all_accept] in Hw. apply andb_prop in Hw as [Hc Hw].
    assert (E : k (String c (w +:+ rest)) = None)
      by (apply (Hn "" (String c w)); [reflexivity | discriminate]).
    cbn [rep]. rewrite E, Hc. cbn [Nat.pred].
    apply IH; [exact Hw|]. intros x y -> Hy. now apply (Hn (String c x) y).
Qed.

(** A greedy quantifier takes every character up to one that its atom
    refuses, when the rest of the pattern matches from there. *)
Lemma rep_greedy_stop {R : Type} (a : atom) (w rest : string)
    (k : string -> option R) (res : R) :
  all_accept a w = true ->
  match rest with
  | EmptyString => True
  | String c _ => accepts a c = false
  end ->
  k rest = Some res ->
  forall min, (min <= String.length w)%nat -> rep true a min (w +:+ rest) k = Some res.
Proof.
  intros Hw Hrest Hk. induction w as [|c w IH]; intros min Hmin.
  - simpl in Hmin. assert (min = 0%nat) as -> by lia.
    change ("" +:+ rest) with rest. destruct rest as [|c rest]; cbn [rep].
    + exact Hk.
    + now rewrite Hrest.
  - change (String c w +:+ rest) with (String c (w +:+ rest)).
    cbn [all_accept] in Hw. apply andb_prop in Hw as [Hc Hw].
    cbn [rep]. rewrite Hc, (IH Hw) by (simpl in Hmin; lia). reflexivity.
Qed.

Lemma search_here (r : regex) (s rest pre : string) (caps : gmap nat string) :
  match_here r s = Some (rest, caps) ->
  search r pre s
  = Some {| before := pre; matched := consumed s rest; captures := caps; after := rest |}.
Proof. intros H. destruct s; cbn [search]; now rewrite H. Qed.

Lemma has_char_suffix (q : ascii) (x y : string) :
  has_char q (x +:+ y) = false -> has_char q y = false.
Proof. rewrite has_char_app. now intros [_ H]%orb_false_elim. Qed.

Lemma inline_html_match (p tail : string) :
  all_accept Dot p = true -> has_char "]" p = false ->
  match_here inline_html_regex ("<!--inline[" +:+ p +:+ "]-->" +:+ tail)
  = Some (tail, {[1%nat := p]}).
Proof.
  intros Hp Hb. unfold match_here, inline_html_regex. cbn [run].
  rewrite run_ci_lits, startsWith_ci_app, drop_append.
  apply rep_lazy_first; [exact Hp| |].
  - intros x y -> Hy. rewrite run_ci_lits.
    destruct y as [|c y]; [contradiction|].
    apply has_char_suffix in Hb. cbn [has_char] in Hb.
    apply orb_false_elim in Hb as [Hc _].
    change (String c y +:+ "]-->" +:+ tail) with (String c (y +:+ "]-->" +:+ tail)).
    change "]-->" with (String "]" "-->") at 2.
    cbn [startsWith_ci]. rewrite ci_atom_exact by reflexivity. now rewrite Hc.
  - rewrite run_ci_lits, startsWith_ci_app, drop_append, consumed_append.
    now rewrite insert_empty.
Qed.
End FlagFacts.

Section CallbackFacts.
Import BuilderCore RegExp.

Lemma exec_group1_here (r : regex) (s rest g : string) :
  match_here r s = Some (rest, {[1%nat := g]}) -> exec_group1 r s = Some g.
Proof.
  intros H. unfold exec_group1. rewrite (search_here _ _ _ "" _ H).
  unfold capture. cbn [captures]. now rewrite lookup_singleton_eq.
Qed.

Lemma inline_script_match (attrs pkg tail : string) :
  all_accept Dot attrs = true -> has_char DQ attrs = false ->
  all_accept Dot pkg = true -> has_char DQ pkg = false ->
  match_here inline_script_regex
    ("<script" +:+ attrs +:+ "src=" +:+ String DQ (pkg +:+ "?__inline" +:+ String DQ tail))
  = Some (tail, {[1%nat := pkg]}).
Proof.
  intros Ha Hqa Hp Hqp. unfold match_here, inline_script_regex. cbn [run].
  rewrite run_ci_lits, startsWith_ci_app, drop_append.
  apply rep_lazy_first; [exact Ha| |].
  - intros x y -> Hy. rewrite run_ci_lits.
    rewrite (ci_tail_guard "src=" DQ); [reflexivity..| |exact Hy].
    apply has_char_suffix in Hqa. rewrite has_char_app, Hqa. reflexivity.
  - rewrite run_ci_lits.
    change ("src=" +:+ String DQ (pkg +:+ "?__inline" +:+ String DQ tail))
      with (("src=" +:+ dq) +:+ pkg +:+ "?__inline" +:+ String DQ tail).
    rewrite startsWith_ci_app, drop_append.
    apply rep_lazy_first; [exact Hp| |].
    + intros x y -> Hy. rewrite run_ci_lits.
      rewrite (ci_tail_guard "?__inline" DQ); [reflexivity..| |exact Hy].
      apply has_char_suffix in Hqp. rewrite has_char_app, Hqp. reflexivity.
    + rewrite run_ci_lits.
      change ("?__inline" +:+ String DQ tail) with (("?__inline" +:+ dq) +:+ tail).
      rewrite startsWith_ci_app, drop_append, consumed_append.
      now rewrite insert_empty.
Qed.

Lemma import_match (ws p tail : string) :
  all_accept (Cls false whiteSpace) ws = true ->
  all_accept Dot p = true -> has_char DQ p = false ->
  match_here import_regex
    ("@import" +:+ ws +:+ String DQ (String "/" (p +:+ String DQ (String ";" tail))))
  = Some (tail, {[1%nat := String "/" p]}).
Proof.
  intros Hws Hp Hq. unfold match_here, import_regex. cbn [run].
  rewrite run_ci_lits, startsWith_ci_app, drop_append.
  apply rep_greedy_stop; [exact Hws|reflexivity| |lia].
  change (accepts (Chr DQ) DQ) with true. change (accepts (Chr "/") "/") with true.
  cbv iota.
  apply rep_lazy_first; [exact Hp| |].
  - intros x y -> Hy. rewrite run_ci_lits.
    destruct y as [|c y]; [contradiction|].
    apply has_char_suffix in Hq. cbn [has_char] in Hq.
    apply orb_false_elim in Hq as [Hc _].
    change (String c y +:+ String DQ (String ";" tail))
      with (String c (y +:+ String DQ (String ";" tail))).
    change (dq +:+ ";") with (String DQ ";").
    cbn [startsWith_ci]. rewrite ci_atom_exact by reflexivity. now rewrite Hc.
  - rewrite run_ci_lits.
    change (String DQ (String ";" tail)) with ((dq +:+ ";") +:+ tail).
    rewrite startsWith_ci_app, drop_append.
    change (String "/" (p +:+ (dq +:+ ";") +:+ tail))
      with (String "/" p +:+ (dq +:+ ";") +:+ tail).
    rewrite consumed_append. now rewrite insert_empty.
Qed.


(** *** Texts on which the callbacks find nothing *)

Lemma requires_sound (q : ascii) (r : regex) :
  requires q r = true -> forall w, lang r w -> has_char q w = true.
Proof.
  induction r as [|a|greedy min a|r1 IH1 r2 IH2|n r IH]; intros H w L;
    cbn [requires] in H; try discriminate.
  - destruct a as [c| |]; try discriminate.
    inversion L as [|a x Hx| | |]; subst. cbn [accepts] in Hx.
    apply Ascii.eqb_eq in Hx as <-. cbn [has_char]. now rewrite H.
  - inversion L as [| | |r3 r4 w1 w2 L1 L2|]; subst. rewrite has_char_app.
    apply orb_true_iff in H as [H|H].
    + now rewrite (IH1 H w1 L1).
    + rewrite (IH2 H w2 L2). apply orb_true_r.
  - inversion L; subst. now apply IH.
Qed.

Lemma exec_group1_requires (q : ascii) (r : regex) (s : string) :
  requires q r = true -> has_char q s = false -> exec_group1 r s = None.
Proof.
  intros Hr Hs. unfold exec_group1. rewrite search_none; [reflexivity|].
  intros a b ->. destruct (match_here r b) as [[rest caps]|] eqn:E; [|reflexivity].
  apply match_here_sound in E as (w & -> & L).
  apply (requires_sound q r Hr) in L.
  rewrite !has_char_app, L, orb_true_r in Hs. discriminate.
Qed.

(** *** The matcher finds a match wherever the pattern has one *)

Lemma rep_complete {R : Type} (greedy : bool) (a : atom) (w rest : string)
    (k : string -> option R) :
  all_accept a w = true -> is_Some (k rest) ->
  forall min, (min <= String.length w)%nat -> is_Some (rep greedy a min (w +:+ rest) k).
Proof.
  intros Hw Hk. induction w as [|c w IH]; intros min Hmin.
  - simpl in Hmin. assert (min = 0%nat) as -> by lia.
    change ("" +:+ rest) with rest. destruct Hk as [res Hk].
    destruct greedy, rest as [|c rest]; cbn [rep]; rewrite ?Hk; eauto.
    destruct (if accepts a c then rep true a (Nat.pred 0) rest k else None); eauto.
  - change (String c w +:+ rest) with (String c (w +:+ rest)).
    cbn [all_accept] in Hw. apply andb_prop in Hw as [Hc Hw].
    destruct (IH Hw (Nat.pred min) ltac:(simpl in Hmin; lia)) as [res Hres].
    destruct greedy; cbn [rep]; rewrite Hc, Hres; [eauto|].
    destruct (match min with O => k (String c (w +:+ rest)) | S _ => None end); eauto.
Qed.

Lemma run_complete {R : Type} (r : regex) (w : string) :
  lang r w ->
  forall (rest : string) (caps : gmap nat string)
         (k : string -> gmap nat string -> option R),
    (forall c, is_Some (k rest c)) -> is_Some (run r (w +:+ rest) caps k).
Proof.
  induction 1 as [|a c Hc|greedy min a w Hw Hmin|r1 r2 w1 w2 L1 IH1 L2 IH2|n r w L IH];
    intros rest caps k Hk; cbn [run].
  - apply Hk.
  - change (is_Some (if accepts a c then k rest caps else None)). rewrite Hc. apply Hk.
  - apply rep_complete; auto.
  - rewrite append_assoc. apply IH1. intros c. now apply IH2.
  - apply IH. intros c. apply Hk.
Qed.

Lemma match_here_complete (r : regex) (w rest : string) :
  lang r w -> is_Some (match_here r (w +:+ rest)).
Proof. intros L. apply run_complete; eauto. Qed.

Lemma group_free_ci_lits (p : string) : group_free (ci_lits p) = true.
Proof. induction p as [|c p IH]; [reflexivity | exact IH]. Qed.

Lemma lang_ci_lits_self (p : string) : lang (ci_lits p) p.
Proof.
  induction p as [|c p IH]; cbn [ci_lits]; [constructor|].
  change (String c p) with (String c "" +:+ p).
  constructor; [|exact IH]. constructor. apply ci_atom_self.
Qed.


Lemma lang_ci_lits_app (a b : string) :
  forall w, lang (ci_lits (a +:+ b)) w ->
            exists wa wb, w = wa +:+ wb /\ lang (ci_lits a) wa /\ lang (ci_lits b) wb.
Proof.
  induction a as [|c a IH]; intros w H.
  - exists "", w. repeat split; auto. constructor.
  - change (String c a +:+ b) with (String c (a +:+ b)) in H. cbn [ci_lits] in H.
    inversion H as [| | |r1 r2 w1 w2 L1 L2|]; subst.
    destruct (IH _ L2) as (wa & wb & -> & La & Lb).
    exists (w1 +:+ wa), wb. rewrite append_assoc. repeat split; auto.
    cbn [ci_lits]. now constructor.
Qed.

Lemma lang_ci_lits_caseless (p : string) :
  caseless p = true -> forall w, lang (ci_lits p) w -> w = p.
Proof.
  induction p as [|c p IH]; intros Hp w H; cbn [ci_lits] in H.
  - now inversion H.
  - cbn [caseless] in Hp. apply andb_prop in Hp as [Hc Hp].
    apply Ascii.eqb_eq in Hc.
    inversion H as [| | |r1 r2 w1 w2 L1 L2|]; subst.
    inversion L1 as [|a x Hx| | |]; subst.
    rewrite ci_atom_exact in Hx by exact Hc. apply Ascii.eqb_eq in Hx as <-.
    simpl. f_equal. now apply IH.
Qed.

(** *** What a match of the callbacks' patterns looks like *)

Lemma inline_html_regex_here (s rest : string) (caps : gmap nat string) :
  match_here inline_html_regex s = Some (rest, caps) ->
  exists h p, s = h +:+ "[" +:+ p +:+ "]-->" +:+ rest /\ caps = {[1%nat := p]}.
Proof.
  unfold match_here, inline_html_regex. cbn [run]. intros H.
  apply (run_group_free_sound _ (group_free_ci_lits _)) in H as (h & s1 & -> & Lh & H).
  apply rep_sound in H as (p & s2 & -> & _ & _ & H).
  apply (run_group_free_sound _ (group_free_ci_lits _)) in H as (t & s3 & -> & Lt & H).
  rewrite consumed_append, insert_empty in H. injection H as <- <-.
  apply (lang_ci_lits_caseless "]-->" eq_refl) in Lt as ->.
  apply (lang_ci_lits_app "<!--inline" "[") in Lh as (h1 & h2 & -> & _ & Lh).
  apply (lang_ci_lits_caseless "[" eq_refl) in Lh as ->.
  exists h1, p. split; [|reflexivity]. now rewrite !append_assoc.
Qed.

Lemma inline_script_regex_here (s rest : string) (caps : gmap nat string) :
  match_here inline_script_regex s = Some (rest, caps) ->
  exists h pkg t,
    s = h +:+ "=" +:+ dq +:+ pkg +:+ "?" +:+ t +:+ rest /\ caps = {[1%nat := pkg]}.
Proof.
  unfold match_here, inline_script_regex. cbn [run]. intros H.
  apply (run_group_free_sound _ (group_free_ci_lits _)) in H as (h & s1 & -> & _ & H).
  apply rep_sound in H as (a & s2 & -> & _ & _ & H).
  apply (run_group_free_sound _ (group_free_ci_lits _)) in H as (src & s3 & -> & Ls & H).
  apply rep_sound in H as (pkg & s4 & -> & _ & _ & H).
  apply (run_group_free_sound _ (group_free_ci_lits _)) in H as (t & s5 & -> & Lt & H).
  rewrite consumed_append, insert_empty in H. injection H as <- <-.
  apply (lang_ci_lits_app "src" ("=" +:+ dq)) in Ls as (x1 & x2 & -> & _ & Ls).
  apply (lang_ci_lits_caseless ("=" +:+ dq) eq_refl) in Ls as ->.
  apply (lang_ci_lits_app "?" ("__inline" +:+ dq)) in Lt as (y1 & y2 & -> & Lt & _).
  apply (lang_ci_lits_caseless "?" eq_refl) in Lt as ->.
  exists (h +:+ a +:+ x1), pkg, y2. split; [|reflexivity].
  now rewrite !append_assoc.
Qed.

Lemma import_regex_here (s rest : string) (caps : gmap nat string) :
  match_here import_regex s = Some (rest, caps) ->
  exists h p,
    s = h +:+ dq +:+ "/" +:+ p +:+ dq +:+ ";" +:+ rest
    /\ caps = {[1%nat := "/" +:+ p]}.
Proof.
  unfold match_here, import_regex. cbn [run]. intros H.
  apply (run_group_free_sound _ (group_free_ci_lits _)) in H as (h & s1 & -> & _ & H).
  apply rep_sound in H as (ws & s2 & -> & _ & _ & H).
  destruct s2 as [|c s2]; [discriminate|].
  destruct (accepts (Chr DQ) c) eqn:Ec; [|discriminate].
  cbn [accepts] in Ec. apply Ascii.eqb_eq in Ec as <-.
  destruct s2 as [|c s2]; [discriminate|].
  destruct (accepts (Chr "/") c) eqn:Ec; [|discriminate].
  cbn [accepts] in Ec. apply Ascii.eqb_eq in Ec as <-.
  apply rep_sound in H as (p & s3 & -> & _ & _ & H).
  apply (run_group_free_sound _ (group_free_ci_lits _)) in H as (t & s4 & -> & Lt & H).
  change (String "/" (p +:+ t +:+ s4)) with (("/" +:+ p) +:+ t +:+ s4) in H.
  rewrite consumed_append, insert_empty in H. injection H as <- <-.
  apply (lang_ci_lits_caseless (dq +:+ ";") eq_refl) in Lt as ->.
  exists (h +:+ ws), p. split; [|reflexivity].
  rewrite !append_assoc. reflexivity.
Qed.


(** *** The callbacks of [setHtmlRule] and [setScssRule] *)

(** X1. On an inline comment [<!--inline[p]-->], followed by any text,
    whose path [p] holds no closing bracket and no line terminator, the
    callback of the inline-html rule of [setHtmlRule] returns the
    [require] of [raw-loader] on [p], with [../..] put before a path
    that starts with a slash and nothing before any other path (the
    empty path included). *)
Theorem X1_inline_html_replacement_path (p tail : string) :
  all_accept Dot p = true -> has_char "]" p = false ->
  inline_html_replacement ("<!--inline[" +:+ p +:+ "]-->" +:+ tail)
  = "${require('raw-loader!"
    +:+ (if Str.startsWith p "/" then "../.." +:+ p else p) +:+ "')}".
Proof.
  intros Hp Hb. unfold inline_html_replacement.
  rewrite (exec_group1_here _ _ _ _ (inline_html_match p tail Hp Hb)).
  now destruct (Str.startsWith p "/").
Qed.

Lemma X1_inline_html_replacement_path_witness :
  inline_html_replacement "<!--inline[/assets/inline/meta.html]-->"
  = "${require('raw-loader!../../assets/inline/meta.html')}".
Proof.
  exact (X1_inline_html_replacement_path "/assets/inline/meta.html" "" eq_refl eq_refl).
Defined.

(** X2. On a script tag that reads [<script], attributes, [src=], a
    double quote, a package, [?__inline] and a double quote, where
    neither the attributes nor the package hold a double quote or a
    line terminator, the callback of the inline-script rule of
    [setHtmlRule] returns a script element that requires the package
    through [raw-loader] and [babel-loader]; what follows the closing
    double quote plays no part. *)
Theorem X2_inline_script_replacement_package (attrs pkg tail : string) :
  all_accept Dot attrs = true -> has_char DQ attrs = false ->
  all_accept Dot pkg = true -> has_char DQ pkg = false ->
  inline_script_replacement
    ("<script" +:+ attrs +:+ "src=" +:+ dq +:+ pkg +:+ "?__inline" +:+ dq +:+ tail)
  = "<script>${require('raw-loader!babel-loader!" +:+ pkg +:+ "')}</script>".
Proof.
  intros Ha Hqa Hp Hqp. unfold inline_script_replacement.
  change ("<script" +:+ attrs +:+ "src=" +:+ dq +:+ pkg +:+ "?__inline" +:+ dq +:+ tail)
    with ("<script" +:+ attrs +:+ "src="
          +:+ String DQ (pkg +:+ "?__inline" +:+ String DQ tail)).
  now rewrite (exec_group1_here _ _ _ _ (inline_script_match attrs pkg tail Ha Hqa Hp Hqp)).
Qed.

Lemma X2_inline_script_replacement_package_witness :
  inline_script_replacement
    ("<script src=" +:+ dq +:+ "@tencent/report?__inline" +:+ dq +:+ "></script>")
  = "<script>${require('raw-loader!babel-loader!@tencent/report')}</script>".
Proof.
  exact (X2_inline_script_replacement_package " " "@tencent/report" "></script>"
           eq_refl eq_refl eq_refl eq_refl).
Defined.

(** X3. On an import of an absolute path, that is [@import], any
    white space, and between double quotes a slash and a path [P],
    then a semicolon and any text, where [P] holds no double quote and
    no line terminator, the callback of the replacement of
    [setScssRule] returns the import of [P]: the leading slash is gone,
    the white space is one blank, what follows the semicolon is
    dropped. *)
Theorem X3_import_replacement_relative (ws p tail : string) :
  all_accept (Cls false whiteSpace) ws = true ->
  all_accept Dot p = true -> has_char DQ p = false ->
  import_replacement
    ("@import" +:+ ws +:+ dq +:+ "/" +:+ p +:+ dq +:+ ";" +:+ tail)
  = "@import " +:+ dq +:+ p +:+ dq +:+ ";".
Proof.
  intros Hws Hp Hq. unfold import_replacement.
  change ("@import" +:+ ws +:+ dq +:+ "/" +:+ p +:+ dq +:+ ";" +:+ tail)
    with ("@import" +:+ ws
          +:+ String DQ (String "/" (p +:+ String DQ (String ";" tail)))).
  now rewrite (exec_group1_here _ _ _ _ (import_match ws p tail Hws Hp Hq)).
Qed.

Lemma X3_import_replacement_relative_witness :
  import_replacement ("@import   " +:+ dq +:+ "/assets/css/mixin" +:+ dq +:+ ";")
  = "@import " +:+ dq +:+ "assets/css/mixin" +:+ dq +:+ ";".
Proof.
  exact (X3_import_replacement_relative "   " "assets/css/mixin" "" eq_refl eq_refl eq_refl).
Defined.

(** X4. On a text that holds no double quote and no opening bracket,
    none of the three callbacks finds its pattern, and each splices the
    word [null] where the path belongs. *)
Theorem X4_replacements_without_match (s : string) :
  has_char DQ s = false -> has_char "[" s = false ->
  inline_script_replacement s
  = "<script>${require('raw-loader!babel-loader!null')}</script>"
  /\ inline_html_replacement s = "${require('raw-loader!null')}"
  /\ import_replacement s = "@import " +:+ dq +:+ "null" +:+ dq +:+ ";".
Proof.
  intros Hq Hb.
  unfold inline_script_replacement, inline_html_replacement, import_replacement.
  rewrite (exec_group1_requires DQ inline_script_regex s eq_refl Hq).
  rewrite (exec_group1_requires "[" inline_html_regex s eq_refl Hb).
  rewrite (exec_group1_requires DQ import_regex s eq_refl Hq).
  auto.
Qed.

Lemma X4_replacements_without_match_witness :
  inline_script_replacement "<script src=a.js></script>"
  = "<script>${require('raw-loader!babel-loader!null')}</script>"
  /\ inline_html_replacement "<script src=a.js></script>" = "${require('raw-loader!null')}"
  /\ import_replacement "<script src=a.js></script>"
     = "@import " +:+ dq +:+ "null" +:+ dq +:+ ";".
Proof.
  exact (X4_replacements_without_match "<script src=a.js></script>" eq_refl eq_refl).
Defined.

Lemma exec_group1_found (r : regex) (w : string) :
  lang r w ->
  exists rest caps, match_here r w = Some (rest, caps)
                    /\ exec_group1 r w = Some (default "" (caps !! 1%nat)).
Proof.
  intros L. destruct (match_here_complete r w "" L) as [[rest caps] E].
  rewrite append_nil_r in E. exists rest, caps. split; [exact E|].
  unfold exec_group1. now rewrite (search_here _ _ _ "" _ E).
Qed.

(** X5. Whatever text the inline-script pattern of [setHtmlRule]
    matches, from its start to its end, the callback of that rule finds
    a package in it: the result requires a text [PKG] that stands in
    the match between [=], a double quote, and a question mark. *)
Theorem X5_inline_script_replacement_on_match (w : string) :
  lang inline_script_pattern w ->
  exists pkg,
    occurs ("=" +:+ dq +:+ pkg +:+ "?") w
    /\ inline_script_replacement w
       = "<script>${require('raw-loader!babel-loader!" +:+ pkg +:+ "')}</script>".
Proof.
  intros L. unfold inline_script_pattern in L.
  inversion L as [| | |r1 r2 w1 x1 L1 M1|]; subst.
  inversion M1 as [| | |r1 r2 w2 x2 L2 M2|]; subst.
  inversion M2 as [| | |r1 r2 w3 x3 L3 M3|]; subst.
  inversion M3 as [| | |r1 r2 w4 x4 L4 M4|]; subst.
  inversion M4 as [| | |r1 r2 w5 x5 L5 M5|]; subst.
  assert (Li : lang inline_script_regex (w1 +:+ w2 +:+ w3 +:+ w4 +:+ w5))
    by (unfold inline_script_regex; repeat (constructor; [assumption|]); assumption).
  destruct (match_here_complete inline_script_regex _ x5 Li) as [[rest caps] E].
  rewrite !append_assoc in E.
  destruct (inline_script_regex_here _ _ _ E) as (h & pkg & t & Hs & ->).
  exists pkg. split.
  - exists h, (t +:+ rest). rewrite Hs, !append_assoc. reflexivity.
  - unfold inline_script_replacement.
    now rewrite (exec_group1_here _ _ _ _ E).
Qed.

Lemma X5_inline_script_replacement_on_match_witness :
  exists pkg,
    occurs ("=" +:+ dq +:+ pkg +:+ "?")
      ("<SCRIPT src=" +:+ dq +:+ "a?__inline" +:+ dq +:+ "></script>")
    /\ inline_script_replacement
         ("<SCRIPT src=" +:+ dq +:+ "a?__inline" +:+ dq +:+ "></script>")
       = "<script>${require('raw-loader!babel-loader!" +:+ pkg +:+ "')}</script>".
Proof.
  apply X5_inline_script_replacement_on_match.
  destruct (match_here inline_script_pattern
              ("<SCRIPT src=" +:+ dq +:+ "a?__inline" +:+ dq +:+ "></script>"))
    as [[rest caps]|] eqn:E; [|vm_compute in E; discriminate E].
  pose proof E as (w & Hw & L)%match_here_sound.
  assert (rest = "") as -> by (vm_compute in E; now injection E as <- _).
  rewrite append_nil_r in Hw. now rewrite Hw.
Defined.


(** X6. Whatever text the inline-html pattern of [setHtmlRule]
    matches, from its start to its end, the callback of that rule finds
    a path in it: a text [P] that stands in the match between an
    opening bracket and the closing [\]-->], required through
    [raw-loader] with [../..] before it when it starts with a slash. *)
Theorem X6_inline_html_replacement_on_match (w : string) :
  lang inline_html_pattern w ->
  exists p,
    occurs ("[" +:+ p +:+ "]-->") w
    /\ inline_html_replacement w
       = "${require('raw-loader!"
         +:+ (if Str.startsWith p "/" then "../.." +:+ p else p) +:+ "')}".
Proof.
  intros L. unfold inline_html_pattern in L.
  inversion L as [| | |r1 r2 w1 x1 L1 M1|]; subst.
  inversion M1 as [| | |r1 r2 w2 x2 L2 M2|]; subst.
  assert (Li : lang inline_html_regex (w1 +:+ w2 +:+ x2))
    by (unfold inline_html_regex; apply lang_Cat; [exact L1|];
        apply lang_Cat; [apply lang_Grp; exact L2 | exact M2]).
  destruct (match_here_complete inline_html_regex _ "" Li) as [[rest caps] E].
  rewrite append_nil_r in E.
  destruct (inline_html_regex_here _ _ _ E) as (h & p & Hs & ->).
  exists p. split.
  - exists h, rest. rewrite Hs, !append_assoc. reflexivity.
  - unfold inline_html_replacement.
    rewrite (exec_group1_here _ _ _ _ E). now destruct (Str.startsWith p "/").
Qed.

Lemma X6_inline_html_replacement_on_match_witness :
  exists p,
    occurs ("[" +:+ p +:+ "]-->") "<!--INLINE[a.html]-->"
    /\ inline_html_replacement "<!--INLINE[a.html]-->"
       = "${require('raw-loader!"
         +:+ (if Str.startsWith p "/" then "../.." +:+ p else p) +:+ "')}".
Proof.
  apply X6_inline_html_replacement_on_match.
  destruct (match_here inline_html_pattern "<!--INLINE[a.html]-->")
    as [[rest caps]|] eqn:E; [|vm_compute in E; discriminate E].
  pose proof E as (w & Hw & L)%match_here_sound.
  assert (rest = "") as -> by (vm_compute in E; now injection E as <- _).
  rewrite append_nil_r in Hw. now rewrite Hw.
Defined.

(** X7. Whatever text the import pattern of [setScssRule] matches,
    from its start to its end, the callback finds the path again and
    removes its leading slash: the result imports a text [P] such that
    a double quote, a slash, [P], a double quote and a semicolon stand
    in the match.  The callback never answers with [null] to a text
    that the pattern selected. *)
Theorem X7_import_replacement_on_match (w : string) :
  lang import_regex w ->
  exists p,
    occurs (dq +:+ "/" +:+ p +:+ dq +:+ ";") w
    /\ import_replacement w = "@import " +:+ dq +:+ p +:+ dq +:+ ";".
Proof.
  intros L.
  destruct (match_here_complete import_regex _ "" L) as [[rest caps] E].
  rewrite append_nil_r in E.
  destruct (import_regex_here _ _ _ E) as (h & p & Hs & ->).
  exists p. split.
  - exists h, rest. rewrite Hs, !append_assoc. reflexivity.
  - unfold import_replacement. now rewrite (exec_group1_here _ _ _ _ E).
Qed.

Lemma X7_import_replacement_on_match_witness :
  exists p,
    occurs (dq +:+ "/" +:+ p +:+ dq +:+ ";")
      ("@IMPORT " +:+ dq +:+ "/assets/css/mixin" +:+ dq +:+ ";")
    /\ import_replacement ("@IMPORT " +:+ dq +:+ "/assets/css/mixin" +:+ dq +:+ ";")
       = "@import " +:+ dq +:+ p +:+ dq +:+ ";".
Proof.
  apply X7_import_replacement_on_match.
  destruct (match_here import_regex
              ("@IMPORT " +:+ dq +:+ "/assets/css/mixin" +:+ dq +:+ ";"))
    as [[rest caps]|] eqn:E; [|vm_compute in E; discriminate E].
  pose proof E as (w & Hw & L)%match_here_sound.
  assert (rest = "") as -> by (vm_compute in E; now injection E as <- _).
  rewrite append_nil_r in Hw. now rewrite Hw.
Defined.

End CallbackFacts.

(** ** More on [setMultiplePage] *)
Section PlanFacts.
Import BuilderCore RegExp.
Variable projectRoot : string.
Variable existsSync : string -> bool.
Variables minifyHtml inject inlineCSS : bool.
Variables assetsPrefix htmlPrefix : string.

Let addPage' := addPage projectRoot existsSync minifyHtml inject inlineCSS
                  assetsPrefix htmlPrefix.
Let plan := setMultiplePage projectRoot existsSync minifyHtml inject inlineCSS
              assetsPrefix htmlPrefix.
Let instance_of := instantiates projectRoot existsSync inject assetsPrefix htmlPrefix.

Lemma plan_plugin_origin (entries : list string) (p : HtmlWebpackPlugin.options) :
  p ∈ htmlWebpackPlugins (plan entries) ->
  exists e, e ∈ entries /\ instance_of e p.
Proof.
  intros (i & Hi)%list_elem_of_lookup.
  destruct (plan_spec projectRoot existsSync minifyHtml inject inlineCSS
              assetsPrefix htmlPrefix entries) as (Hall & _).
  destruct (Forall2_lookup_r _ _ _ _ _ Hall Hi) as (e & He & Hinst).
  exists e. split; [|exact Hinst]. apply list_elem_of_lookup. eauto.
Qed.

Lemma plan_entry_plugin (entries : list string) (e : string) :
  e ∈ entries ->
  exists p, p ∈ htmlWebpackPlugins (plan entries) /\ instance_of e p.
Proof.
  intros (i & Hi)%list_elem_of_lookup.
  destruct (plan_spec projectRoot existsSync minifyHtml inject inlineCSS
              assetsPrefix htmlPrefix entries) as (Hall & _).
  destruct (Forall2_lookup_l _ _ _ _ _ Hall Hi) as (p & Hp & Hinst).
  exists p. split; [|exact Hinst]. apply list_elem_of_lookup. eauto.
Qed.

(** An entry that later directories do not bind again stays as it is. *)
Lemma fold_newEntry_other (entries : list string) (k : string) :
  (forall e, e ∈ entries -> Str.of_nullable (pageName_of e) = k ->
             existsSync (e +:+ "/init.js") = false) ->
  forall acc, newEntry (fold_left addPage' entries acc) !! k = newEntry acc !! k.
Proof.
  induction entries as [|e entries IH]; intros H acc; [reflexivity|].
  cbn [fold_left]. rewrite IH by (intros e' Hin; apply H; now right).
  unfold addPage', addPage. cbn [newEntry].
  destruct (existsSync (e +:+ "/init.js")) eqn:Ex; [|reflexivity].
  rewrite assign_lookup.
  destruct (String.eqb (Str.of_nullable (pageName_of e)) Obj.proto); [reflexivity|].
  destruct (String.eqb (Str.of_nullable (pageName_of e)) k) eqn:Hk; [|reflexivity].
  apply String.eqb_eq in Hk. rewrite (H e) in Ex; [discriminate|now left|exact Hk].
Qed.

(** X8. In the plan of [setMultiplePage], a template instantiation
    with injection on has its chunk as a key of the entry map, unless
    the chunk is [__proto__], which is never a key: apart from that
    name, nothing is injected into a page for which no entry script is
    built. *)
Theorem X8_setMultiplePage_injected_chunk_has_entry
    (entries : list string) (p : HtmlWebpackPlugin.options) :
  p ∈ htmlWebpackPlugins (plan entries) ->
  HtmlWebpackPlugin.inject p = true ->
  exists pageName,
    HtmlWebpackPlugin.chunks p = [pageName]
    /\ (is_Some (newEntry (plan entries) !! Str.of_nullable pageName)
        <-> Str.of_nullable pageName <> "__proto__").
Proof.
  intros (e & Hin & Hc & Hi & _)%plan_plugin_origin Hinj.
  exists (pageName_of e). split; [exact Hc|].
  rewrite Hinj in Hi. symmetry in Hi. apply andb_prop in Hi as [_ Hex].
  destruct (plan_spec projectRoot existsSync minifyHtml inject inlineCSS
              assetsPrefix htmlPrefix entries) as (_ & _ & Hpresent & Hproto).
  split.
  - intros [v Hv] E. fold plan in Hproto. rewrite E in Hv. congruence.
  - now apply Hpresent.
Qed.

(** X9. Every key of the entry map is the chunk of a template
    instantiation of the same plan, whose output file is named after
    the key and whose injection flag is the [inject] argument: no
    entry script is built without a page. *)
Theorem X9_setMultiplePage_entry_has_page
    (entries : list string) (k script : string) :
  newEntry (plan entries) !! k = Some script ->
  exists p pageName,
    p ∈ htmlWebpackPlugins (plan entries)
    /\ HtmlWebpackPlugin.chunks p = [pageName]
    /\ Str.of_nullable pageName = k
    /\ HtmlWebpackPlugin.filename p
       = (if Str.truthy htmlPrefix then htmlPrefix +:+ "/" else "") +:+ k +:+ ".html"
    /\ HtmlWebpackPlugin.inject p = inject.
Proof.
  intros H.
  apply (plan_spec projectRoot existsSync minifyHtml inject inlineCSS
           assetsPrefix htmlPrefix entries) in H as (e & Hin & Hk & _ & Hex).
  destruct (plan_entry_plugin entries e Hin) as (p & Hp & Hc & Hi & Hf & _).
  exists p, (pageName_of e). repeat split; auto.
  - now rewrite Hf, Hk.
  - now rewrite Hi, Hex, andb_true_r.
Qed.

(** X10. When several directories have the same page name, other
    than [__proto__], the entry map binds the name to the entry script
    of the last one that has one: a directory with an entry script,
    followed only by directories that have another page name or no
    entry script, owns its key. *)
Theorem X10_setMultiplePage_last_directory_wins
    (before : list string) (e : string) (later : list string) :
  Str.of_nullable (pageName_of e) <> "__proto__" ->
  existsSync (e +:+ "/init.js") = true ->
  (forall e', e' ∈ later ->
              Str.of_nullable (pageName_of e') = Str.of_nullable (pageName_of e) ->
              existsSync (e' +:+ "/init.js") = false) ->
  newEntry (plan (before ++ e :: later)) !! Str.of_nullable (pageName_of e)
  = Some (e +:+ "/init.js").
Proof.
  intros Hp Hex Hlater. unfold plan, setMultiplePage. fold addPage'.
  rewrite fold_left_app. cbn [fold_left].
  rewrite (fold_newEntry_other later _ Hlater).
  unfold addPage' at 1, addPage. cbn [newEntry]. rewrite Hex, assign_lookup.
  apply String.eqb_neq in Hp. unfold Obj.proto. now rewrite Hp, String.eqb_refl.
Qed.

(** X11. Two template instantiations of a plan write the same output
    file exactly when their page names print the same; a page called
    [null] and a directory outside the convention therefore share
    [null.html]. *)
Theorem X11_setMultiplePage_same_file_same_name
    (entries : list string) (p1 p2 : HtmlWebpackPlugin.options)
    (c1 c2 : option string) :
  p1 ∈ htmlWebpackPlugins (plan entries) ->
  p2 ∈ htmlWebpackPlugins (plan entries) ->
  HtmlWebpackPlugin.chunks p1 = [c1] ->
  HtmlWebpackPlugin.chunks p2 = [c2] ->
  (HtmlWebpackPlugin.filename p1 = HtmlWebpackPlugin.filename p2
   <-> Str.of_nullable c1 = Str.of_nullable c2).
Proof.
  intros (e1 & _ & Hc1 & _ & Hf1 & _)%plan_plugin_origin
         (e2 & _ & Hc2 & _ & Hf2 & _)%plan_plugin_origin E1 E2.
  rewrite Hc1 in E1. rewrite Hc2 in E2. injection E1 as <-. injection E2 as <-.
  rewrite Hf1, Hf2. split.
  - intros H. apply append_inv_head in H. now apply append_inv_tail in H.
  - now intros ->.
Qed.
End PlanFacts.

Section PlanWitnesses.
Import BuilderCore.

Lemma X8_setMultiplePage_injected_chunk_has_entry_witness :
  let disk := fun f => String.eqb f "/proj/src/pages/b/init.js" in
  let plan := setMultiplePage "/proj" disk false true false "assets" ""
                ["/proj/src/pages/a"; "/proj/src/pages/b"] in
  is_Some (newEntry plan !! "b").
Proof.
  intros disk plan.
  destruct (X8_setMultiplePage_injected_chunk_has_entry "/proj" disk false true false
              "assets" "" ["/proj/src/pages/a"; "/proj/src/pages/b"]
              {| HtmlWebpackPlugin.inlineSource := None;
                 HtmlWebpackPlugin.template := "/proj/src/pages/b/index.html";
                 HtmlWebpackPlugin.filename := "b.html";
                 HtmlWebpackPlugin.chunks := [Some "b"];
                 HtmlWebpackPlugin.assetsPrefix := "assets/";
                 HtmlWebpackPlugin.inject := true;
                 HtmlWebpackPlugin.minify := None |})
    as (pageName & Hc & Hk).
  - vm_compute. right. left.
  - reflexivity.
  - cbn [HtmlWebpackPlugin.chunks] in Hc. injection Hc as <-.
    apply Hk. discriminate.
Defined.

Lemma X9_setMultiplePage_entry_has_page_witness :
  let disk := fun f => String.eqb f "/proj/src/pages/b/init.js" in
  let plan := setMultiplePage "/proj" disk false true false "assets" "html"
                ["/proj/src/pages/a"; "/proj/src/pages/b"] in
  exists p pageName,
    p ∈ htmlWebpackPlugins plan
    /\ HtmlWebpackPlugin.chunks p = [pageName]
    /\ Str.of_nullable pageName = "b"
    /\ HtmlWebpackPlugin.filename p = "html/b.html"
    /\ HtmlWebpackPlugin.inject p = true.
Proof.
  intros disk plan.
  apply (X9_setMultiplePage_entry_has_page "/proj" disk false true false "assets" "html"
           ["/proj/src/pages/a"; "/proj/src/pages/b"] "b" "/proj/src/pages/b/init.js").
  vm_compute. reflexivity.
Defined.

Lemma X10_setMultiplePage_last_directory_wins_witness :
  newEntry (setMultiplePage "/proj" (fun _ => true) false true false "assets" ""
              ["/one/pages/a"; "/two/pages/a"; "/two/pages/b"]) !! "a"
  = Some "/two/pages/a/init.js".
Proof.
  apply (X10_setMultiplePage_last_directory_wins "/proj" (fun _ => true) false true false
           "assets" "" ["/one/pages/a"] "/two/pages/a" ["/two/pages/b"]);
    [vm_compute; discriminate | reflexivity |].
  intros e' Hin Hk. apply list_elem_of_singleton in Hin as ->.
  vm_compute in Hk. discriminate Hk.
Defined.

Lemma X11_setMultiplePage_same_file_same_name_witness :
  let outside :=
    {| HtmlWebpackPlugin.inlineSource := None;
       HtmlWebpackPlugin.template := "/proj/src/pages/null/index.html";
       HtmlWebpackPlugin.filename := "null.html";
       HtmlWebpackPlugin.chunks := [None];
       HtmlWebpackPlugin.assetsPrefix := "assets/";
       HtmlWebpackPlugin.inject := false;
       HtmlWebpackPlugin.minify := None |} in
  let page :=
    {| HtmlWebpackPlugin.inlineSource := None;
       HtmlWebpackPlugin.template := "/proj/src/pages/null/index.html";
       HtmlWebpackPlugin.filename := "null.html";
       HtmlWebpackPlugin.chunks := [Some "null"];
       HtmlWebpackPlugin.assetsPrefix := "assets/";
       HtmlWebpackPlugin.inject := false;
       HtmlWebpackPlugin.minify := None |} in
  htmlWebpackPlugins
    (setMultiplePage "/proj" (fun _ => false) false true false "assets" ""
       ["/proj/lib"; "/proj/src/pages/null"]) = [outside; page]
  /\ (HtmlWebpackPlugin.filename outside = HtmlWebpackPlugin.filename page
      <-> Str.of_nullable None = Str.of_nullable (Some "null")).
Proof.
  intros outside page. split; [vm_compute; reflexivity|].
  apply (X11_setMultiplePage_same_file_same_name "/proj" (fun _ => false) false true false
           "assets" "" ["/proj/lib"; "/proj/src/pages/null"]).
  - vm_compute. left.
  - vm_compute. right. left.
  - reflexivity.
  - reflexivity.
Defined.
End PlanWitnesses.

(** ** The domain rules on a reference *)
Section ReferenceFacts.
Import BuilderCore RegExp.

Lemma run_atoms_exact {R : Type} (l : list atom) (rest : string)
    (caps : gmap nat string) (k : string -> gmap nat string -> option R) :
  forall h, lang (atoms l) h -> run (atoms l) (h +:+ rest) caps k = k rest caps.
Proof.
  induction l as [|a l IH]; intros h L; cbn [atoms] in L.
  - now inversion L.
  - inversion L as [| | |r1 r2 w1 w2 L1 L2|]; subst.
    inversion L1 as [|a' c Hc| | |]; subst.
    change (run (atoms (a :: l)) (String c (w2 +:+ rest)) caps k = k rest caps).
    cbn [atoms run]. rewrite Hc. now apply IH.
Qed.

Lemma terminator_class (q : ascii) :
  existsb (Ascii.eqb q) terminators = true ->
  accepts (Cls true terminators) q = false
  /\ accepts (Cls false [DQ; "'"; "`"; ")"]%char) q = true.
Proof.
  intros Hq. unfold terminators in *. cbn [accepts xorb existsb] in *.
  destruct (Ascii.eqb q DQ), (Ascii.eqb q "'"), (Ascii.eqb q "`"), (Ascii.eqb q ")");
    simpl in Hq |- *; auto; discriminate.
Qed.

(** A reference: the head of the pattern, a non-empty path without
    terminator, a terminator. *)
Lemma reference_match_here (l : list atom) (h p post : string) (q : ascii) :
  lang (atoms l) h -> p <> "" ->
  all_accept (Cls true terminators) p = true ->
  existsb (Ascii.eqb q) terminators = true ->
  match_here (Cat (atoms l) reference_tail) (h +:+ p +:+ String q post)
  = Some (post, <[2%nat := String q ""]> (<[1%nat := p]> ∅)).
Proof.
  intros L Hp Hall Hq. destruct (terminator_class q Hq) as [Hno Hyes].
  unfold match_here. cbn [run]. rewrite run_atoms_exact by exact L.
  unfold reference_tail. cbn [run].
  apply rep_greedy_stop; [exact Hall|exact Hno| |].
  - rewrite Hyes, consumed_append.
    change (String q post) with (String q "" +:+ post).
    now rewrite consumed_append.
  - destruct p; [contradiction|]. simpl. lia.
Qed.

Lemma first_occurrence_after (c : ascii) (t pre b : string) :
  has_char c pre = false ->
  first_occurrence (String c t) (pre +:+ String c t +:+ b) pre b.
Proof.
  induction pre as [|x pre IH]; intros H.
  - now apply first_occurrence_here.
  - cbn [has_char] in H. apply orb_false_elim in H as [Hx H].
    change (String x pre +:+ String c t +:+ b)
      with (String x (pre +:+ String c t +:+ b)).
    apply first_occurrence_later. split; [|now apply IH].
    cbn [Str.startsWith]. now rewrite Hx.
Qed.

Lemma groups_reference (l : list atom) : groups (Cat (atoms l) reference_tail) = 2%nat.
Proof. cbn [groups]. now rewrite (groups_group_free _ (group_free_atoms l)). Qed.

(** One reference, in a text that holds no other: it is rewritten
    to the domain, path and terminator kept, and nothing else changes. *)
Lemma reference_rewrite (l : list atom) (domain pre h p post : string) (q : ascii) :
  no_dollar domain = true ->
  lang (atoms l) h ->
  (forall s, is_Some (match_here (Cat (atoms l) reference_tail) s) ->
             Str.startsWith s "//" = true) ->
  has_char "/" pre = false ->
  p <> "" -> all_accept (Cls true terminators) p = true ->
  existsb (Ascii.eqb q) terminators = true ->
  Str.includes post "//" = false ->
  replace_all (Cat (atoms l) reference_tail) (domain_template domain)
    (pre +:+ h +:+ p +:+ String q post)
  = pre +:+ "//" +:+ domain +:+ "/" +:+ p +:+ String q post.
Proof.
  intros Hd L Hanch Hpre Hp Hall Hq Hpost.
  pose proof (reference_match_here l h p post q L Hp Hall Hq) as Hm.
  assert (Hh : Str.startsWith (h +:+ p +:+ String q post) "//" = true)
    by (apply Hanch; rewrite Hm; eauto).
  apply startsWith_spec in Hh as [b Hb].
  assert (Hs : search (Cat (atoms l) reference_tail) "" (pre +:+ h +:+ p +:+ String q post)
               = Some {| before := pre;
                         matched := h +:+ p +:+ String q "";
                         captures := <[2%nat := String q ""]> (<[1%nat := p]> ∅);
                         after := post |}).
  { rewrite Hb in Hm |- *.
    rewrite (search_anchored _ "//" Hanch _ pre b "" _ _
               (first_occurrence_after "/" "/" pre b Hpre) Hm).
    rewrite <- Hb.
    change (String q post) with (String q "" +:+ post).
    now rewrite <- !append_assoc, consumed_append, !append_assoc. }
  unfold replace_all. cbn [replace_loop]. rewrite Hs. cbn [before matched after].
  assert (Hne : exists x m, h +:+ p +:+ String q "" = String x m).
  { destruct h as [|x h]; [|exists x, (h +:+ p +:+ String q ""); reflexivity].
    destruct p as [|x p]; [contradiction|]. exists x, (p +:+ String q ""). reflexivity. }
  destruct Hne as (x & m & Hne). rewrite Hne at 1. cbn [String.length Str.drop].
  rewrite replace_loop_none.
  - rewrite groups_reference. unfold domain_template.
    replace ("//" +:+ domain +:+ "/$1$2") with (("//" +:+ domain +:+ "/") +:+ "$1$2")
      by (now rewrite !append_assoc).
    rewrite GetSubstitution_plain by (rewrite !no_dollar_app, Hd; reflexivity).
    rewrite GetSubstitution_groups. unfold capture. cbn [captures].
    rewrite lookup_insert_ne, !lookup_insert_eq by lia. cbn [default from_option id].
    rewrite !append_assoc. reflexivity.
  - apply search_none. intros a b' ->.
    destruct (match_here _ b') as [[rest caps]|] eqn:E; [|reflexivity].
    assert (Hi : is_Some (match_here (Cat (atoms l) reference_tail) b')) by eauto.
    apply Hanch, startsWith_spec in Hi as [t ->].
    apply includes_false in Hpost. exfalso. apply Hpost. now exists a, t.
Qed.

Lemma lang_lits_self (p : string) : lang (lits p) p.
Proof.
  induction p as [|c p IH]; cbn [lits]; [constructor|].
  change (String c p) with (String c "" +:+ p).
  constructor; [|exact IH]. constructor. apply Ascii.eqb_refl.
Qed.

Lemma platform_regex_anchored (s : string) :
  is_Some (match_here platform_regex s) -> Str.startsWith s "//" = true.
Proof.
  intros [[rest caps] E]. apply match_here_sound in E as (w & -> & L).
  unfold platform_regex in L. inversion L as [| | |r1 r2 w1 w2 L1 L2|]; subst.
  now apply (lang_lits "//11.url.cn/now/") in L1 as ->.
Qed.

(** A pattern within the fragment matches its own text. *)
Lemma pattern_atoms_self (src : string) :
  forall l, pattern_atoms src = Some l -> lang (atoms l) src.
Proof.
  induction src as [|c src IH]; intros l H; cbn [pattern_atoms] in H.
  - injection H as <-. constructor.
  - destruct (pattern_atoms src) as [l'|]; [|discriminate].
    change (String c src) with (String c "" +:+ src).
    destruct (Ascii.eqb c ".") eqn:Ec.
    + injection H as <-. cbn [atoms]. constructor; [|now apply IH].
      constructor. apply Ascii.eqb_eq in Ec as ->. reflexivity.
    + destruct (syntaxCharacter c); [discriminate|]. injection H as <-.
      cbn [atoms]. constructor; [|now apply IH]. constructor. apply Ascii.eqb_refl.
Qed.

Lemma business_regex_anchored (cdn product : string) (regex : regex) (s : string) :
  business_regex cdn product = Some regex ->
  is_Some (match_here regex s) -> Str.startsWith s "//" = true.
Proof.
  intros Hr [[rest caps] E].
  now destruct (business_regex_here _ _ _ _ _ _ Hr E) as (u & v & g & q & -> & _).
Qed.

(** Rule 5 needs a script tag. *)
Lemma strip_integrity_no_script (x : string) :
  Str.includes x script_text = false -> strip_integrity x = x.
Proof.
  intros H%includes_false. unfold strip_integrity, replace.
  rewrite search_none; [reflexivity|]. intros a b ->.
  destruct (match_here integrity_regex b) as [[rest caps]|] eqn:E; [|reflexivity].
  exfalso. apply H. apply match_here_sound in E as (w & -> & L).
  unfold integrity_regex in L. inversion L as [| | |r1 r2 w1 w2 L1 L2|]; subst.
  inversion L1 as [| | | |n r w L3]; subst.
  inversion L3 as [| | |r3 r4 w3 w4 L4 L5|]; subst.
  apply (lang_lits "<script") in L4 as ->.
  exists a, (w4 +:+ w2 +:+ rest). now rewrite !append_assoc.
Qed.

Lemma substitute_platform_no_slashes (domain s : string) :
  Str.includes s "//" = false -> substitute_platform domain s = s.
Proof.
  intros Hs%includes_false. apply replace_all_none, search_none. intros a b ->.
  destruct (match_here platform_regex b) as [[rest caps]|] eqn:E; [|reflexivity].
  exfalso. apply Hs.
  assert (Hi : is_Some (match_here platform_regex b)) by eauto.
  apply platform_regex_anchored, startsWith_spec in Hi as [t ->]. now exists a, t.
Qed.

(** X12. Rule 1 of the markup branch of [beforeAddBuffer], on a text
    with one reference to the platform base ([//11.url.cn/now/], a
    non-empty path without terminator, a terminator), no slash before
    it and no [//] after it: the base becomes [//domain/], the path and
    the terminator stay, and so does all the rest.  [domain] holds no
    [$]. *)
Theorem X12_substitute_platform_reference
    (domain pre p post : string) (q : ascii) :
  no_dollar domain = true ->
  has_char "/" pre = false ->
  p <> "" -> all_accept (Cls true terminators) p = true ->
  existsb (Ascii.eqb q) terminators = true ->
  Str.includes post "//" = false ->
  substitute_platform domain (pre +:+ "//11.url.cn/now/" +:+ p +:+ String q post)
  = pre +:+ "//" +:+ domain +:+ "/" +:+ p +:+ String q post.
Proof.
  intros Hd Hpre Hp Hall Hq Hpost. unfold substitute_platform.
  assert (Hr : platform_regex = Cat (atoms (chr_atoms "//11.url.cn/now/")) reference_tail)
    by (unfold platform_regex; now rewrite lits_atoms).
  rewrite Hr. apply reference_rewrite; auto.
  - rewrite <- lits_atoms. apply lang_lits_self.
  - rewrite <- Hr. apply platform_regex_anchored.
Qed.

Lemma X12_substitute_platform_reference_witness :
  substitute_platform "now.qq.com"
    ("<link href=" +:+ dq +:+ "//11.url.cn/now/lib/base.css" +:+ dq +:+ ">")
  = "<link href=" +:+ dq +:+ "//now.qq.com/lib/base.css" +:+ dq +:+ ">".
Proof.
  exact (X12_substitute_platform_reference "now.qq.com" ("<link href=" +:+ dq)
           "lib/base.css" ">" DQ eq_refl eq_refl ltac:(discriminate)
           eq_refl eq_refl eq_refl).
Defined.

(** X13. [beforeAddBuffer] on a file that is not markup, whose text
    holds one reference to the business base ([//cdn/product/], a
    non-empty path without terminator, a terminator), no slash before
    it and no [//] after it: the base becomes [//domain/] and nothing
    else changes, whatever the clock reads.  [cdn] and [product] are
    pattern characters and [.]; [domain] holds no [$]. *)
Theorem X13_beforeAddBuffer_business_reference
    (htmlPrefix domain cdn product assetPath pre p post : string) (q : ascii) (now : Z) :
  Str.includes assetPath htmlPrefix = false ->
  plain_pattern cdn = true -> plain_pattern product = true ->
  no_dollar domain = true ->
  has_char "/" pre = false ->
  p <> "" -> all_accept (Cls true terminators) p = true ->
  existsb (Ascii.eqb q) terminators = true ->
  Str.includes post "//" = false ->
  beforeAddBuffer htmlPrefix domain cdn product now
    (pre +:+ ("//" +:+ cdn +:+ "/" +:+ product +:+ "/") +:+ p +:+ String q post)
    assetPath
  = Some (pre +:+ "//" +:+ domain +:+ "/" +:+ p +:+ String q post).
Proof.
  intros Hpath Hc Hpr Hd Hpre Hp Hall Hq Hpost.
  destruct (business_regex_defined cdn product Hc Hpr) as [regex Hr].
  unfold beforeAddBuffer. rewrite indexOf_test, Hpath, Hr. f_equal.
  pose proof Hr as Hr'. unfold business_regex in Hr'.
  destruct (pattern_atoms ("//" +:+ cdn +:+ "/" +:+ product +:+ "/")) as [l|] eqn:El;
    [|discriminate].
  injection Hr' as <-. unfold substitute_business.
  apply reference_rewrite; auto.
  - now apply pattern_atoms_self.
  - intros s. now apply (business_regex_anchored cdn product).
Qed.

Lemma X13_beforeAddBuffer_business_reference_witness :
  beforeAddBuffer "html" "static.example.com" "cdn.example.com" "productX" 7
    "body{background:url(//cdn.example.com/productX/img/bg.png)}" "cdn/css/a.css"
  = Some "body{background:url(//static.example.com/img/bg.png)}".
Proof.
  exact (X13_beforeAddBuffer_business_reference "html" "static.example.com"
           "cdn.example.com" "productX" "cdn/css/a.css" "body{background:url("
           "img/bg.png" "}" ")" 7 eq_refl eq_refl eq_refl eq_refl eq_refl
           ltac:(discriminate) eq_refl eq_refl eq_refl).
Defined.

(** X14. [beforeAddBuffer] on a markup file, with [cdn] and [product]
    plain pattern text (pattern characters and the wildcard [.]),
    whose text holds no [//], no [crossorigin] attribute set to
    [anonymous], no [?_bid=152] and no [<script]: the text comes back
    as it is.  In particular a page without a script tag gets no
    version marker. *)
Theorem X14_beforeAddBuffer_markup_without_script
    (htmlPrefix domain cdn product assetPath source : string) (now : Z) :
  Str.includes assetPath htmlPrefix = true ->
  plain_pattern cdn = true -> plain_pattern product = true ->
  Str.includes source "//" = false ->
  Str.includes source crossorigin_text = false ->
  Str.includes source bid_text = false ->
  Str.includes source script_text = false ->
  beforeAddBuffer htmlPrefix domain cdn product now source assetPath = Some source.
Proof.
  intros Hpath Hc Hp Hs Hco Hbid Hscript.
  destruct (business_regex_defined cdn product Hc Hp) as [regex Hr].
  rewrite (beforeAddBuffer_markup _ _ _ _ _ _ _ _ Hpath Hr). f_equal.
  unfold before_injection.
  rewrite (substitute_platform_no_slashes _ _ Hs).
  rewrite (substitute_business_no_slashes _ _ _ _ _ Hr Hs).
  rewrite (strip_crossorigin_absent _ Hco), (strip_bid_absent _ Hbid).
  rewrite (strip_integrity_no_script _ Hscript).
  now apply inject_version_absent.
Qed.

Lemma X14_beforeAddBuffer_markup_without_script_witness :
  beforeAddBuffer "html" "now.qq.com" "cdn.example.com" "productX" 7
    "<html><body><p>offline</p></body></html>" "html/index.html"
  = Some "<html><body><p>offline</p></body></html>".
Proof.
  exact (X14_beforeAddBuffer_markup_without_script "html" "now.qq.com"
           "cdn.example.com" "productX" "html/index.html"
           "<html><body><p>offline</p></body></html>" 7
           eq_refl eq_refl eq_refl eq_refl eq_refl eq_refl eq_refl).
Defined.

End ReferenceFacts.

(** ** [path.join] on paths without [..] *)
Section PathFacts.

Lemma rev_app_spec (s t : string) : String.rev_app s t = String.rev s +:+ t.
Proof.
  unfold String.rev. revert t. induction s as [|c s IH]; intros t; [reflexivity|].
  cbn [String.rev_app]. rewrite IH, (IH (String c "")), append_assoc. reflexivity.
Qed.

Lemma split_go_slash (a b : string) :
  forall cur, Path.split_go cur (a +:+ String "/" b)
              = Path.split_go cur a ++ Path.split_go "" b.
Proof.
  induction a as [|c a IH]; intros cur.
  - reflexivity.
  - change (String c a +:+ String "/" b) with (String c (a +:+ String "/" b)).
    cbn [Path.split_go]. destruct (Ascii.eqb c "/"); rewrite IH; reflexivity.
Qed.

Lemma split_slash (a b : string) :
  Path.split (a +:+ String "/" b) = Path.split a ++ Path.split b.
Proof. apply split_go_slash. Qed.

Lemma split_go_nonempty (s cur : string) : Path.split_go cur s <> [].
Proof.
  revert cur. induction s as [|c s IH]; intros cur; cbn [Path.split_go]; [discriminate|].
  destruct (Ascii.eqb c "/"); [discriminate | apply IH].
Qed.

Lemma concat_cons (x : string) (l : list string) :
  l <> [] -> String.concat "/" (x :: l) = x +:+ "/" +:+ String.concat "/" l.
Proof. destruct l; [contradiction | reflexivity]. Qed.

Lemma concat_split_go (s : string) :
  forall cur, String.concat "/" (Path.split_go cur s) = String.rev cur +:+ s.
Proof.
  induction s as [|c s IH]; intros cur; cbn [Path.split_go].
  - cbn [String.concat]. now rewrite append_nil_r.
  - destruct (Ascii.eqb c "/") eqn:Ec.
    + apply Ascii.eqb_eq in Ec as ->.
      rewrite concat_cons by apply split_go_nonempty. rewrite IH. reflexivity.
    + rewrite IH. unfold String.rev. cbn [String.rev_app].
      rewrite (rev_app_spec cur (String c "")), append_assoc. reflexivity.
Qed.

Lemma concat_split (p : string) : String.concat "/" (Path.split p) = p.
Proof. apply (concat_split_go p ""). Qed.

Lemma concat_app (l1 l2 : list string) :
  l1 <> [] -> l2 <> [] ->
  String.concat "/" (l1 ++ l2)
  = String.concat "/" l1 +:+ "/" +:+ String.concat "/" l2.
Proof.
  intros H1 H2. induction l1 as [|x l1 IH]; [contradiction|].
  destruct l1 as [|y l1].
  - cbn [app]. now apply concat_cons.
  - change ((x :: y :: l1) ++ l2) with (x :: ((y :: l1) ++ l2)).
    rewrite (concat_cons x ((y :: l1) ++ l2)) by discriminate.
    rewrite IH by discriminate.
    rewrite (concat_cons x (y :: l1)) by discriminate.
    now rewrite !append_assoc.
Qed.

Lemma resolve_filter (allowAboveRoot : bool) (segs : list string) :
  forallb not_dotdot segs = true ->
  forall acc, Path.resolve allowAboveRoot acc segs
              = List.rev acc ++ List.filter kept_segment segs.
Proof.
  induction segs as [|s segs IH]; intros H acc; cbn [Path.resolve List.filter].
  - now rewrite app_nil_r.
  - cbn [forallb] in H. apply andb_prop in H as [Hs H].
    unfold not_dotdot in Hs. apply negb_true_iff in Hs.
    unfold kept_segment at 1.
    destruct (String.eqb s "" || String.eqb s "."); cbn [negb].
    + now apply IH.
    + rewrite Hs, IH by exact H. cbn [List.rev]. now rewrite <- app_assoc.
Qed.

Lemma endsWith_spec (s pat : string) :
  Str.endsWith s pat = true -> exists a, s = a +:+ pat.
Proof.
  induction s as [|c s IH]; cbn [Str.endsWith].
  - destruct (String.eqb "" pat) eqn:E; [|discriminate].
    apply String.eqb_eq in E as <-. now exists "".
  - destruct (String.eqb (String c s) pat) eqn:E.
    + apply String.eqb_eq in E as <-. now exists "".
    + intros (a & ->)%IH. now exists (String c a).
Qed.

Lemma endsWith_slash_app (a b : string) :
  b <> "" -> Str.endsWith (a +:+ b) "/" = Str.endsWith b "/".
Proof.
  intros Hb. induction a as [|c a IH]; [reflexivity|].
  change (String c a +:+ b) with (String c (a +:+ b)). cbn [Str.endsWith].
  destruct (String.eqb (String c (a +:+ b)) "/") eqn:E; [|exact IH].
  apply String.eqb_eq in E. injection E as _ E.
  destruct a; [simpl in E; contradiction | discriminate].
Qed.

(** *** Clean paths *)

Lemma plain_kept (l : list string) :
  forallb plain_segment l = true -> List.filter kept_segment l = l.
Proof.
  induction l as [|s l IH]; [reflexivity|]. cbn [forallb List.filter].
  intros [Hs H]%andb_prop.
  assert (kept_segment s = true) as ->.
  { unfold plain_segment in Hs. unfold kept_segment.
    now destruct (String.eqb s ""), (String.eqb s "."). }
  now rewrite IH.
Qed.

Lemma plain_not_dotdot (l : list string) :
  forallb plain_segment l = true -> forallb not_dotdot l = true.
Proof.
  induction l as [|s l IH]; [reflexivity|]. cbn [forallb].
  intros [Hs H]%andb_prop. rewrite (IH H), andb_true_r.
  unfold plain_segment in Hs. unfold not_dotdot.
  now destruct (String.eqb s ".."); [rewrite andb_false_r in Hs|].
Qed.

Lemma clean_head (p : string) :
  clean_path p = true -> exists c t, p = String c t /\ Ascii.eqb "/" c = false.
Proof.
  unfold clean_path, Path.split. destruct p as [|c t]; [discriminate|].
  intros H. exists c, t. split; [reflexivity|].
  cbn [Path.split_go] in H. rewrite Ascii.eqb_sym.
  destruct (Ascii.eqb c "/"); [discriminate H | reflexivity].
Qed.

Lemma clean_no_trail (p : string) : clean_path p = true -> Str.endsWith p "/" = false.
Proof.
  intros H. destruct (Str.endsWith p "/") eqn:E; [|reflexivity].
  apply endsWith_spec in E as [a ->]. unfold clean_path in H.
  change (a +:+ "/") with (a +:+ String "/" "") in H.
  rewrite split_slash, forallb_app in H. apply andb_prop in H as [_ H]. discriminate H.
Qed.

Lemma concat_kept_nonempty (l : list string) :
  l <> [] -> forallb kept_segment l = true -> String.concat "/" l <> "".
Proof.
  destruct l as [|s l]; [contradiction|]. intros _ [Hs _]%andb_prop.
  destruct s as [|c s]; [discriminate Hs|].
  destruct l; cbn [String.concat]; discriminate.
Qed.

Lemma filter_kept (l : list string) : forallb kept_segment (List.filter kept_segment l) = true.
Proof.
  induction l as [|s l IH]; [reflexivity|]. cbn [List.filter].
  destruct (kept_segment s) eqn:E; [|exact IH]. cbn [forallb]. now rewrite E, IH.
Qed.

(** The normal form of a path without [..]: the segments that are
    neither empty nor [.], between the slashes that the path starts
    and ends with. *)
Lemma normalize_segments (p : string) (l : list string) :
  p <> "" ->
  forallb not_dotdot (Path.split p) = true ->
  List.filter kept_segment (Path.split p) = l ->
  l <> [] ->
  Path.normalize p
  = (if Str.startsWith p "/" then "/" else "")
    +:+ String.concat "/" l
    +:+ (if Str.endsWith p "/" then "/" else "").
Proof.
  intros Hp Hdd Hl Hne. unfold Path.normalize, Path.normalizeString.
  destruct p as [|c t]; [contradiction|].
  rewrite resolve_filter by exact Hdd. cbn [List.rev app]. rewrite Hl.
  assert (Hc : String.concat "/" l <> "").
  { apply concat_kept_nonempty; [exact Hne|]. rewrite <- Hl. apply filter_kept. }
  destruct (String.concat "/" l) as [|x y]; [contradiction|].
  destruct (Str.startsWith (String c t) "/"), (Str.endsWith (String c t) "/");
    cbn [String.append]; rewrite ?append_nil_r; reflexivity.
Qed.

Lemma join_two (a b : string) :
  a <> "" -> b <> "" -> Path.join [a; b] = Path.normalize (a +:+ "/" +:+ b).
Proof. intros Ha Hb. destruct a, b; try contradiction. reflexivity. Qed.


Lemma startsWith_slash_app (a b : string) :
  a <> "" -> Str.startsWith (a +:+ b) "/" = Str.startsWith a "/".
Proof. intros Ha. destruct a; [contradiction | reflexivity]. Qed.

(** Two arguments without [..]: the kept segments of both, in order. *)
Lemma join_segments (a b : string) (la lb : list string) :
  a <> "" -> b <> "" ->
  forallb not_dotdot (Path.split a) = true ->
  forallb not_dotdot (Path.split b) = true ->
  List.filter kept_segment (Path.split a) = la ->
  List.filter kept_segment (Path.split b) = lb ->
  la ++ lb <> [] ->
  Path.join [a; b]
  = (if Str.startsWith a "/" then "/" else "")
    +:+ String.concat "/" (la ++ lb)
    +:+ (if Str.endsWith b "/" then "/" else "").
Proof.
  intros Ha Hb Hda Hdb Hla Hlb Hne. rewrite join_two by assumption.
  change (a +:+ "/" +:+ b) with (a +:+ String "/" b).
  rewrite (normalize_segments _ (la ++ lb)).
  - rewrite startsWith_slash_app by assumption.
    rewrite (endsWith_slash_app a (String "/" b)) by discriminate.
    change (String "/" b) with ("/" +:+ b). now rewrite (endsWith_slash_app "/" b Hb).
  - destruct a; [contradiction | discriminate].
  - now rewrite split_slash, forallb_app, Hda, Hdb.
  - now rewrite split_slash, List.filter_app, Hla, Hlb.
  - exact Hne.
Qed.

Lemma clean_nonempty (p : string) : clean_path p = true -> p <> "".
Proof. intros (c & t & -> & _)%clean_head. discriminate. Qed.

Lemma clean_relative (p : string) : clean_path p = true -> Str.startsWith p "/" = false.
Proof. intros (c & t & -> & H)%clean_head. cbn [Str.startsWith]. now rewrite H. Qed.

Lemma clean_segments (p : string) :
  clean_path p = true ->
  forallb not_dotdot (Path.split p) = true
  /\ List.filter kept_segment (Path.split p) = Path.split p
  /\ Path.split p <> [].
Proof.
  intros H. split; [now apply plain_not_dotdot|]. split; [now apply plain_kept|].
  apply split_go_nonempty.
Qed.

(** A clean path under a clean absolute root. *)
Lemma join_rooted (root rel : string) :
  clean_path root = true -> clean_path rel = true ->
  Path.join ["/" +:+ root; rel] = "/" +:+ root +:+ "/" +:+ rel.
Proof.
  intros Hr Hp.
  destruct (clean_segments root Hr) as (Hd1 & Hf1 & Hn1).
  destruct (clean_segments rel Hp) as (Hd2 & Hf2 & Hn2).
  rewrite (join_segments _ _ (Path.split root) (Path.split rel)).
  - rewrite (clean_no_trail rel Hp), append_nil_r.
    rewrite concat_app, !concat_split by assumption. reflexivity.
  - discriminate.
  - now apply clean_nonempty.
  - exact Hd1.
  - exact Hd2.
  - exact Hf1.
  - exact Hf2.
  - destruct (Path.split root); [contradiction | discriminate].
Qed.

Lemma clean_app (a b : string) :
  clean_path a = true -> clean_path b = true -> clean_path (a +:+ "/" +:+ b) = true.
Proof.
  unfold clean_path. intros Ha Hb.
  change (a +:+ "/" +:+ b) with (a +:+ String "/" b).
  now rewrite split_slash, forallb_app, Ha, Hb.
Qed.


(** Under a clean absolute root: the kept segments of the second
    argument follow the root. *)
Lemma join_rooted_segments (root b : string) (lb : list string) :
  clean_path root = true -> b <> "" ->
  forallb not_dotdot (Path.split b) = true ->
  List.filter kept_segment (Path.split b) = lb ->
  lb <> [] ->
  Path.join ["/" +:+ root; b]
  = "/" +:+ root +:+ "/" +:+ String.concat "/" lb
    +:+ (if Str.endsWith b "/" then "/" else "").
Proof.
  intros Hr Hb Hd Hf Hne.
  destruct (clean_segments root Hr) as (Hd1 & Hf1 & Hn1).
  rewrite (join_segments _ _ (Path.split root) lb).
  - cbn [Str.startsWith Ascii.eqb Bool.eqb].
    rewrite concat_app, concat_split by assumption. now rewrite !append_assoc.
  - discriminate.
  - exact Hb.
  - change (Path.split ("/" +:+ root)) with ("" :: Path.split root).
    cbn [forallb]. now rewrite Hd1.
  - exact Hd.
  - change (Path.split ("/" +:+ root)) with ("" :: Path.split root).
    cbn [List.filter]. exact Hf1.
  - exact Hf.
  - destruct (Path.split root); [contradiction | discriminate].
Qed.

Lemma split_dir (p : string) : Path.split (p +:+ "/") = Path.split p ++ [""].
Proof. change (p +:+ "/") with (p +:+ String "/" ""). apply split_slash. Qed.

Lemma concat_snoc (l : list string) (x : string) :
  l <> [] -> String.concat "/" (l ++ [x]) = String.concat "/" l +:+ "/" +:+ x.
Proof. intros H. now rewrite concat_app by (assumption || discriminate). Qed.

End PathFacts.

(** ** Where the functions put their files *)
Section PlaceFacts.
Import BuilderCore.

Lemma join_host (host rest : string) :
  clean_path host = true -> clean_path rest = true ->
  Path.join [host; "/" +:+ rest] = host +:+ "/" +:+ rest.
Proof.
  intros Hh Hr.
  destruct (clean_segments host Hh) as (Hd1 & Hf1 & Hn1).
  destruct (clean_segments rest Hr) as (Hd2 & Hf2 & Hn2).
  rewrite (join_segments _ _ (Path.split host) (Path.split rest)).
  - rewrite (clean_relative host Hh).
    rewrite (endsWith_slash_app "/" rest (clean_nonempty rest Hr)).
    rewrite (clean_no_trail rest Hr), append_nil_r.
    rewrite concat_app, !concat_split by assumption. reflexivity.
  - now apply clean_nonempty.
  - discriminate.
  - exact Hd1.
  - exact Hd2.
  - exact Hf1.
  - change (Path.split ("/" +:+ rest)) with ("" :: Path.split rest).
    cbn [List.filter]. exact Hf2.
  - destruct (Path.split host); [contradiction | discriminate].
Qed.

(** X15. With a server address that reads [SCHEME//HOST] ([SCHEME]
    without slash, empty in the configuration the comments describe)
    and clean paths (no empty segment, no [.] and no [..]),
    [pathMapper] archives a markup file [htmlPrefix/PAGE] at
    [SCHEMEHOST/PAGE], and an asset [assetsPrefix/FILE] whose path does
    not hold the markup prefix at [SCHEMEHOST/FILE]: the prefix and
    the [//] of the address are gone, and no doubled slash is left. *)
Theorem X15_pathMapper_clean_paths
    (assetsPrefix htmlPrefix scheme host page file : string) :
  has_char "/" scheme = false ->
  clean_path (scheme +:+ host) = true ->
  clean_path page = true -> clean_path file = true ->
  Str.includes (assetsPrefix +:+ "/" +:+ file) htmlPrefix = false ->
  pathMapper assetsPrefix htmlPrefix (scheme +:+ "//" +:+ host)
    (htmlPrefix +:+ "/" +:+ page)
  = scheme +:+ host +:+ "/" +:+ page
  /\ pathMapper assetsPrefix htmlPrefix (scheme +:+ "//" +:+ host)
       (assetsPrefix +:+ "/" +:+ file)
     = scheme +:+ host +:+ "/" +:+ file.
Proof.
  intros Hs Hh Hp Hf Hn. unfold pathMapper. rewrite !indexOf_test.
  rewrite (replace_first "//" "" _ scheme host)
    by (apply (first_occurrence_after "/" "/" scheme host Hs)).
  change (scheme +:+ "" +:+ host) with (scheme +:+ host).
  split.
  - rewrite (proj2 (includes_spec _ _) (occurs_here _ _ (startsWith_app htmlPrefix _))).
    rewrite (replace_first htmlPrefix "" _ "" ("/" +:+ page))
      by (now apply first_occurrence_here).
    rewrite <- (append_assoc scheme host ("/" +:+ page)).
    exact (join_host _ _ Hh Hp).
  - rewrite Hn.
    rewrite (proj2 (includes_spec _ _) (occurs_here _ _ (startsWith_app assetsPrefix _))).
    rewrite (replace_first assetsPrefix "" _ "" ("/" +:+ file))
      by (now apply first_occurrence_here).
    rewrite <- (append_assoc scheme host ("/" +:+ file)).
    exact (join_host _ _ Hh Hf).
Qed.

Lemma X15_pathMapper_clean_paths_witness :
  pathMapper "cdn" "html" "//now.qq.com/h5" "html/index.html" = "now.qq.com/h5/index.html"
  /\ pathMapper "cdn" "html" "//now.qq.com/h5" "cdn/js/app.js" = "now.qq.com/h5/js/app.js".
Proof.
  exact (X15_pathMapper_clean_paths "cdn" "html" "" "now.qq.com/h5" "index.html" "js/app.js"
           eq_refl eq_refl eq_refl eq_refl eq_refl).
Defined.

(** X16. For an absolute clean project root [/ROOT] and a clean output
    directory [OUT] ([public] when [outDir] is empty), [setOutput]
    writes to [/ROOT/OUT/], with the closing slash, and [setOffline]
    puts the archive into [/ROOT/OUT/offline], inside that directory. *)
Theorem X16_output_and_offline_directories
    (root outDir pathPrefix publicPath : string) (useHash : bool)
    (assetsPrefix htmlPrefix serverUrl domain cdn product : string) :
  let out := if Str.truthy outDir then outDir else "public" in
  clean_path root = true -> clean_path out = true ->
  Output.path (setOutput ("/" +:+ root) useHash pathPrefix publicPath outDir)
  = "/" +:+ root +:+ "/" +:+ out +:+ "/"
  /\ OfflineWebpackPlugin.path
       (setOffline ("/" +:+ root) assetsPrefix htmlPrefix serverUrl domain cdn product
          outDir)
     = "/" +:+ root +:+ "/" +:+ out +:+ "/offline".
Proof.
  intros out Hr Ho. unfold setOutput, setOffline.
  cbn [Output.path OfflineWebpackPlugin.path]. fold out.
  destruct (clean_segments out Ho) as (Hd & Hf & Hn).
  split.
  - rewrite (join_rooted_segments root (out +:+ "/") (Path.split out) Hr).
    + now rewrite endsWith_app, concat_split.
    + destruct out; discriminate.
    + now rewrite split_dir, forallb_app, Hd.
    + rewrite split_dir, List.filter_app, Hf. cbn [List.filter kept_segment]. 
      apply app_nil_r.
    + exact Hn.
  - change ("./" +:+ out +:+ "/offline") with ("." +:+ String "/" (out +:+ String "/" "offline")).
    rewrite (join_rooted_segments root _ (Path.split out ++ ["offline"]) Hr).
    + rewrite (endsWith_slash_app "." (String "/" (out +:+ String "/" "offline")))
        by discriminate.
      change (String "/" (out +:+ String "/" "offline"))
        with ("/" +:+ (out +:+ String "/" "offline")).
      rewrite (endsWith_slash_app "/" (out +:+ String "/" "offline"))
        by (destruct out; discriminate).
      rewrite (endsWith_slash_app out (String "/" "offline")) by discriminate.
      cbn [Str.endsWith String.eqb Ascii.eqb Bool.eqb].
      rewrite concat_snoc, concat_split by exact Hn. now rewrite append_nil_r.
    + discriminate.
    + rewrite !split_slash, !forallb_app, Hd. reflexivity.
    + rewrite !split_slash, !List.filter_app, Hf. reflexivity.
    + destruct (Path.split out); discriminate.
Qed.

Lemma X16_output_and_offline_directories_witness :
  Output.path (setOutput "/proj" true "cdn" "//cdn.example.com/" "")
  = "/proj/public/"
  /\ OfflineWebpackPlugin.path
       (setOffline "/proj" "cdn" "html" "//now.qq.com" "now.qq.com" "cdn.example.com"
          "productX" "")
     = "/proj/public/offline".
Proof.
  exact (X16_output_and_offline_directories "proj" "" "cdn" "//cdn.example.com/" true
           "cdn" "html" "//now.qq.com" "now.qq.com" "cdn.example.com" "productX"
           eq_refl eq_refl).
Defined.

(** X17. For a clean absolute home directory [/HOME] and a clean
    package name [PKG] (a scoped name included), [setResolveLoaderPath]
    lists [/HOME/.feflow/node_modules], the directory
    [PKG/node_modules] inside it, and the platform directory of the
    runtime, [runtime-now-6] when no runtime is given. *)
Theorem X17_setResolveLoaderPath_modules (home packageName runtime : string) :
  clean_path home = true -> clean_path packageName = true ->
  ResolveLoader.modules (setResolveLoaderPath ("/" +:+ home) packageName runtime)
  = [ "/" +:+ home +:+ "/.feflow/node_modules";
      "/" +:+ home +:+ "/.feflow/node_modules/" +:+ packageName +:+ "/node_modules";
      "/data/frontend/install/AlloyDist/"
      +:+ (if Str.truthy runtime then runtime else "runtime-now-6") +:+ "/node_modules" ].
Proof.
  intros Hh Hp. unfold setResolveLoaderPath. cbn [ResolveLoader.modules].
  destruct (clean_segments packageName Hp) as (Hd & Hf & Hn).
  f_equal; [|f_equal].
  - now rewrite (join_rooted_segments home _ [".feflow"; "node_modules"] Hh).
  - change ("./.feflow/node_modules/" +:+ packageName +:+ "/node_modules")
      with ("./.feflow/node_modules"
            +:+ String "/" (packageName +:+ String "/" "node_modules")).
    rewrite (join_rooted_segments home _
               ([".feflow"; "node_modules"] ++ Path.split packageName ++ ["node_modules"])
               Hh).
    + rewrite (endsWith_slash_app "./.feflow/node_modules"
                 (String "/" (packageName +:+ String "/" "node_modules")))
        by discriminate.
      change (String "/" (packageName +:+ String "/" "node_modules"))
        with ("/" +:+ (packageName +:+ String "/" "node_modules")).
      rewrite (endsWith_slash_app "/" (packageName +:+ String "/" "node_modules"))
        by (destruct packageName; discriminate).
      rewrite (endsWith_slash_app packageName (String "/" "node_modules")) by discriminate.
      cbn [Str.endsWith String.eqb Ascii.eqb Bool.eqb].
      rewrite concat_app by (discriminate || (destruct (Path.split packageName); discriminate)).
      rewrite concat_snoc, concat_split by exact Hn.
      cbn [String.concat]. rewrite !append_assoc, append_nil_r. reflexivity.
    + discriminate.
    + rewrite !split_slash, !forallb_app, Hd. reflexivity.
    + rewrite !split_slash, !List.filter_app, Hf. reflexivity.
    + discriminate.
Qed.

Lemma X17_setResolveLoaderPath_modules_witness :
  ResolveLoader.modules (setResolveLoaderPath "/home/dev" "@tencent/builder" "")
  = [ "/home/dev/.feflow/node_modules";
      "/home/dev/.feflow/node_modules/@tencent/builder/node_modules";
      "/data/frontend/install/AlloyDist/runtime-now-6/node_modules" ].
Proof.
  exact (X17_setResolveLoaderPath_modules "home/dev" "@tencent/builder" "" eq_refl eq_refl).
Defined.


Lemma first_pages (dir name : string) :
  forallb not_pages (Path.split dir) = true ->
  first_occurrence "/pages/" (dir +:+ "/pages/" +:+ name) dir name.
Proof.
  intros Hd. split; [reflexivity|]. intros a' b' E.
  destruct (le_lt_dec (String.length dir) (String.length a')) as [H|H]; [exact H|].
  exfalso.
  destruct (split_before dir ("/pages/" +:+ name) a' ("/pages/" +:+ b') E) as (z & Hz & Hy);
    [lia|].
  destruct z as [|c z].
  { rewrite append_nil_r in Hz. subst a'. lia. }
  change ("/pages/" +:+ b') with (String "/" ("pages" +:+ String "/" b')) in Hy.
  change (String c z +:+ "/pages/" +:+ name)
    with (String c (z +:+ String "/" ("pages/" +:+ name))) in Hy.
  injection Hy as <- Hy.
  assert (Hs : Path.split ("pages" +:+ String "/" b')
               = Path.split (z +:+ String "/" ("pages" +:+ String "/" name)))
    by (f_equal; exact Hy).
  clear Hy. rename Hs into Hy. rewrite !split_slash in Hy.
  change (String "/" z) with ("" +:+ String "/" z) in Hz.
  rewrite <- append_assoc in Hz. rewrite Hz, split_slash, forallb_app in Hd.
  apply andb_prop in Hd as [_ Hd].
  destruct (Path.split z) as [|x l] eqn:Ez; [now apply split_go_nonempty in Ez|].
  change (Path.split "pages") with ["pages"] in Hy.
  injection Hy as Hx _. subst x. discriminate Hd.
Qed.

(** X18. A page directory [/ROOT/src/pages/NAME] under the project
    root [/ROOT], with clean [ROOT] and [NAME], no segment of [ROOT]
    called [pages] and no line terminator in [NAME], gets a template
    instantiation whose chunk is [NAME], whose template is the
    [index.html] of that very directory, and whose injection follows
    the [init.js] of that directory. *)
Theorem X18_setMultiplePage_page_in_its_directory
    (root name : string) (existsSync : string -> bool)
    (minifyHtml inject inlineCSS : bool) (assetsPrefix htmlPrefix : string)
    (entries : list string) :
  let dir := "/" +:+ root +:+ "/src/pages/" +:+ name in
  let plan := setMultiplePage ("/" +:+ root) existsSync minifyHtml inject inlineCSS
                assetsPrefix htmlPrefix entries in
  clean_path root = true -> clean_path name = true ->
  forallb not_pages (Path.split root) = true ->
  all_accept RegExp.Dot name = true ->
  dir ∈ entries ->
  exists p,
    p ∈ htmlWebpackPlugins plan
    /\ HtmlWebpackPlugin.chunks p = [Some name]
    /\ HtmlWebpackPlugin.template p = dir +:+ "/index.html"
    /\ HtmlWebpackPlugin.filename p
       = (if Str.truthy htmlPrefix then htmlPrefix +:+ "/" else "") +:+ name +:+ ".html"
    /\ HtmlWebpackPlugin.inject p = inject && existsSync (dir +:+ "/init.js").
Proof.
  intros dir plan Hr Hn Hp Hline Hin.
  assert (Hname : pageName_of dir = Some name).
  { unfold dir.
    replace ("/" +:+ root +:+ "/src/pages/" +:+ name)
      with (("/" +:+ root +:+ "/src") +:+ "/pages/" +:+ name)
      by (now rewrite !append_assoc).
    apply pageName_of_name; [|exact Hline]. apply first_pages.
    change ("/" +:+ root +:+ "/src") with ("" +:+ String "/" (root +:+ String "/" "src")).
    rewrite !split_slash, !forallb_app, Hp. reflexivity. }
  destruct (plan_entry_plugin ("/" +:+ root) existsSync minifyHtml inject inlineCSS
              assetsPrefix htmlPrefix entries dir Hin) as (p & Hpin & Hc & Hi & Hf & Ht & _).
  exists p. rewrite Hname in Hc, Hf, Ht. cbn [Str.of_nullable] in Hf, Ht.
  repeat split; try assumption.
  rewrite Ht.
  destruct (clean_segments name Hn) as (Hd & Hk & Hne).
  change ("src/pages/" +:+ name +:+ "/index.html")
    with ("src/pages" +:+ String "/" (name +:+ String "/" "index.html")).
  rewrite (join_rooted_segments root _ (["src"; "pages"] ++ Path.split name ++ ["index.html"])
             Hr).
  - rewrite (endsWith_slash_app "src/pages"
               (String "/" (name +:+ String "/" "index.html"))) by discriminate.
    change (String "/" (name +:+ String "/" "index.html"))
      with ("/" +:+ (name +:+ String "/" "index.html")).
    rewrite (endsWith_slash_app "/" (name +:+ String "/" "index.html"))
      by (destruct name; discriminate).
    rewrite (endsWith_slash_app name (String "/" "index.html")) by discriminate.
    cbn [Str.endsWith String.eqb Ascii.eqb Bool.eqb].
    rewrite concat_app by (discriminate || (destruct (Path.split name); discriminate)).
    rewrite concat_snoc, concat_split by exact Hne.
    cbn [String.concat]. unfold dir. rewrite !append_assoc, append_nil_r. reflexivity.
  - discriminate.
  - rewrite !split_slash, !forallb_app, Hd. reflexivity.
  - rewrite !split_slash, !List.filter_app, Hk. reflexivity.
  - discriminate.
Qed.

Lemma X18_setMultiplePage_page_in_its_directory_witness :
  let disk := fun f => String.eqb f "/proj/src/pages/b/init.js" in
  exists p,
    p ∈ htmlWebpackPlugins
          (setMultiplePage "/proj" disk false true false "assets" "html"
             ["/proj/src/pages/a"; "/proj/src/pages/b"])
    /\ HtmlWebpackPlugin.chunks p = [Some "b"]
    /\ HtmlWebpackPlugin.template p = "/proj/src/pages/b/index.html"
    /\ HtmlWebpackPlugin.filename p = "html/b.html"
    /\ HtmlWebpackPlugin.inject p = true.
Proof.
  intros disk.
  apply (X18_setMultiplePage_page_in_its_directory "proj" "b" disk false true false
           "assets" "html" ["/proj/src/pages/a"; "/proj/src/pages/b"]
           eq_refl eq_refl eq_refl eq_refl).
  right. left.
Defined.

End PlaceFacts.

(** ** The [test] patterns of the module rules *)
Section TestFacts.
Import BuilderCore RegExp.

Lemma startsWith_exact (s p : string) :
  Str.startsWith s p = true -> Str.drop (String.length p) s = "" -> s = p.
Proof.
  intros [t ->]%startsWith_spec. rewrite drop_append. intros ->. apply append_nil_r.
Qed.

Lemma alternation_lits (alts : list string) (s : string) (caps : gmap nat string) :
  is_Some (TestPattern.alternation (List.map lits alts) s caps) <-> s ∈ alts.
Proof.
  induction alts as [|a alts IH]; cbn [List.map TestPattern.alternation].
  - split; [intros [x Hx]; discriminate | intros H; now apply elem_of_nil in H].
  - rewrite run_lits, elem_of_cons.
    destruct (Str.startsWith s a) eqn:Es.
    + destruct (Str.drop (String.length a) s) as [|c r] eqn:Ed; cbn [TestPattern.at_end].
      * split; [intros _; left; now apply startsWith_exact | eauto].
      * rewrite IH. split; [now right | intros [->|H]; [|exact H]].
        pose proof (drop_append a "") as Hd. rewrite append_nil_r in Hd. congruence.
    + rewrite IH. split; [now right | intros [->|H]; [|exact H]].
      pose proof (startsWith_app a "") as Hd. rewrite append_nil_r in Hd. congruence.
Qed.

Lemma test_here_lits (h : string) (alts : list string) (s : string) :
  TestPattern.test_here
    {| TestPattern.head := lits h; TestPattern.alternatives := List.map lits alts |} s
  = true
  <-> exists a, a ∈ alts /\ s = h +:+ a.
Proof.
  unfold TestPattern.test_here. cbn [TestPattern.head TestPattern.alternatives].
  rewrite run_lits. destruct (Str.startsWith s h) eqn:Es.
  - apply startsWith_spec in Es as [t ->]. rewrite drop_append.
    destruct (TestPattern.alternation (List.map lits alts) t ∅) as [u|] eqn:E.
    + assert (Hin : t ∈ alts) by (apply (alternation_lits alts t ∅); rewrite E; eauto).
      split; eauto.
    + split; [discriminate|]. intros (a & Hin & ->%append_inv_head).
      apply (alternation_lits alts a ∅) in Hin. rewrite E in Hin. now destruct Hin.
  - split; [discriminate|]. intros (a & _ & ->).
    rewrite startsWith_app in Es. discriminate.
Qed.

(** A [test] pattern of pattern characters accepts the paths that end
    with the head and one of the alternatives. *)
Lemma test_lits (h : string) (alts : list string) (s : string) :
  TestPattern.test
    {| TestPattern.head := lits h; TestPattern.alternatives := List.map lits alts |} s
  = true
  <-> exists pre a, a ∈ alts /\ s = pre +:+ h +:+ a.
Proof.
  induction s as [|c s IH]; cbn [TestPattern.test]; rewrite orb_true_iff, test_here_lits.
  - split.
    + intros [(a & Hin & E)|H]; [|discriminate]. exists "", a. auto.
    + intros (pre & a & Hin & E). left. exists a. split; [exact Hin|].
      destruct pre; [exact E | discriminate].
  - rewrite IH. split.
    + intros [(a & Hin & E)|(pre & a & Hin & ->)].
      * exists "", a. auto.
      * exists (String c pre), a. auto.
    + intros (pre & a & Hin & E). destruct pre as [|x pre].
      * left. exists a. auto.
      * right. injection E as -> ->. exists pre, a. auto.
Qed.

Lemma suffixes_comparable (p1 x1 p2 x2 : string) :
  p1 +:+ x1 = p2 +:+ x2 -> Str.endsWith x1 x2 = true \/ Str.endsWith x2 x1 = true.
Proof.
  intros E. destruct (Nat.le_ge_cases (String.length p1) (String.length p2)) as [H|H].
  - destruct (split_after _ _ _ _ E H) as (z & _ & ->). left. apply endsWith_app.
  - destruct (split_before _ _ _ _ E H) as (z & _ & ->). right. apply endsWith_app.
Qed.

Ltac suffix_test H :=
  first
    [ apply (proj1 (test_lits "." ["png"; "svg"; "jpg"; "gif"; "blob"] _)) in H
    | apply (proj1 (test_lits "." ["mp3"; "mp4"; "mov"] _)) in H
    | apply (proj1 (test_lits "." ["woff"; "woff2"; "eot"; "ttf"; "otf"] _)) in H
    | apply (proj1 (test_lits "index.html" [""] _)) in H
    | apply (proj1 (test_lits ".css" [""] _)) in H
    | apply (proj1 (test_lits ".scss" [""] _)) in H
    | apply (proj1 (test_lits ".less" [""] _)) in H
    | apply (proj1 (test_lits ".js" [""] _)) in H
    | apply (proj1 (test_lits ".ts" ["x"; ""] _)) in H ].

Ltac split_elem H :=
  repeat (apply elem_of_cons in H as [->|H]); [..|now apply elem_of_nil in H].

(** X19. No path is accepted by the [test] patterns of two different
    module rules: images, media, fonts, [index.html], [.css], [.scss],
    [.less], [.js] and [.ts]/[.tsx] files each go to one rule, whatever
    the arguments of the rules are. *)
Theorem X19_module_rules_exclusive
    (projectRoot : string) (subdirs : string -> list string)
    (extract : string -> list Rule.use_item -> list Rule.use_item)
    (useHash : bool) (pathPrefix : string)
    (minimize usePx2rem : bool) (remUnit remPrecision : option Z)
    (path : string) (i j : nat) (t1 t2 : TestPattern.t) :
  module_rule_tests projectRoot subdirs extract useHash pathPrefix
    minimize usePx2rem remUnit remPrecision !! i = Some t1 ->
  module_rule_tests projectRoot subdirs extract useHash pathPrefix
    minimize usePx2rem remUnit remPrecision !! j = Some t2 ->
  i <> j ->
  TestPattern.test t1 path = true ->
  TestPattern.test t2 path = false.
Proof.
  unfold module_rule_tests. intros Hi Hj Hij H1.
  destruct (TestPattern.test t2 path) eqn:H2; [exfalso|reflexivity].
  destruct i as [|[|[|[|[|[|[|[|[|i]]]]]]]]]; cbn [lookup list_lookup] in Hi;
    try discriminate Hi; injection Hi as <-;
    (destruct j as [|[|[|[|[|[|[|[|[|j]]]]]]]]]; cbn [lookup list_lookup] in Hj;
     try discriminate Hj; injection Hj as <-);
    try (now apply Hij);
    suffix_test H1; suffix_test H2;
    destruct H1 as (p1 & a1 & Hin1 & E1); destruct H2 as (p2 & a2 & Hin2 & E2);
    rewrite E1 in E2; split_elem Hin1; split_elem Hin2;
    apply suffixes_comparable in E2 as [E|E]; vm_compute in E; discriminate E.
Qed.

Lemma X19_module_rules_exclusive_witness :
  TestPattern.test (Rule.test setCssRule) "src/pages/a/index.scss" = false.
Proof.
  apply (X19_module_rules_exclusive "/proj" (fun _ => []) (fun _ use => use) false ""
           false false None None "src/pages/a/index.scss" 5 4
           (Rule.test (setScssRule "/proj" (fun _ => []) (fun _ use => use)
                         false false None None))).
  - reflexivity.
  - reflexivity.
  - discriminate.
  - vm_compute. reflexivity.
Defined.

Lemma endsWith_iff (s pat : string) :
  Str.endsWith s pat = true <-> exists a, s = a +:+ pat.
Proof.
  split; [apply endsWith_spec | intros [a ->]; apply endsWith_app].
Qed.

Lemma test_lits_endsWith (h : string) (alts : list string) (s : string) :
  TestPattern.test
    {| TestPattern.head := lits h; TestPattern.alternatives := List.map lits alts |} s
  = existsb (fun a => Str.endsWith s (h +:+ a)) alts.
Proof.
  apply Bool.eq_iff_eq_true. rewrite test_lits, existsb_exists. split.
  - intros (pre & a & Hin & ->). exists a. split.
    + now apply list_elem_of_In.
    + apply endsWith_app.
  - intros (a & Hin & (pre & ->)%endsWith_iff). exists pre, a. split.
    + now apply list_elem_of_In.
    + reflexivity.
Qed.

(** X20. Each module rule accepts a path by its ending alone, wherever
    the file is: the image rule the endings [.png], [.svg], [.jpg],
    [.gif], [.blob]; the media rule [.mp3], [.mp4], [.mov]; the font
    rule [.woff], [.woff2], [.eot], [.ttf], [.otf]; the markup rule
    every path that ends with [index.html], a file called
    [myindex.html] included; the style rules [.css], [.scss], [.less];
    the script rules [.js], and [.ts] or [.tsx]. *)
Theorem X20_module_rules_accept_by_ending
    (projectRoot : string) (subdirs : string -> list string)
    (extract : string -> list Rule.use_item -> list Rule.use_item)
    (useHash : bool) (pathPrefix : string)
    (minimize usePx2rem : bool) (remUnit remPrecision : option Z)
    (path : string) :
  List.map (fun t => TestPattern.test t path)
    (module_rule_tests projectRoot subdirs extract useHash pathPrefix
       minimize usePx2rem remUnit remPrecision)
  = List.map (existsb (Str.endsWith path))
      [ [".png"; ".svg"; ".jpg"; ".gif"; ".blob"];
        [".mp3"; ".mp4"; ".mov"];
        [".woff"; ".woff2"; ".eot"; ".ttf"; ".otf"];
        ["index.html"];
        [".css"];
        [".scss"];
        [".less"];
        [".js"];
        [".tsx"; ".ts"] ].
Proof.
  unfold module_rule_tests. cbn [List.map].
  repeat (apply f_equal2; [apply test_lits_endsWith|]). reflexivity.
Qed.
End TestFacts.

(** ** [setHappyPack] *)
Section HappyPackFacts.
Import BuilderCore.

Lemma Object_assign_lookup (target : gmap string Value.t)
    (source : option (gmap string Value.t)) (k : string) :
  k <> "__proto__" ->
  Object_assign target source !! k
  = match source with
    | Some m => match m !! k with Some v => Some v | None => target !! k end
    | None => target !! k
    end.
Proof.
  intros Hk. destruct source as [m|]; [|reflexivity]. unfold Object_assign.
  rewrite lookup_union, lookup_delete_ne by (intros E; now apply Hk).
  destruct (m !! k), (target !! k); reflexivity.
Qed.

Lemma Object_assign_proto (target : gmap string Value.t)
    (source : option (gmap string Value.t)) :
  Object_assign target source !! "__proto__" = target !! "__proto__".
Proof.
  destruct source as [m|]; [|reflexivity]. unfold Object_assign.
  rewrite lookup_union. unfold Obj.proto. rewrite lookup_delete_eq.
  now destruct (target !! "__proto__").
Qed.

(** X21. The options that [setHappyPack] hands to [babel-loader] are
    the same with and without tree shaking exactly when [jsLoader]
    brings presets of its own: the properties of [jsLoader] are laid
    over the defaults, so its presets replace the ones that
    [useTreeShaking] selects. *)
Theorem X21_setHappyPack_presets_override (jsLoader : option (gmap string Value.t)) :
  setHappyPack jsLoader true = setHappyPack jsLoader false
  <-> exists m, jsLoader = Some m /\ is_Some (m !! "presets").
Proof.
  unfold setHappyPack. split.
  - intros H. injection H as H.
    apply (f_equal (fun o => o !! "presets")) in H.
    rewrite !Object_assign_lookup in H by discriminate.
    destruct jsLoader as [m|].
    + exists m. split; [reflexivity|].
      destruct (m !! "presets") as [v|]; [eauto|].
      rewrite !lookup_insert_ne, !lookup_singleton_eq in H by discriminate.
      discriminate H.
    + rewrite !lookup_insert_ne, !lookup_singleton_eq in H by discriminate.
      discriminate H.
  - intros (m & -> & [v Hv]). do 3 f_equal. apply map_eq. intros k.
    destruct (String.eqb k "__proto__") eqn:Ep.
    { apply String.eqb_eq in Ep. subst k. now rewrite !Object_assign_proto. }
    apply String.eqb_neq in Ep. rewrite !Object_assign_lookup by exact Ep.
    destruct (m !! k) as [w|] eqn:Ek; [reflexivity|].
    assert (Hk : k <> "presets") by (intros ->; congruence).
    rewrite !lookup_insert. repeat case_decide; try reflexivity.
    now rewrite !lookup_singleton_ne by auto.
Qed.
End HappyPackFacts.

(** ** Output names under the offline rules *)
Section NameFacts.
Import BuilderCore RegExp.

Lemma has_char_occurs (c : ascii) (t s : string) :
  has_char c s = false -> ~ occurs (String c t) s.
Proof.
  intros H (a & b & ->). rewrite has_char_app in H.
  apply orb_false_elim in H as [_ H]. cbn [String.append has_char] in H.
  now rewrite Ascii.eqb_refl in H.
Qed.

(** A global removal of a literal that occurs once. *)
Lemma remove_literal_once (c : ascii) (t a b : string) :
  has_char c a = false -> has_char c b = false ->
  replace_all (lits (String c t)) "" (a +:+ String c t +:+ b) = a +:+ b.
Proof.
  intros Ha Hb. unfold replace_all. cbn [replace_loop].
  rewrite (search_literal_first _ _ _ (lits_literal_like (String c t)) _ a b ""
             (first_occurrence_after c t a b Ha)).
  cbn [before matched after String.length Str.drop GetSubstitution].
  rewrite replace_loop_none.
  - now rewrite append_nil_r.
  - apply (search_literal_absent _ _ _ (lits_literal_like (String c t))).
    now apply has_char_occurs.
Qed.

(** X22. The script names that [setOutput] builds end with the token
    that rule 4 of the markup branch of [beforeAddBuffer] removes:
    wherever such a name stands in a text that holds no other question
    mark, [strip_bid] leaves the name without [?_bid=152] and the text
    around it as it was.  [pathPrefix] holds no question mark. *)
Theorem X22_strip_bid_on_output_name
    (projectRoot pathPrefix publicPath outDir pre post : string) (useHash : bool) :
  has_char "?" pathPrefix = false ->
  has_char "?" pre = false -> has_char "?" post = false ->
  strip_bid
    (pre +:+ Output.filename (setOutput projectRoot useHash pathPrefix publicPath outDir)
     +:+ post)
  = pre +:+ (if Str.truthy pathPrefix then pathPrefix +:+ "/" else "")
    +:+ "[name]" +:+ (if useHash then "_[chunkhash:8]" else "") +:+ ".js" +:+ post.
Proof.
  intros Hp Hpre Hpost. unfold strip_bid, bid_regex, bid_text, setOutput.
  cbn [Output.filename].
  set (dir := if Str.truthy pathPrefix then pathPrefix +:+ "/" else "").
  set (hash := if useHash then "_[chunkhash:8]" else "").
  assert (Hdir : has_char "?" dir = false).
  { unfold dir. destruct (Str.truthy pathPrefix); [|reflexivity].
    now rewrite has_char_app, Hp. }
  assert (Hhash : has_char "?" hash = false) by (unfold hash; now destruct useHash).
  replace (pre +:+ (dir +:+ "[name]" +:+ hash +:+ ".js?_bid=152") +:+ post)
    with ((pre +:+ dir +:+ "[name]" +:+ hash +:+ ".js") +:+ "?_bid=152" +:+ post)
    by (now rewrite !append_assoc).
  rewrite (remove_literal_once "?" "_bid=152").
  - now rewrite !append_assoc.
  - now rewrite !has_char_app, Hpre, Hdir, Hhash.
  - exact Hpost.
Qed.

Lemma X22_strip_bid_on_output_name_witness :
  strip_bid
    ("<script src=" +:+ dq +:+ "cdn/[name]_[chunkhash:8].js?_bid=152" +:+ dq
     +:+ "></script>")
  = "<script src=" +:+ dq +:+ "cdn/[name]_[chunkhash:8].js" +:+ dq +:+ "></script>".
Proof.
  exact (X22_strip_bid_on_output_name "/proj" "cdn" "//cdn.example.com/" ""
           ("<script src=" +:+ dq) (dq +:+ "></script>") true eq_refl eq_refl eq_refl).
Defined.
End NameFacts.
